(** * XHRConnection: a shallow embedding of [src/XHRConnection.js]

    The connection object, its [XMLHttpRequest] handle, the zero-delay timers
    of [window.setTimeout] and the clock read by [Date.now()] are kept in one
    record, [World].  Every method of the class is a computation in a small
    state-and-exception monad over that record, written statement by
    statement in the order of the source. *)

From Stdlib Require Import List String ZArith Bool Lia Arith.
From Stdlib Require Import QArith_base.
From Stdlib Require Import DecimalString.
Import ListNotations.

Set Warnings "-register-all".

Local Close Scope Q_scope.
Local Open Scope string_scope.
Local Open Scope Z_scope.

(** ** JavaScript values *)

(** A JavaScript number: [NaN], an infinity, or a finite value.  Finite values
    are rationals, which include every finite double. *)
Inductive Number : Type :=
| NaN
| Infinity (negative : bool)
| Finite (q : Q).

(** The values an option, a header or a response can hold: primitives,
    functions (identified by a number), arrays and plain objects.  An object
    is its list of own enumerable properties in insertion order. *)
Inductive Value : Type :=
| VUndefined
| VNull
| VBool (b : bool)
| VNumber (n : Number)
| VString (s : string)
| VFunction (id : nat)
| VArray (items : list Value)
| VObject (props : list (string * Value)).

(** [typeof v]. *)
Definition typeof (v : Value) : string :=
  match v with
  | VUndefined => "undefined"
  | VNull => "object"
  | VBool _ => "boolean"
  | VNumber _ => "number"
  | VString _ => "string"
  | VFunction _ => "function"
  | VArray _ => "object"
  | VObject _ => "object"
  end.

(** ToBoolean: what [!v] and [a && b] test. *)
Definition truthy (v : Value) : bool :=
  match v with
  | VUndefined | VNull => false
  | VBool b => b
  | VNumber NaN => false
  | VNumber (Infinity _) => true
  | VNumber (Finite q) => negb (Qnum q =? 0)
  | VString s => negb (String.eqb s "")
  | VFunction _ | VArray _ | VObject _ => true
  end.

(** [v === "s"] for a string literal. *)
Definition strict_eq_string (v : Value) (s : string) : bool :=
  match v with
  | VString s' => String.eqb s' s
  | _ => false
  end.

(** [v !== undefined && v !== null]. *)
Definition not_nullish (v : Value) : bool :=
  match v with
  | VUndefined | VNull => false
  | _ => true
  end.

(** [arr.includes(v)] for an array of string literals. *)
Definition includes (arr : list string) (v : Value) : bool :=
  existsb (strict_eq_string v) arr.

(** [Number.MAX_SAFE_INTEGER], 2^53 - 1. *)
Definition MAX_SAFE_INTEGER : Z := 9007199254740991.

(** [Number.isSafeInteger(v)]: a number, finite, integral, and of absolute
    value at most 2^53 - 1. *)
Definition Number_isSafeInteger (v : Value) : bool :=
  match v with
  | VNumber (Finite q) =>
      (Qnum q mod Zpos (Qden q) =? 0)
      && (Z.abs (Qnum q / Zpos (Qden q)) <=? MAX_SAFE_INTEGER)
  | _ => false
  end.

(** [v < 0] for a number [v]; the source evaluates it only after
    [Number.isSafeInteger(v)] held. *)
Definition lt_zero (v : Value) : bool :=
  match v with
  | VNumber (Finite q) => Qnum q <? 0
  | VNumber (Infinity negative) => negative
  | _ => false
  end.

(** The decimal index [i] as a property name. *)
Definition index_name (i : nat) : string :=
  NilZero.string_of_uint (Nat.to_uint i).

(** The array index a property name denotes, if it denotes one: the name is
    the decimal form, without leading zeros, of an integer below 2^32 - 1. *)
Definition array_index (key : string) : option N :=
  match NilZero.uint_of_string key with
  | Some d =>
      let n := N.of_uint d in
      if String.eqb (NilZero.string_of_uint (N.to_uint n)) key
         && (n <? 4294967295)%N
      then Some n else None
  | None => None
  end.

(** [key], of index [n], put into a list of names sorted by index, after
    the names of the same index. *)
Fixpoint insert_index (n : N) (key : string) (l : list (N * string))
  : list (N * string) :=
  match l with
  | [] => [(n, key)]
  | (m, k) :: rest =>
      if (n <? m)%N then (n, key) :: l else (m, k) :: insert_index n key rest
  end.

(** The names among [keys] that are array indices, in ascending order of
    index. *)
Definition index_keys (keys : list string) : list string :=
  map snd
    (fold_left
       (fun acc key =>
          match array_index key with
          | Some n => insert_index n key acc
          | None => acc
          end)
       keys []).

(** The other names among [keys], in the order they have there. *)
Definition name_keys (keys : list string) : list string :=
  filter (fun key => match array_index key with None => true | _ => false end)
    keys.

(** [Object.keys(v)] for an object or array: the own enumerable property
    names, array indices first in ascending order, then the other names in
    insertion order. *)
Definition own_keys (v : Value) : list string :=
  match v with
  | VObject props => index_keys (map fst props) ++ name_keys (map fst props)
  | VArray items => map index_name (seq 0 (List.length items))
  | _ => []
  end.

Fixpoint lookup (key : string) (props : list (string * Value)) : Value :=
  match props with
  | [] => VUndefined
  | (k, v) :: rest => if String.eqb k key then v else lookup key rest
  end.

Fixpoint lookup_index (key : string) (i : nat) (items : list Value) : Value :=
  match items with
  | [] => VUndefined
  | v :: rest =>
      if String.eqb (index_name i) key then v else lookup_index key (S i) rest
  end.

(** [obj[key]] and [obj.key]: the property, or [undefined]. *)
Definition get (obj : Value) (key : string) : Value :=
  match obj with
  | VObject props => lookup key props
  | VArray items => lookup_index key 0%nat items
  | _ => VUndefined
  end.

(** A destructuring default, [{ key = dflt } = options]: the default is taken
    when the property is [undefined]. *)
Definition get_default (options : Value) (key : string) (dflt : Value) : Value :=
  match get options key with
  | VUndefined => dflt
  | v => v
  end.

(** ** The connection, its transport handle and its environment *)

(** [AbstractConnection.INIT], [.OPEN] and [.CLOSED]. *)
Inductive State : Type := INIT | OPEN | CLOSED.

Definition State_eqb (a b : State) : bool :=
  match a, b with
  | INIT, INIT | OPEN, OPEN | CLOSED, CLOSED => true
  | _, _ => false
  end.

(** The event kinds [ConnectionEvent.OPEN], [.DATA], [.ERROR], [.COMPLETE]
    and [.ABORT]. *)
Module ConnectionEvent.
Inductive kind : Type := OPEN | DATA | ERROR | COMPLETE | ABORT.

Definition eqb (a b : kind) : bool :=
  match a, b with
  | OPEN, OPEN | DATA, DATA | ERROR, ERROR | COMPLETE, COMPLETE
  | ABORT, ABORT => true
  | _, _ => false
  end.
End ConnectionEvent.

(** The five closures [open()] passes to [xhr.addEventListener], named by the
    signal each is registered for. *)
Inductive Handler : Type :=
| on_progress | on_load | on_abort | on_error | on_timeout.

(** What the code does to the outside, in the order it does it: writes to
    the connection's lifecycle properties, calls on the transport handle,
    timers handed to [window.setTimeout] and events given to [emit]. *)
Inductive Effect : Type :=
| NewXHR
| AddListener (type callback : Value)
| SetState (s : State)
| SetOpened (t : Z)
| SetClosed (t : Z)
| XhrAddEventListener (name : string) (h : Handler)
| XhrOpen (method url : Value)
| XhrSetTimeout (v : Value)
| XhrSetRequestHeader (key : string) (v : Value)
| XhrSetResponseType (v : Value)
| XhrSend (body : Value)
| XhrAbort
| SetTimeout (k : ConnectionEvent.kind)
| Emit (k : ConnectionEvent.kind).

(** The [XMLHttpRequest] handle: its registered listeners and the properties
    the connection reads or writes. *)
Record Xhr : Type := {
  x_listeners : list (string * Handler);
  x_timeout : Value;
  x_responseType : Value;
  x_response : Value;
  x_status : Z
}.

(** The connection object ([this]) with its environment: the pending
    zero-delay timers of [window.setTimeout] (oldest first, each named by the
    event kind its closure emits), the clock [Date.now()] reads, and the
    trace of effects so far.  [xhr] is [None] until the constructor has
    evaluated [new XMLHttpRequest()]. *)
Record World : Type := {
  url : Value;
  state : State;
  opened : option Z;
  closed : option Z;
  listeners : list (Value * Value);
  method : Value;
  body : Value;
  headers : Value;
  responseType : Value;
  timeout : Value;
  xhr : option Xhr;
  timers : list ConnectionEvent.kind;
  clock : Z;
  trace : list Effect
}.

Definition set_state (s : State) (w : World) : World :=
  {| url := url w; state := s; opened := opened w; closed := closed w;
     listeners := listeners w; method := method w; body := body w;
     headers := headers w; responseType := responseType w;
     timeout := timeout w; xhr := xhr w; timers := timers w; clock := clock w;
     trace := trace w |}.

Definition set_opened (t : option Z) (w : World) : World :=
  {| url := url w; state := state w; opened := t; closed := closed w;
     listeners := listeners w; method := method w; body := body w;
     headers := headers w; responseType := responseType w;
     timeout := timeout w; xhr := xhr w; timers := timers w; clock := clock w;
     trace := trace w |}.

Definition set_closed (t : option Z) (w : World) : World :=
  {| url := url w; state := state w; opened := opened w; closed := t;
     listeners := listeners w; method := method w; body := body w;
     headers := headers w; responseType := responseType w;
     timeout := timeout w; xhr := xhr w; timers := timers w; clock := clock w;
     trace := trace w |}.

Definition set_listeners (l : list (Value * Value)) (w : World) : World :=
  {| url := url w; state := state w; opened := opened w; closed := closed w;
     listeners := l; method := method w; body := body w;
     headers := headers w; responseType := responseType w;
     timeout := timeout w; xhr := xhr w; timers := timers w; clock := clock w;
     trace := trace w |}.

Definition set_url (u : Value) (w : World) : World :=
  {| url := u; state := state w; opened := opened w; closed := closed w;
     listeners := listeners w; method := method w; body := body w;
     headers := headers w; responseType := responseType w;
     timeout := timeout w; xhr := xhr w; timers := timers w; clock := clock w;
     trace := trace w |}.

Definition set_method (v : Value) (w : World) : World :=
  {| url := url w; state := state w; opened := opened w; closed := closed w;
     listeners := listeners w; method := v; body := body w;
     headers := headers w; responseType := responseType w;
     timeout := timeout w; xhr := xhr w; timers := timers w; clock := clock w;
     trace := trace w |}.

Definition set_body (v : Value) (w : World) : World :=
  {| url := url w; state := state w; opened := opened w; closed := closed w;
     listeners := listeners w; method := method w; body := v;
     headers := headers w; responseType := responseType w;
     timeout := timeout w; xhr := xhr w; timers := timers w; clock := clock w;
     trace := trace w |}.

Definition set_headers (v : Value) (w : World) : World :=
  {| url := url w; state := state w; opened := opened w; closed := closed w;
     listeners := listeners w; method := method w; body := body w;
     headers := v; responseType := responseType w;
     timeout := timeout w; xhr := xhr w; timers := timers w; clock := clock w;
     trace := trace w |}.

Definition set_responseType (v : Value) (w : World) : World :=
  {| url := url w; state := state w; opened := opened w; closed := closed w;
     listeners := listeners w; method := method w; body := body w;
     headers := headers w; responseType := v;
     timeout := timeout w; xhr := xhr w; timers := timers w; clock := clock w;
     trace := trace w |}.

Definition set_timeout (v : Value) (w : World) : World :=
  {| url := url w; state := state w; opened := opened w; closed := closed w;
     listeners := listeners w; method := method w; body := body w;
     headers := headers w; responseType := responseType w;
     timeout := v; xhr := xhr w; timers := timers w; clock := clock w;
     trace := trace w |}.

Definition set_xhr (x : option Xhr) (w : World) : World :=
  {| url := url w; state := state w; opened := opened w; closed := closed w;
     listeners := listeners w; method := method w; body := body w;
     headers := headers w; responseType := responseType w;
     timeout := timeout w; xhr := x; timers := timers w; clock := clock w;
     trace := trace w |}.

Definition set_timers (l : list ConnectionEvent.kind) (w : World) : World :=
  {| url := url w; state := state w; opened := opened w; closed := closed w;
     listeners := listeners w; method := method w; body := body w;
     headers := headers w; responseType := responseType w;
     timeout := timeout w; xhr := xhr w; timers := l; clock := clock w;
     trace := trace w |}.

Definition set_clock (t : Z) (w : World) : World :=
  {| url := url w; state := state w; opened := opened w; closed := closed w;
     listeners := listeners w; method := method w; body := body w;
     headers := headers w; responseType := responseType w;
     timeout := timeout w; xhr := xhr w; timers := timers w; clock := t;
     trace := trace w |}.

Definition set_trace (l : list Effect) (w : World) : World :=
  {| url := url w; state := state w; opened := opened w; closed := closed w;
     listeners := listeners w; method := method w; body := body w;
     headers := headers w; responseType := responseType w;
     timeout := timeout w; xhr := xhr w; timers := timers w; clock := clock w;
     trace := l |}.

Definition xset_listeners (l : list (string * Handler)) (x : Xhr) : Xhr :=
  {| x_listeners := l; x_timeout := x_timeout x;
     x_responseType := x_responseType x; x_response := x_response x;
     x_status := x_status x |}.

Definition xset_timeout (v : Value) (x : Xhr) : Xhr :=
  {| x_listeners := x_listeners x; x_timeout := v;
     x_responseType := x_responseType x; x_response := x_response x;
     x_status := x_status x |}.

Definition xset_responseType (v : Value) (x : Xhr) : Xhr :=
  {| x_listeners := x_listeners x; x_timeout := x_timeout x;
     x_responseType := v; x_response := x_response x;
     x_status := x_status x |}.

Definition xset_received (status : Z) (response : Value) (x : Xhr) : Xhr :=
  {| x_listeners := x_listeners x; x_timeout := x_timeout x;
     x_responseType := x_responseType x; x_response := response;
     x_status := status |}.

(** A handle as [new XMLHttpRequest()] returns it: no listeners, no timeout,
    response type [""], empty response, status 0. *)
Definition fresh_xhr : Xhr :=
  {| x_listeners := []; x_timeout := VNumber (Finite (Qmake 0 1));
     x_responseType := VString ""; x_response := VString "";
     x_status := 0 |}.

(** The object under construction before any constructor has run. *)
Definition blank (t : Z) : World :=
  {| url := VUndefined; state := INIT; opened := None; closed := None;
     listeners := []; method := VUndefined; body := VUndefined;
     headers := VUndefined; responseType := VUndefined;
     timeout := VUndefined; xhr := None; timers := []; clock := t;
     trace := [] |}.

(** ** Computations: state and exceptions *)

(** Why the constructor rejects a configuration: one reason per
    [throw new Error(...)] of the source, with the offending value its
    message quotes. *)
Inductive Invalid : Type :=
| InvalidMethod (method : Value)
| InvalidResponseType (responseType : Value)
| InvalidHeaders (type : string)
| InvalidTimeout (timeout : Value)
| InvalidListenersArray
| InvalidListenerObject (type : string)
| UnknownEventType (type : Value)
| InvalidCallback (type : Value).

(** What a [throw] carries: an [Error] the constructor builds, or an
    exception the runtime raises. *)
Inductive Thrown : Type :=
| Error (reason : Invalid)
| TypeError (message : string)
| SyntaxError.

Inductive Completion (A : Type) : Type :=
| Normal (a : A)
| Throw (e : Thrown).
Arguments Normal {A} a.
Arguments Throw {A} e.

(** A computation runs on a world and completes normally or by a throw; the
    mutations made before a throw stay. *)
Definition M (A : Type) : Type := World -> Completion A * World.

Definition ret {A : Type} (a : A) : M A := fun w => (Normal a, w).

Definition throw {A : Type} (e : Thrown) : M A := fun w => (Throw e, w).

Definition bind {A B : Type} (c : M A) (k : A -> M B) : M B :=
  fun w =>
    match c w with
    | (Normal a, w') => k a w'
    | (Throw e, w') => (Throw e, w')
    end.

Notation "x <- c ;; k" := (bind c (fun x => k))
  (at level 61, c at next level, right associativity).
Notation "c ;; k" := (bind c (fun _ => k))
  (at level 61, right associativity).

Definition gets {A : Type} (f : World -> A) : M A := fun w => (Normal (f w), w).

Definition modify (f : World -> World) : M unit := fun w => (Normal tt, f w).

Definition log (e : Effect) : M unit :=
  modify (fun w => set_trace (trace w ++ [e]) w).

(** [if (c) { m }]. *)
Definition when (c : bool) (m : M unit) : M unit := if c then m else ret tt.

(** [xs.forEach(f)]. *)
Fixpoint forEach {A : Type} (xs : list A) (f : A -> M unit) : M unit :=
  match xs with
  | [] => ret tt
  | x :: rest => f x ;; forEach rest f
  end.

(** The [TypeError] of enumerating [undefined] or [null]. *)
Definition null_keys : Thrown :=
  TypeError "Cannot convert undefined or null to object".

(** [Object.keys(v)]: a [TypeError] on [undefined] and [null]. *)
Definition Object_keys (v : Value) : M (list string) :=
  match v with
  | VUndefined | VNull => throw null_keys
  | _ => ret (own_keys v)
  end.

(** [Date.now()]. *)
Definition Date_now : M Z := gets clock.

(** [this.state = s]: the write the source performs, unconditionally.  The
    class only ever writes OPEN from INIT and CLOSED from any state, so
    every write moves the state forward or rewrites the state it has (see
    [step_forward] below); a guard on the transitions, as the spec gives
    [AbstractConnection], would change none of them. *)
Definition assign_state (s : State) : M unit :=
  modify (set_state s) ;; log (SetState s).

(** [this.opened = t]: the write the source performs.  The class writes
    [opened] only in the [open()] that leaves INIT, where it is null (see
    [step_opened] below). *)
Definition assign_opened (t : Z) : M unit :=
  modify (set_opened (Some t)) ;; log (SetOpened t).

(** Modelled from the spec: what an assignment makes of the timestamp
    [closed] of [AbstractConnection], which is not part of the source file.
    The listeners of the class assign [closed] at every closing signal, so
    what a second assignment does is decided by that class.  The spec:
    [closed] is a nullable timestamp, set exactly once, at the moment of the
    transition; a later signal must not re-stamp the close timestamp. *)
Definition stamp (old : option Z) (t : Z) : option Z :=
  match old with
  | None => Some t
  | Some _ => old
  end.

(** Modelled from the spec: [this.closed = t], an assignment to the
    timestamp [closed] of [AbstractConnection], which is not part of the
    source file: the timestamp is set when it is null and kept when it is
    set (see [stamp]).  The trace records the assignment. *)
Definition assign_closed (t : Z) : M unit :=
  modify (fun w => set_closed (stamp (closed w) t) w) ;; log (SetClosed t).

(** [window.setTimeout(() => { this.emit(k, new ConnectionEvent(this, k)) }, 0)]:
    the closure joins the pending timers. *)
Definition window_setTimeout (k : ConnectionEvent.kind) : M unit :=
  modify (fun w => set_timers (timers w ++ [k]) w) ;; log (SetTimeout k).

(** [this.xhr]: using it before the handle exists is a [TypeError]. *)
Definition this_xhr : M Xhr :=
  fun w =>
    match xhr w with
    | Some x => (Normal x, w)
    | None => (Throw (TypeError "Cannot read properties of undefined"), w)
    end.

Definition update_xhr (f : Xhr -> Xhr) : M unit :=
  x <- this_xhr ;; modify (set_xhr (Some (f x))).

(** [this.xhr.addEventListener(name, h)]. *)
Definition xhr_addEventListener (name : string) (h : Handler) : M unit :=
  update_xhr (fun x => xset_listeners (x_listeners x ++ [(name, h)]) x) ;;
  log (XhrAddEventListener name h).

(** [this.xhr.open(method, url)]. *)
Definition xhr_open (m u : Value) : M unit :=
  _ <- this_xhr ;; log (XhrOpen m u).

(** [this.xhr.timeout = v]. *)
Definition assign_xhr_timeout (v : Value) : M unit :=
  update_xhr (xset_timeout v) ;; log (XhrSetTimeout v).

(** [this.xhr.setRequestHeader(key, v)]. *)
Definition xhr_setRequestHeader (key : string) (v : Value) : M unit :=
  _ <- this_xhr ;; log (XhrSetRequestHeader key v).

(** [this.xhr.send(body)]. *)
Definition xhr_send (b : Value) : M unit :=
  _ <- this_xhr ;; log (XhrSend b).

(** [this.xhr.abort()].  The abort signal the transport answers with is
    delivered like every other signal, by [dispatch]. *)
Definition xhr_abort : M unit :=
  _ <- this_xhr ;; log XhrAbort.

(** [this.xhr.status]. *)
Definition status : M Z :=
  x <- this_xhr ;; ret (x_status x).

(** Modelled from the spec: the constructor of [AbstractConnection], which
    is not part of the source file.  It stores the target address and leaves
    the connection in state INIT with no timestamps and no listeners. *)
Definition super (u : Value) : M unit :=
  modify (fun w =>
    set_listeners [] (set_closed None (set_opened None
      (set_state INIT (set_url u w))))).

(** Modelled from the spec: [addListener(type, callback)] of
    [AbstractConnection], which is not part of the source file.  The
    registration is appended to the registry, in registration order. *)
Definition addListener (type callback : Value) : M unit :=
  modify (fun w => set_listeners (listeners w ++ [(type, callback)]) w) ;;
  log (AddListener type callback).

(** Modelled from the spec: [emit(kind, event)] of [AbstractConnection],
    which is not part of the source file.  The event is handed to the
    listeners of its kind; the trace records the emission. *)
Definition emit (k : ConnectionEvent.kind) : M unit := log (Emit k).

(** ** The class [XHRConnection] *)

Definition ALLOWED_METHODS : list string := ["GET"; "POST"; "PUT"; "DELETE"].

Definition ALLOWED_RESPONSE_TYPES : list string :=
  ["arraybuffer"; "blob"; "document"; "json"; "text"].

(** What [open()] returns: [this], or nothing. *)
Inductive Returned : Type := This | Nothing.

(** What happens to a connection from outside its own code: calls of its
    two methods, signals of the transport, the transport receiving a status
    and a response, a turn of the event loop running the oldest pending
    timer, and time passing. *)
Inductive Action : Type :=
| CallOpen (extraHeaders : Value)
| CallClose
| Signal (name : string)
| Receive (status : Z) (response : Value)
| TimerTurn
| Tick (dt : Z).

(** ** Notions the statements use *)

(** The listeners [open()] registers on the handle, in order. *)
Definition wired : list (string * Handler) :=
  [("progress", on_progress); ("load", on_load); ("abort", on_abort);
   ("error", on_error); ("timeout", on_timeout)].

Definition wiring_effects : list Effect :=
  map (fun l => XhrAddEventListener (fst l) (snd l)) wired.

Definition is_send (e : Effect) : bool :=
  match e with XhrSend _ => true | _ => false end.

Definition is_scheduling (k : ConnectionEvent.kind) (e : Effect) : bool :=
  match e with SetTimeout k' => ConnectionEvent.eqb k k' | _ => false end.

Definition is_emission (k : ConnectionEvent.kind) (e : Effect) : bool :=
  match e with Emit k' => ConnectionEvent.eqb k k' | _ => false end.

(** How often the trace sends, schedules the emission of a [k] event, and
    emits a [k] event. *)
Definition sends (tr : list Effect) : nat := List.length (filter is_send tr).

Definition scheduled (k : ConnectionEvent.kind) (tr : list Effect) : nat :=
  List.length (filter (is_scheduling k) tr).

Definition emitted (k : ConnectionEvent.kind) (tr : list Effect) : nat :=
  List.length (filter (is_emission k) tr).

(** How many of the pending timers will emit a [k] event. *)
Definition pending (k : ConnectionEvent.kind) (l : list ConnectionEvent.kind)
  : nat :=
  List.length (filter (ConnectionEvent.eqb k) l).

(** All events the trace emits, in order. *)
Definition emissions (tr : list Effect) : list ConnectionEvent.kind :=
  flat_map (fun e => match e with Emit k => [k] | _ => [] end) tr.

(** The header calls one object gives rise to: for each own key in order, a
    [setRequestHeader] unless the value under the key is [undefined] or
    [null]. *)
Definition header_effects (obj : Value) : list Effect :=
  flat_map
    (fun key =>
       if not_nullish (get obj key)
       then [XhrSetRequestHeader key (get obj key)]
       else [])
    (own_keys obj).

(** Header calls are neither sends, nor timers, nor emissions. *)
Definition is_header_call (e : Effect) : bool :=
  match e with XhrSetRequestHeader _ _ => true | _ => false end.

(** What a step must have written before it schedules the emission of
    [k]: the state and the timestamp of the transition the event reports,
    at the time [t] of the step.  A DATA event reports no transition. *)
Definition written_before (k : ConnectionEvent.kind) (t : Z)
  (pre : list Effect) : Prop :=
  match k with
  | ConnectionEvent.OPEN => In (SetState OPEN) pre /\ In (SetOpened t) pre
  | ConnectionEvent.DATA => True
  | _ => In (SetState CLOSED) pre /\ In (SetClosed t) pre
  end.

Definition is_timer (e : Effect) : bool :=
  match e with SetTimeout _ => true | _ => false end.

(** No effect of [l] schedules a timer. *)
Definition no_timer (l : list Effect) : bool :=
  forallb (fun e => negb (is_timer e)) l.

(** The states in lifecycle order. *)
Definition rank (s : State) : nat :=
  match s with INIT => 0 | OPEN => 1 | CLOSED => 2 end.

(** One step of the lifecycle: stay, or move along INIT -> OPEN,
    OPEN -> CLOSED or INIT -> CLOSED. *)
Definition forward (s s' : State) : Prop :=
  s' = s \/ (s = INIT /\ s' = OPEN) \/ (s = OPEN /\ s' = CLOSED)
  \/ (s = INIT /\ s' = CLOSED).

(** An object in the sense of the listener check: neither a primitive nor
    [null]. *)
Definition is_object (v : Value) : bool :=
  match v with
  | VObject _ | VArray _ => true
  | _ => false
  end.

(** The number [v] is an integer between 0 and 2^53 - 1. *)
Definition nonneg_safe_integer (v : Value) : Prop :=
  exists (q : Q) (n : Z),
    v = VNumber (Finite q) /\ Qnum q = n * Zpos (Qden q)
    /\ 0 <= n <= MAX_SAFE_INTEGER.

(** Appending effects to the trace. *)
Definition logged (es : list Effect) (w : World) : World :=
  set_trace (trace w ++ es) w.

(** ** Notions of the further properties *)

(** The event kinds whose emission the trace scheduled, in order. *)
Definition schedule (tr : list Effect) : list ConnectionEvent.kind :=
  flat_map (fun e => match e with SetTimeout k => [k] | _ => [] end) tr.

Definition is_transport_call (e : Effect) : bool :=
  match e with
  | XhrAddEventListener _ _ | XhrOpen _ _ | XhrSetTimeout _
  | XhrSetRequestHeader _ _ | XhrSetResponseType _ | XhrSend _
  | XhrAbort => true
  | _ => false
  end.

(** The calls the trace makes on the transport handle, in order. *)
Definition transport_calls (tr : list Effect) : list Effect :=
  filter is_transport_call tr.

(** What the constructor fixes: address, method, body, headers, response
    type, timeout, and the listeners given with the options. *)
Definition configuration (w : World)
  : Value * Value * Value * Value * Value * Value * list (Value * Value) :=
  (url w, method w, body w, headers w, responseType w, timeout w,
   listeners w).

(** What the connection sets on its handle. *)
Definition handle_settings (x : Xhr)
  : list (string * Handler) * Value * Value :=
  (x_listeners x, x_timeout x, x_responseType x).

(** The clock never goes back during the actions. *)
Definition clock_forward (acts : list Action) : Prop :=
  Forall (fun a => match a with Tick dt => 0 <= dt | _ => True end) acts.

(** Events are emitted in the order they were scheduled; an opened
    connection scheduled its OPEN event first and only once; a connection
    never opened scheduled nothing, or the one ABORT event of a [close()]. *)
Definition in_order (w : World) : Prop :=
  (emissions (trace w) ++ timers w)%list = schedule (trace w)
  /\ (opened w <> None ->
      exists rest,
        schedule (trace w) = ConnectionEvent.OPEN :: rest
        /\ ~ In ConnectionEvent.OPEN rest)
  /\ (opened w = None ->
      (state w = INIT /\ schedule (trace w) = [])
      \/ (state w = CLOSED /\ schedule (trace w) = [ConnectionEvent.ABORT])).

(** The calls a connection has made on its handle: none while it was never
    opened; otherwise the five listeners, [open], the timeout, header
    calls, then possibly the response type and the one [send], and after
    that only [abort] calls. *)
Definition request_protocol (w : World) : Prop :=
  (opened w = None -> transport_calls (trace w) = [])
  /\ (opened w <> None ->
      exists hs tail n,
        transport_calls (trace w)
        = (wiring_effects
           ++ [XhrOpen (method w) (url w); XhrSetTimeout (timeout w)]
           ++ hs ++ tail ++ repeat XhrAbort n)%list
        /\ Forall (fun e => is_header_call e = true) hs
        /\ (tail = []
            \/ tail = [XhrSetResponseType (responseType w);
                       XhrSend (body w)])).

(** The timestamps of a connection constructed at time [t0] are in order:
    construction, then opening, then closing, none later than now. *)
Definition stamped (t0 : Z) (w : World) : Prop :=
  t0 <= clock w
  /\ (forall t, opened w = Some t -> t0 <= t <= clock w)
  /\ (forall c, closed w = Some c -> t0 <= c <= clock w)
  /\ (forall t c, opened w = Some t -> closed w = Some c -> t <= c).

(** What the accessors read off the handle: its status and its raw
    response. *)
Definition readings (x : Xhr) : Z * Value := (x_status x, x_response x).

(** The status and the response the transport delivered last in [acts];
    those of a fresh handle when it delivered none. *)
Definition last_received (acts : list Action) : Z * Value :=
  fold_left
    (fun acc a => match a with Receive st r => (st, r) | _ => acc end)
    acts (readings fresh_xhr).

(** ** Sample platforms

    Concrete stand-ins for the three platform functions the class relies
    on, used to run the definitions on concrete inputs. *)
Module Sample.

(** A [ConnectionEvent.includes] whose kinds are the five names. *)
Definition includes_names (v : Value) : bool :=
  includes ["OPEN"; "DATA"; "ERROR"; "COMPLETE"; "ABORT"] v.

(** A [JSON.parse] restricted to the three literal names; every other text,
    the empty text included, is a [SyntaxError]. *)
Definition parse_literals (v : Value) : option Value :=
  match v with
  | VString "true" => Some (VBool true)
  | VString "false" => Some (VBool false)
  | VString "null" => Some VNull
  | _ => None
  end.

(** A handle that accepts every response type. *)
Definition supports_all (v : Value) : bool := true.

(** A handle that ignores the response type ["json"], as the one the
    comment in [get response()] describes. *)
Definition supports_no_json (v : Value) : bool :=
  negb (strict_eq_string v "json").

End Sample.

Section Platform.

(** [ConnectionEvent.includes], the membership test of the event kinds; the
    class [ConnectionEvent] is not part of the source file. *)
Variable ConnectionEvent_includes : Value -> bool.

(** [JSON.parse]; [None] is its [SyntaxError]. *)
Variable JSON_parse : Value -> option Value.

(** The response types the platform's [XMLHttpRequest] accepts: assigning
    any other value to [xhr.responseType] is ignored by the handle. *)
Variable XHR_supports : Value -> bool.

(** [new XMLHttpRequest()], stored as [this.xhr]. *)
Definition new_XMLHttpRequest : M unit :=
  modify (set_xhr (Some fresh_xhr)) ;; log NewXHR.

(** [this.xhr.responseType = v]. *)
Definition assign_xhr_responseType (v : Value) : M unit :=
  when (XHR_supports v) (update_xhr (xset_responseType v)) ;;
  log (XhrSetResponseType v).

(** [get response()]. *)
Definition response : M Value :=
  rt <- gets responseType ;;
  x <- this_xhr ;;
  if strict_eq_string rt "json"
     && truthy (x_response x)
     && strict_eq_string (x_responseType x) ""
  then
    match JSON_parse (x_response x) with
    | Some v => ret v
    | None => throw SyntaxError
    end
  else ret (x_response x).

(** The bodies of the five listeners [open()] registers on the handle. *)
Definition run_handler (h : Handler) : M unit :=
  match h with
  | on_progress =>
      window_setTimeout ConnectionEvent.DATA
  | on_load =>
      assign_state CLOSED ;;
      t <- Date_now ;;
      assign_closed t ;;
      st <- status ;;
      if st <? 400
      then window_setTimeout ConnectionEvent.COMPLETE
      else window_setTimeout ConnectionEvent.ERROR
  | on_abort =>
      assign_state CLOSED ;;
      t <- Date_now ;;
      assign_closed t ;;
      window_setTimeout ConnectionEvent.ABORT
  | on_error =>
      assign_state CLOSED ;;
      t <- Date_now ;;
      assign_closed t ;;
      window_setTimeout ConnectionEvent.ERROR
  | on_timeout =>
      assign_state CLOSED ;;
      t <- Date_now ;;
      assign_closed t ;;
      window_setTimeout ConnectionEvent.ERROR
  end.

(** [Object.keys(obj).forEach(key => { if (obj[key] !== undefined &&
    obj[key] !== null) this.xhr.setRequestHeader(key, obj[key]) })]. *)
Definition set_request_headers (obj : Value) : M unit :=
  keys <- Object_keys obj ;;
  forEach keys (fun key =>
    when (not_nullish (get obj key)) (xhr_setRequestHeader key (get obj key))).

(** [open(headers)]. *)
Definition open (extraHeaders : Value) : M Returned :=
  s <- gets state ;;
  if negb (State_eqb s INIT) then ret Nothing else
  xhr_addEventListener "progress" on_progress ;;
  xhr_addEventListener "load" on_load ;;
  xhr_addEventListener "abort" on_abort ;;
  xhr_addEventListener "error" on_error ;;
  xhr_addEventListener "timeout" on_timeout ;;
  m <- gets method ;;
  u <- gets url ;;
  xhr_open m u ;;
  t <- gets timeout ;;
  assign_xhr_timeout t ;;
  assign_state OPEN ;;
  n <- Date_now ;;
  assign_opened n ;;
  window_setTimeout ConnectionEvent.OPEN ;;
  h <- gets headers ;;
  set_request_headers h ;;
  when (String.eqb (typeof extraHeaders) "object")
    (set_request_headers extraHeaders) ;;
  rt <- gets responseType ;;
  assign_xhr_responseType rt ;;
  b <- gets body ;;
  xhr_send b ;;
  ret This.

(** [close()]. *)
Definition close : M unit :=
  s <- gets state ;;
  when (State_eqb s INIT)
    (assign_state CLOSED ;;
     t <- Date_now ;;
     assign_closed t ;;
     window_setTimeout ConnectionEvent.ABORT) ;;
  s' <- gets state ;;
  when (State_eqb s' OPEN) xhr_abort.

(** The callback of [listeners.forEach] in the constructor. *)
Definition register_listener (listenerObj : Value) : M unit :=
  when (negb (truthy listenerObj)
        || negb (String.eqb (typeof listenerObj) "object"))
    (throw (Error (InvalidListenerObject (typeof listenerObj)))) ;;
  when (negb (ConnectionEvent_includes (get listenerObj "type")))
    (throw (Error (UnknownEventType (get listenerObj "type")))) ;;
  when (negb (String.eqb (typeof (get listenerObj "callback")) "function"))
    (throw (Error (InvalidCallback (get listenerObj "type")))) ;;
  addListener (get listenerObj "type") (get listenerObj "callback").

(** [constructor(url, options = {})]. *)
Definition constructor (u options : Value) : M unit :=
  let options := match options with VUndefined => VObject [] | o => o end in
  super u ;;
  when (negb (not_nullish options))
    (throw (TypeError "Cannot destructure null")) ;;
  let method := get_default options "method" (VString "GET") in
  let body := get_default options "body" VNull in
  let headers :=
    get_default options "headers"
      (VObject [("Accept", VString "application/json")]) in
  let responseType := get_default options "responseType" (VString "json") in
  let timeout := get_default options "timeout" (VNumber (Finite (Qmake 0 1))) in
  let listeners := get_default options "listeners" (VArray []) in
  when (negb (includes ALLOWED_METHODS method))
    (throw (Error (InvalidMethod method))) ;;
  when (negb (includes ALLOWED_RESPONSE_TYPES responseType))
    (throw (Error (InvalidResponseType responseType))) ;;
  when (negb (String.eqb (typeof headers) "object"))
    (throw (Error (InvalidHeaders (typeof headers)))) ;;
  when (negb (Number_isSafeInteger timeout) || lt_zero timeout)
    (throw (Error (InvalidTimeout timeout))) ;;
  match listeners with
  | VArray items => forEach items register_listener
  | _ => throw (Error InvalidListenersArray)
  end ;;
  modify (set_method method) ;;
  modify (set_body body) ;;
  modify (set_headers headers) ;;
  modify (set_responseType responseType) ;;
  modify (set_timeout timeout) ;;
  new_XMLHttpRequest ;;
  when (truthy (get options "open")) (_ <- open VUndefined ;; ret tt).

(** [new XHRConnection(url, options)] evaluated at time [t]. *)
Definition new_XHRConnection (t : Z) (u options : Value)
  : Completion unit * World :=
  constructor u options (blank t).

(** ** The event loop *)

(** The transport delivers the signal [name]: the listeners registered for
    it run, in registration order. *)
Definition dispatch (name : string) : M unit :=
  fun w =>
    match xhr w with
    | None => (Normal tt, w)
    | Some x =>
        forEach (filter (fun l => String.eqb (fst l) name) (x_listeners x))
          (fun l => run_handler (snd l)) w
    end.

(** The transport has received a status and a response. *)
Definition receive (st : Z) (r : Value) : M unit :=
  fun w =>
    match xhr w with
    | None => (Normal tt, w)
    | Some x => (Normal tt, set_xhr (Some (xset_received st r x)) w)
    end.

(** The oldest pending zero-delay timer fires: its closure emits its event. *)
Definition timer_turn : M unit :=
  fun w =>
    match timers w with
    | [] => (Normal tt, w)
    | k :: rest => emit k (set_timers rest w)
    end.

Definition perform (a : Action) : M unit :=
  match a with
  | CallOpen extraHeaders => _ <- open extraHeaders ;; ret tt
  | CallClose => close
  | Signal name => dispatch name
  | Receive st r => receive st r
  | TimerTurn => timer_turn
  | Tick dt => modify (fun w => set_clock (clock w + dt) w)
  end.

Definition step (a : Action) (w : World) : World := snd (perform a w).

Definition run (acts : list Action) (w : World) : World :=
  fold_left (fun w a => step a w) acts w.

(** A world some [new XHRConnection(url, options)] has returned. *)
Definition constructed (w : World) : Prop :=
  exists t u options, new_XHRConnection t u options = (Normal tt, w).

(** A world a constructed connection can be in after some actions. *)
Definition reachable (w : World) : Prop :=
  exists w0 acts, constructed w0 /\ w = run acts w0.


(** ** Configuration validity, in the words of the option list *)

Definition option_method (options : Value) : Value :=
  get_default options "method" (VString "GET").

Definition option_responseType (options : Value) : Value :=
  get_default options "responseType" (VString "json").

Definition option_headers (options : Value) : Value :=
  get_default options "headers"
    (VObject [("Accept", VString "application/json")]).

Definition option_timeout (options : Value) : Value :=
  get_default options "timeout" (VNumber (Finite (Qmake 0 1))).

Definition option_listeners (options : Value) : Value :=
  get_default options "listeners" (VArray []).

(** A listener entry: an object whose [type] is a recognized event kind and
    whose [callback] is a function. *)
Definition valid_listener (o : Value) : Prop :=
  is_object o = true
  /\ ConnectionEvent_includes (get o "type") = true
  /\ typeof (get o "callback") = "function".

Definition valid_listeners (l : Value) : Prop :=
  exists items, l = VArray items /\ Forall valid_listener items.

(** One of the five option checks of the constructor fails; the check of
    the headers is the test [typeof headers !== "object"]. *)
Definition failing_check (options : Value) : Prop :=
  includes ALLOWED_METHODS (option_method options) = false
  \/ includes ALLOWED_RESPONSE_TYPES (option_responseType options) = false
  \/ typeof (option_headers options) <> "object"
  \/ ~ nonneg_safe_integer (option_timeout options)
  \/ ~ valid_listeners (option_listeners options).

(** An invalid configuration in the words of the option list: the method or
    the response type is outside its list, the headers are not an object,
    the timeout is not a non-negative safe integer, or the listeners are not
    an array of well-formed entries. *)
Definition invalid_configuration (options : Value) : Prop :=
  includes ALLOWED_METHODS (option_method options) = false
  \/ includes ALLOWED_RESPONSE_TYPES (option_responseType options) = false
  \/ is_object (option_headers options) = false
  \/ ~ nonneg_safe_integer (option_timeout options)
  \/ ~ valid_listeners (option_listeners options).

(** ** Worlds [open()] leads to *)

(** The handle once [open()] has registered its listeners and set the
    timeout. *)
Definition wired_xhr (w : World) (x : Xhr) : Xhr :=
  xset_timeout (timeout w) (xset_listeners (x_listeners x ++ wired) x).

(** The effects of [open()] up to and including the OPEN timer. *)
Definition open_effects (w : World) : list Effect :=
  wiring_effects
  ++ [XhrOpen (method w) (url w); XhrSetTimeout (timeout w); SetState OPEN;
      SetOpened (clock w); SetTimeout ConnectionEvent.OPEN].

(** The world after the statements of [open()] up to the OPEN timer,
    followed by the effects [es]. *)
Definition opening (w : World) (x : Xhr) (es : list Effect) : World :=
  set_trace (trace w ++ open_effects w ++ es)
    (set_timers (timers w ++ [ConnectionEvent.OPEN])
       (set_opened (Some (clock w))
          (set_state OPEN (set_xhr (Some (wired_xhr w x)) w)))).

(** The world after [open()] has run to its end with header calls [hs]. *)
Definition sent (w : World) (x : Xhr) (hs : list Effect) : World :=
  let x' := wired_xhr w x in
  let x'' :=
    if XHR_supports (responseType w)
    then xset_responseType (responseType w) x' else x' in
  set_xhr (Some x'')
    (opening w x
       (hs ++ [XhrSetResponseType (responseType w); XhrSend (body w)])).

(** The header calls for the argument of [open()]: none unless it has type
    ["object"]. *)
Definition extra_effects (extraHeaders : Value) : list Effect :=
  if String.eqb (typeof extraHeaders) "object"
  then header_effects extraHeaders else [].

(** The world a closing handler leaves: CLOSED, the close timestamp stamped
    with the current time unless it was set, with the emission of [k]
    scheduled. *)
Definition closing (k : ConnectionEvent.kind) (w : World) : World :=
  set_trace (trace w ++ [SetState CLOSED; SetClosed (clock w); SetTimeout k])
    (set_timers (timers w ++ [k])
       (set_closed (stamp (closed w) (clock w)) (set_state CLOSED w))).

(** The world after a timer for [k] has only been scheduled. *)
Definition scheduling (k : ConnectionEvent.kind) (w : World) : World :=
  set_trace (trace w ++ [SetTimeout k]) (set_timers (timers w ++ [k]) w).

(** ** Worlds the constructor leads to *)

(** The first [throw] of the [listeners.forEach] callback on [o], if any. *)
Definition listener_error (o : Value) : option Invalid :=
  if negb (truthy o) || negb (String.eqb (typeof o) "object")
  then Some (InvalidListenerObject (typeof o))
  else if negb (ConnectionEvent_includes (get o "type"))
  then Some (UnknownEventType (get o "type"))
  else if negb (String.eqb (typeof (get o "callback")) "function")
  then Some (InvalidCallback (get o "type"))
  else None.

Fixpoint first_invalid (items : list Value) : option Invalid :=
  match items with
  | [] => None
  | o :: rest =>
      match listener_error o with
      | Some r => Some r
      | None => first_invalid rest
      end
  end.

(** The entries before the first one the callback rejects. *)
Fixpoint valid_prefix (items : list Value) : list Value :=
  match items with
  | [] => []
  | o :: rest =>
      match listener_error o with
      | Some _ => []
      | None => o :: valid_prefix rest
      end
  end.

Definition registrations (items : list Value) : list (Value * Value) :=
  map (fun o => (get o "type", get o "callback")) items.

Definition registration_effects (items : list Value) : list Effect :=
  map (fun o => AddListener (get o "type") (get o "callback")) items.

(** The world after the listeners of [items] have been added. *)
Definition registering (items : list Value) (w : World) : World :=
  set_trace (trace w ++ registration_effects items)
    (set_listeners (listeners w ++ registrations items) w).

(** The connection as the constructor leaves it before [options.open] is
    looked at, [items] being the [listeners] option. *)
Definition configured (t : Z) (u options : Value) (items : list Value)
  : World :=
  {| url := u; state := INIT; opened := None; closed := None;
     listeners := registrations items;
     method := option_method options;
     body := get_default options "body" VNull;
     headers := option_headers options;
     responseType := option_responseType options;
     timeout := option_timeout options;
     xhr := Some fresh_xhr; timers := []; clock := t;
     trace := registration_effects items ++ [NewXHR] |}.

(** The outcome of the constructor, check by check, for [options] other
    than [null]. *)
Definition construction (t : Z) (u options : Value)
  : Completion unit * World :=
  let base := set_url u (blank t) in
  if negb (includes ALLOWED_METHODS (option_method options))
  then (Throw (Error (InvalidMethod (option_method options))), base)
  else if negb (includes ALLOWED_RESPONSE_TYPES (option_responseType options))
  then (Throw (Error (InvalidResponseType (option_responseType options))),
        base)
  else if negb (String.eqb (typeof (option_headers options)) "object")
  then (Throw (Error (InvalidHeaders (typeof (option_headers options)))),
        base)
  else if negb (Number_isSafeInteger (option_timeout options))
          || lt_zero (option_timeout options)
  then (Throw (Error (InvalidTimeout (option_timeout options))), base)
  else
    match option_listeners options with
    | VArray items =>
        match first_invalid items with
        | Some r => (Throw (Error r), registering (valid_prefix items) base)
        | None =>
            if truthy (get options "open")
            then
              match open VUndefined (configured t u options items) with
              | (Normal _, w) => (Normal tt, w)
              | (Throw e, w) => (Throw e, w)
              end
            else (Normal tt, configured t u options items)
        end
    | _ => (Throw (Error InvalidListenersArray), base)
    end.

(** ** Worlds the signals lead to *)

(** The listener the signal [name] reaches on a wired handle. *)
Definition handler_of (name : string) : option Handler :=
  if String.eqb name "progress" then Some on_progress
  else if String.eqb name "load" then Some on_load
  else if String.eqb name "abort" then Some on_abort
  else if String.eqb name "error" then Some on_error
  else if String.eqb name "timeout" then Some on_timeout
  else None.

(** The event a closing listener schedules, given the status the handle
    reports; the progress listener closes nothing. *)
Definition closing_kind (h : Handler) (st : Z) : option ConnectionEvent.kind :=
  match h with
  | on_progress => None
  | on_load =>
      Some (if st <? 400 then ConnectionEvent.COMPLETE
            else ConnectionEvent.ERROR)
  | on_abort => Some ConnectionEvent.ABORT
  | on_error => Some ConnectionEvent.ERROR
  | on_timeout => Some ConnectionEvent.ERROR
  end.

(** ** What holds of every reachable world *)

(** When the event of a pending timer is emitted, the connection already
    shows the transition the event reports. *)
Definition settled (w : World) (k : ConnectionEvent.kind) : Prop :=
  match k with
  | ConnectionEvent.OPEN => state w <> INIT /\ opened w <> None
  | ConnectionEvent.DATA => state w <> INIT
  | _ => state w = CLOSED /\ closed w <> None
  end.

Record Inv (w : World) : Prop := {
  inv_xhr : exists x, xhr w = Some x
    /\ (x_listeners x = [] \/ x_listeners x = wired)
    /\ (state w = INIT -> x_listeners x = [])
    /\ (state w = OPEN -> x_listeners x = wired)
    /\ (x_listeners x = wired -> opened w <> None);
  inv_headers : typeof (headers w) = "object";
  inv_init : state w = INIT ->
    opened w = None /\ timers w = [] /\ sends (trace w) = 0%nat
    /\ forall k, scheduled k (trace w) = 0%nat;
  inv_opened : opened w <> None -> state w <> INIT;
  inv_closed : closed w <> None <-> state w = CLOSED;
  inv_timers : Forall (settled w) (timers w);
  inv_counts : forall k,
    scheduled k (trace w) = (emitted k (trace w) + pending k (timers w))%nat;
  inv_open_once :
    scheduled ConnectionEvent.OPEN (trace w)
    = match opened w with Some _ => 1%nat | None => 0%nat end;
  inv_sends : (sends (trace w) <= scheduled ConnectionEvent.OPEN (trace w))%nat;
  inv_wired : opened w <> None ->
    exists x, xhr w = Some x /\ x_listeners x = wired
}.

(** ** The reaction to a signal *)



(** ** The settings of the handle *)

(** The response type the handle has taken: its initial [""] until
    [open()] has assigned the configured one and sent, and afterwards the
    configured one if the platform accepts it. *)
Definition negotiated (w : World) : Value :=
  if (0 <? sends (trace w))%nat && XHR_supports (responseType w)
  then responseType w else VString "".

(** The handle exists, has taken the response type [negotiated] says, and
    once the connection was opened carries the configured timeout. *)
Definition handle_follows (w : World) : Prop :=
  exists x,
    xhr w = Some x
    /\ x_responseType x = negotiated w
    /\ (opened w <> None -> x_timeout x = timeout w).

(** ** Basic facts about computations *)

(** ** Timestamps are stamped once *)

Lemma stamp_set (old : option Z) (t : Z) : stamp old t <> None.
Proof. destruct old; discriminate. Qed.

Lemma stamp_fresh (old : option Z) (t : Z) :
  old = None -> stamp old t = Some t.
Proof. now intros ->. Qed.

Lemma set_trace_same (w : World) : set_trace (trace w) w = w.
Proof. destruct w; reflexivity. Qed.

Lemma logged_nil (w : World) : logged [] w = w.
Proof. unfold logged. rewrite app_nil_r. apply set_trace_same. Qed.

Lemma logged_logged (a b : list Effect) (w : World) :
  logged b (logged a w) = logged (a ++ b) w.
Proof. unfold logged. destruct w; cbn. now rewrite app_assoc. Qed.

Lemma xhr_logged (es : list Effect) (w : World) : xhr (logged es w) = xhr w.
Proof. reflexivity. Qed.

Lemma forEach_headers (obj : Value) (keys : list string) :
  forall (w : World) (x : Xhr),
    xhr w = Some x ->
    forEach keys
      (fun key =>
         when (not_nullish (get obj key))
           (xhr_setRequestHeader key (get obj key))) w
    = (Normal tt,
       logged
         (flat_map
            (fun key =>
               if not_nullish (get obj key)
               then [XhrSetRequestHeader key (get obj key)]
               else []) keys) w).
Proof.
  induction keys as [|key rest IH]; intros w x Hx.
  - cbn. now rewrite logged_nil.
  - cbn [forEach flat_map]. unfold bind at 1.
    destruct (not_nullish (get obj key)) eqn:Hv; cbn [when].
    + unfold xhr_setRequestHeader, bind, this_xhr, log, modify.
      rewrite Hx.
      change (set_trace (trace w ++ [XhrSetRequestHeader key (get obj key)]) w)
        with (logged [XhrSetRequestHeader key (get obj key)] w).
      rewrite (IH _ x) by (now rewrite xhr_logged).
      now rewrite logged_logged.
    + unfold ret. now rewrite (IH _ x Hx).
Qed.

Lemma set_request_headers_run (obj : Value) (w : World) (x : Xhr) :
  xhr w = Some x ->
  not_nullish obj = true ->
  set_request_headers obj w = (Normal tt, logged (header_effects obj) w).
Proof.
  intros Hx Hobj. unfold set_request_headers, bind.
  assert (Hk : Object_keys obj w = (Normal (own_keys obj), w))
    by (destruct obj; try discriminate; reflexivity).
  rewrite Hk. now apply forEach_headers with (x := x).
Qed.

Lemma set_request_headers_nullish (obj : Value) (w : World) :
  not_nullish obj = false ->
  set_request_headers obj w = (Throw null_keys, w).
Proof.
  intros Hobj. destruct obj; try discriminate; reflexivity.
Qed.

Arguments set_request_headers : simpl never.

Lemma open_not_INIT (extraHeaders : Value) (w : World) :
  state w <> INIT -> open extraHeaders w = (Normal Nothing, w).
Proof.
  intros H. unfold open, bind, gets.
  destruct (state w); [contradiction | reflexivity | reflexivity].
Qed.

Lemma World_ext (w1 w2 : World) :
  url w1 = url w2 -> state w1 = state w2 -> opened w1 = opened w2 ->
  closed w1 = closed w2 -> listeners w1 = listeners w2 ->
  method w1 = method w2 -> body w1 = body w2 -> headers w1 = headers w2 ->
  responseType w1 = responseType w2 -> timeout w1 = timeout w2 ->
  xhr w1 = xhr w2 -> timers w1 = timers w2 -> clock w1 = clock w2 ->
  trace w1 = trace w2 -> w1 = w2.
Proof.
  destruct w1, w2; cbn; intros; subst; reflexivity.
Qed.

Ltac setters := cbn in *.

Ltac lists := repeat rewrite <- app_assoc; cbn [app]; rewrite ?app_nil_r.

(** Running straight-line code on a world given field by field: innermost
    first, so that no world is copied. *)
Ltac run_code :=
  cbv beta iota zeta delta
    [open close run_handler status response dispatch receive timer_turn
     perform step new_XMLHttpRequest assign_xhr_responseType
     bind ret throw gets modify log when Date_now assign_state assign_opened
     assign_closed window_setTimeout this_xhr update_xhr xhr_addEventListener
     xhr_open assign_xhr_timeout xhr_setRequestHeader xhr_send xhr_abort
     super addListener emit logged
     set_url set_state set_opened set_closed set_listeners set_method
     set_body set_headers set_responseType set_timeout set_xhr set_timers
     set_clock set_trace xset_listeners xset_timeout xset_responseType
     xset_received
     url state opened closed listeners method body headers responseType
     timeout xhr timers clock trace
     x_listeners x_timeout x_responseType x_response x_status
     State_eqb negb fst snd
     opening sent closing scheduling wired_xhr open_effects].

Lemma open_INIT (extraHeaders : Value) (w : World) (x : Xhr) :
  state w = INIT ->
  xhr w = Some x ->
  open extraHeaders w
  = if negb (not_nullish (headers w))
    then (Throw null_keys, opening w x [])
    else if String.eqb (typeof extraHeaders) "object"
            && negb (not_nullish extraHeaders)
    then (Throw null_keys, opening w x (header_effects (headers w)))
    else (Normal This,
          sent w x (header_effects (headers w) ++ extra_effects extraHeaders)).
Proof.
  intros Hs Hx. destruct w as [u s o c l m b hv rt tm xo ts ck tr].
  cbn in Hs, Hx. subst s xo. destruct x as [xl xt xr xp xs].
  unfold extra_effects. run_code.
  destruct (not_nullish hv) eqn:Hhv.
  - erewrite set_request_headers_run by (try reflexivity; exact Hhv).
    run_code.
    destruct (String.eqb (typeof extraHeaders) "object") eqn:Hty; cbn [andb].
    + destruct (not_nullish extraHeaders) eqn:Hex.
      * erewrite set_request_headers_run by (try reflexivity; exact Hex).
        run_code.
        destruct (XHR_supports rt); run_code; lists; reflexivity.
      * rewrite set_request_headers_nullish by exact Hex.
        lists; reflexivity.
    + destruct (XHR_supports rt); run_code; lists; reflexivity.
  - rewrite set_request_headers_nullish by exact Hhv.
    lists; reflexivity.
Qed.

(** ** What each method and listener does *)

Lemma close_INIT (w : World) :
  state w = INIT ->
  close w = (Normal tt, closing ConnectionEvent.ABORT w).
Proof.
  intros Hs. destruct w as [u s o c l m b hv rt tm xo ts ck tr].
  cbn in Hs. subst s. run_code. lists. reflexivity.
Qed.

Lemma close_OPEN (w : World) (x : Xhr) :
  state w = OPEN ->
  xhr w = Some x ->
  close w = (Normal tt, logged [XhrAbort] w).
Proof.
  intros Hs Hx. destruct w as [u s o c l m b hv rt tm xo ts ck tr].
  cbn in Hs, Hx. subst s xo. run_code. reflexivity.
Qed.

Lemma close_CLOSED (w : World) :
  state w = CLOSED -> close w = (Normal tt, w).
Proof.
  intros Hs. destruct w as [u s o c l m b hv rt tm xo ts ck tr].
  cbn in Hs. subst s. run_code. reflexivity.
Qed.

Lemma run_handler_spec (h : Handler) (w : World) (x : Xhr) :
  xhr w = Some x ->
  run_handler h w
  = (Normal tt,
     match closing_kind h (x_status x) with
     | Some k => closing k w
     | None => scheduling ConnectionEvent.DATA w
     end).
Proof.
  intros Hx. destruct w as [u s o c l m b hv rt tm xo ts ck tr].
  cbn in Hx. subst xo. destruct x as [xl xt xr xp xs].
  destruct h; unfold closing_kind; run_code;
    try (lists; reflexivity).
  destruct (xs <? 400); lists; reflexivity.
Qed.

Lemma dispatch_unwired (name : string) (w : World) (x : Xhr) :
  xhr w = Some x ->
  x_listeners x = [] ->
  dispatch name w = (Normal tt, w).
Proof.
  intros Hx Hl. unfold dispatch. rewrite Hx, Hl. reflexivity.
Qed.

Lemma handler_of_cases (name : string) :
  filter (fun l : string * Handler => String.eqb (fst l) name) wired
  = match handler_of name with
    | Some h => [(name, h)]
    | None => []
    end.
Proof.
  unfold handler_of.
  destruct (String.eqb name "progress") eqn:E1;
    [apply String.eqb_eq in E1; subst; reflexivity|].
  destruct (String.eqb name "load") eqn:E2;
    [apply String.eqb_eq in E2; subst; reflexivity|].
  destruct (String.eqb name "abort") eqn:E3;
    [apply String.eqb_eq in E3; subst; reflexivity|].
  destruct (String.eqb name "error") eqn:E4;
    [apply String.eqb_eq in E4; subst; reflexivity|].
  destruct (String.eqb name "timeout") eqn:E5;
    [apply String.eqb_eq in E5; subst; reflexivity|].
  unfold wired. cbn [filter fst]. rewrite (String.eqb_sym "progress"), E1.
  rewrite (String.eqb_sym "load"), E2.
  rewrite (String.eqb_sym "abort"), E3.
  rewrite (String.eqb_sym "error"), E4.
  rewrite (String.eqb_sym "timeout"), E5. reflexivity.
Qed.

Lemma dispatch_wired (name : string) (w : World) (x : Xhr) :
  xhr w = Some x ->
  x_listeners x = wired ->
  dispatch name w
  = (Normal tt,
     match handler_of name with
     | None => w
     | Some h =>
         match closing_kind h (x_status x) with
         | Some k => closing k w
         | None => scheduling ConnectionEvent.DATA w
         end
     end).
Proof.
  intros Hx Hl. unfold dispatch. rewrite Hx, Hl, handler_of_cases.
  destruct (handler_of name) as [h|]; [|reflexivity].
  cbn [forEach snd]. unfold bind.
  rewrite (run_handler_spec h w x Hx). reflexivity.
Qed.

Lemma timer_turn_spec (w : World) :
  timer_turn w
  = (Normal tt,
     match timers w with
     | [] => w
     | k :: rest => logged [Emit k] (set_timers rest w)
     end).
Proof.
  unfold timer_turn. destruct (timers w); reflexivity.
Qed.

(** ** Counting effects *)

Lemma sends_app (a b : list Effect) :
  sends (a ++ b) = (sends a + sends b)%nat.
Proof. unfold sends. now rewrite filter_app, length_app. Qed.

Lemma scheduled_app (k : ConnectionEvent.kind) (a b : list Effect) :
  scheduled k (a ++ b) = (scheduled k a + scheduled k b)%nat.
Proof. unfold scheduled. now rewrite filter_app, length_app. Qed.

Lemma emitted_app (k : ConnectionEvent.kind) (a b : list Effect) :
  emitted k (a ++ b) = (emitted k a + emitted k b)%nat.
Proof. unfold emitted. now rewrite filter_app, length_app. Qed.

Lemma pending_app (k : ConnectionEvent.kind) (a b : list ConnectionEvent.kind) :
  pending k (a ++ b) = (pending k a + pending k b)%nat.
Proof. unfold pending. now rewrite filter_app, length_app. Qed.

Lemma emissions_app (a b : list Effect) :
  emissions (a ++ b) = (emissions a ++ emissions b)%list.
Proof. unfold emissions. apply flat_map_app. Qed.

Lemma header_effects_calls (obj : Value) :
  Forall (fun e => is_header_call e = true) (header_effects obj).
Proof.
  unfold header_effects. induction (own_keys obj) as [|key rest IH]; cbn.
  - constructor.
  - apply Forall_app. split; [|exact IH].
    destruct (not_nullish (get obj key)); repeat constructor.
Qed.

Lemma extra_effects_calls (v : Value) :
  Forall (fun e => is_header_call e = true) (extra_effects v).
Proof.
  unfold extra_effects. destruct (String.eqb (typeof v) "object").
  - apply header_effects_calls.
  - constructor.
Qed.

Lemma header_calls_count (es : list Effect) :
  Forall (fun e => is_header_call e = true) es ->
  sends es = 0%nat
  /\ emissions es = []
  /\ forall k, scheduled k es = 0%nat /\ emitted k es = 0%nat.
Proof.
  induction 1 as [|e es He _ IH].
  - repeat split.
  - destruct IH as (Hs & Hm & Hk).
    destruct e; try discriminate He.
    repeat split; try assumption; apply Hk.
Qed.

(** ** The invariant is kept *)

Ltac counts :=
  unfold sends, scheduled, emitted, pending in *;
  rewrite ?filter_app, ?length_app; cbn.

Lemma Inv_closing (k : ConnectionEvent.kind) (w : World) :
  Inv w ->
  k <> ConnectionEvent.OPEN ->
  k <> ConnectionEvent.DATA ->
  Inv (closing k w).
Proof.
  intros [Hx Hh Hi Ho Hc Ht Hn H1 Hs Hwd] Hk1 Hk2.
  destruct Hx as (x & Hx & Hl & Hli & Hlo & Hlw).
  constructor; unfold closing; setters.
  - exists x. repeat split; try assumption; discriminate.
  - assumption.
  - discriminate.
  - discriminate.
  - split; [reflexivity|intros _; apply stamp_set].
  - pose proof (stamp_set (closed w) (clock w)) as Hst.
    apply Forall_app. split.
    + destruct (state w) eqn:Est.
      * destruct (Hi eq_refl) as (_ & Hnil & _). rewrite Hnil. constructor.
      * eapply Forall_impl; [|exact Ht]. intros k' Hk'.
        destruct k'; cbn in *; rewrite ?Est in *; intuition congruence.
      * eapply Forall_impl; [|exact Ht]. intros k' Hk'.
        destruct k'; cbn in *; rewrite ?Est in *; intuition congruence.
    + constructor; [|constructor].
      destruct k; try contradiction; cbn; split;
        (reflexivity || discriminate || exact Hst).
  - intros k'. counts. rewrite Hn.
    destruct k, k'; cbn; try contradiction; lia.
  - counts. rewrite H1.
    destruct k; cbn; try contradiction; lia.
  - counts. destruct k; cbn; try contradiction; lia.
  - assumption.
Qed.

Lemma Inv_scheduling_DATA (w : World) (x : Xhr) :
  Inv w ->
  xhr w = Some x ->
  x_listeners x = wired ->
  Inv (scheduling ConnectionEvent.DATA w).
Proof.
  intros [Hx Hh Hi Ho Hc Ht Hn H1 Hs Hwd] Hxw Hw.
  destruct Hx as (x' & Hx & Hl & Hli & Hlo & Hlw).
  assert (x' = x) by congruence. subst x'.
  assert (Hni : state w <> INIT) by auto.
  constructor; unfold scheduling; setters; try assumption.
  - exists x. repeat split; assumption.
  - intros E. contradiction.
  - apply Forall_app. split; [assumption|].
    constructor; [exact Hni|constructor].
  - intros k. counts. rewrite Hn. destruct k; cbn; lia.
  - counts. rewrite H1. lia.
  - counts. lia.
Qed.

Lemma Inv_logged (es : list Effect) (w : World) :
  Inv w ->
  sends es = 0%nat ->
  (forall k, scheduled k es = 0%nat /\ emitted k es = 0%nat) ->
  Inv (logged es w).
Proof.
  intros [Hx Hh Hi Ho Hc Ht Hn H1 Hs Hwd] Hs0 Hk0.
  constructor; unfold logged; setters; try assumption.
  - intros E. destruct (Hi E) as (A & B & C & D).
    repeat split; try assumption.
    + counts. lia.
    + intros k. counts. rewrite D. apply Hk0.
  - intros k. counts. rewrite Hn.
    destruct (Hk0 k) as [A B]. rewrite A, B. lia.
  - counts. rewrite H1. destruct (Hk0 ConnectionEvent.OPEN) as [A _].
    rewrite A. lia.
  - counts. destruct (Hk0 ConnectionEvent.OPEN) as [A _]. lia.
Qed.

Lemma Inv_received (st : Z) (r : Value) (w : World) (x : Xhr) :
  Inv w ->
  xhr w = Some x ->
  Inv (set_xhr (Some (xset_received st r x)) w).
Proof.
  intros [Hx Hh Hi Ho Hc Ht Hn H1 Hs Hwd] Hxw.
  destruct Hx as (x' & Hx & Hl & Hli & Hlo & Hlw).
  assert (x' = x) by congruence. subst x'.
  constructor; setters; try assumption.
  - exists (xset_received st r x). repeat split; assumption.
  - intros A. destruct (Hwd A) as (x' & Hx' & Hw').
    assert (x' = x) by congruence. subst x'.
    exists (xset_received st r x). now split.
Qed.

Lemma Inv_tick (t : Z) (w : World) : Inv w -> Inv (set_clock t w).
Proof.
  intros [Hx Hh Hi Ho Hc Ht Hn H1 Hs Hwd]. constructor; setters; assumption.
Qed.

Lemma Inv_timer (k : ConnectionEvent.kind) (rest : list ConnectionEvent.kind)
  (w : World) :
  Inv w ->
  timers w = k :: rest ->
  Inv (logged [Emit k] (set_timers rest w)).
Proof.
  intros [Hx Hh Hi Ho Hc Ht Hn H1 Hs Hwd] Htm.
  assert (Hni : state w <> INIT).
  { intros E. destruct (Hi E) as (_ & B & _). congruence. }
  constructor; unfold logged; setters; try assumption.
  - intros E. contradiction.
  - rewrite Htm in Ht. now inversion Ht.
  - intros k'. counts. rewrite Hn, Htm. cbn.
    destruct k, k'; cbn; lia.
  - counts. rewrite H1. lia.
  - counts. lia.
Qed.

Lemma Inv_opened_world (w : World) (x0 x' : Xhr) (es : list Effect) :
  Inv w ->
  state w = INIT ->
  x_listeners x' = wired ->
  (sends es <= 1)%nat ->
  (forall k, scheduled k es = 0%nat /\ emitted k es = 0%nat) ->
  Inv (set_xhr (Some x') (opening w x0 es)).
Proof.
  intros [Hx Hh Hi Ho Hc Ht Hn H1 Hs Hwd] Hst Hw Hs1 Hk0.
  destruct (Hi Hst) as (Hop & Htm & Hsn & Hsc).
  constructor; unfold opening, open_effects; setters; try assumption.
  - exists x'. repeat split; auto; discriminate.
  - discriminate.
  - discriminate.
  - rewrite Hst in Hc. split; [intros A; apply Hc in A|]; discriminate.
  - rewrite Htm. cbn. constructor; [|constructor].
    cbn. split; discriminate.
  - intros k. destruct (Hk0 k) as [A B]. counts. rewrite Hn, Htm.
    destruct k; cbn in *; rewrite ?A, ?B; lia.
  - destruct (Hk0 ConnectionEvent.OPEN) as [A _]. counts.
    rewrite Hsc, A. reflexivity.
  - destruct (Hk0 ConnectionEvent.OPEN) as [A _]. counts.
    rewrite Hsn, Hsc, A. cbn. lia.
  - intros _. exists x'. now split.
Qed.

Lemma opening_xhr (w : World) (x : Xhr) (es : list Effect) :
  set_xhr (Some (wired_xhr w x)) (opening w x es) = opening w x es.
Proof. destruct w; reflexivity. Qed.

Lemma step_open (extraHeaders : Value) (w : World) :
  step (CallOpen extraHeaders) w = snd (open extraHeaders w).
Proof.
  unfold step, perform, bind.
  destruct (open extraHeaders w) as [[r|e] w']; reflexivity.
Qed.

(** [open()] on a world in state INIT ends in one of three worlds. *)
Lemma open_INIT_world (extraHeaders : Value) (w : World) (x : Xhr) :
  state w = INIT ->
  xhr w = Some x ->
  snd (open extraHeaders w) = opening w x []
  \/ snd (open extraHeaders w) = opening w x (header_effects (headers w))
  \/ snd (open extraHeaders w)
     = sent w x (header_effects (headers w) ++ extra_effects extraHeaders).
Proof.
  intros Hs Hx. rewrite (open_INIT extraHeaders w x Hs Hx).
  destruct (negb (not_nullish (headers w))); [now left|].
  destruct (String.eqb (typeof extraHeaders) "object"
            && negb (not_nullish extraHeaders)); [right; now left|].
  right; now right.
Qed.

Lemma opened_after_open (extraHeaders : Value) (w : World) (x : Xhr) :
  state w = INIT ->
  xhr w = Some x ->
  opened w = None ->
  opened (snd (open extraHeaders w)) = Some (clock w).
Proof.
  intros Hs Hx Ho.
  destruct (open_INIT_world extraHeaders w x Hs Hx) as [E|[E|E]];
    rewrite E; reflexivity.
Qed.

Lemma Inv_open (extraHeaders : Value) (w : World) :
  Inv w -> Inv (snd (open extraHeaders w)).
Proof.
  intros HI. destruct (state w) eqn:Hst.
  - pose proof (inv_xhr w HI) as (x & Hx & _ & Hli & _).
    specialize (Hli Hst).
    assert (Hw : x_listeners (wired_xhr w x) = wired)
      by (unfold wired_xhr; cbn; now rewrite Hli).
    destruct (open_INIT_world extraHeaders w x Hst Hx) as [E|[E|E]];
      rewrite E.
    + rewrite <- opening_xhr.
      apply Inv_opened_world; auto; intros k; split; reflexivity.
    + rewrite <- opening_xhr.
      destruct (header_calls_count _ (header_effects_calls (headers w)))
        as (A & _ & B).
      apply Inv_opened_world; auto; rewrite A; lia.
    + unfold sent. cbv zeta.
      assert (Hc : Forall (fun e => is_header_call e = true)
                     (header_effects (headers w)
                      ++ extra_effects extraHeaders))
        by (apply Forall_app; split;
            [apply header_effects_calls | apply extra_effects_calls]).
      destruct (header_calls_count _ Hc) as (A & _ & B).
      apply Inv_opened_world; try assumption.
      * destruct (XHR_supports (responseType w)); assumption.
      * rewrite sends_app, A. cbn. lia.
      * intros k. rewrite scheduled_app, emitted_app.
        destruct (B k) as [B1 B2]. rewrite B1, B2.
        split; reflexivity.
  - rewrite open_not_INIT by (rewrite Hst; discriminate). exact HI.
  - rewrite open_not_INIT by (rewrite Hst; discriminate). exact HI.
Qed.

Lemma Inv_step (a : Action) (w : World) : Inv w -> Inv (step a w).
Proof.
  intros HI. pose proof (inv_xhr w HI) as (x & Hx & Hl & Hli & Hlo & Hlw).
  destruct a as [h| |name|st r| |dt].
  - rewrite step_open. now apply Inv_open.
  - unfold step, perform. destruct (state w) eqn:Hst.
    + rewrite close_INIT by assumption. cbn [snd].
      apply Inv_closing; [assumption|discriminate|discriminate].
    + rewrite (close_OPEN w x) by assumption. cbn [snd].
      apply Inv_logged; [assumption|reflexivity|].
      intros k. split; reflexivity.
    + rewrite close_CLOSED by assumption. exact HI.
  - unfold step, perform. destruct Hl as [Hl|Hl].
    + rewrite (dispatch_unwired name w x Hx Hl). exact HI.
    + rewrite (dispatch_wired name w x Hx Hl). cbn [snd].
      destruct (handler_of name) as [h|]; [|exact HI].
      destruct h; cbn [closing_kind].
      * now apply Inv_scheduling_DATA with (x := x).
      * apply Inv_closing; [assumption| |];
          destruct (x_status x <? 400); discriminate.
      * apply Inv_closing; [assumption|discriminate|discriminate].
      * apply Inv_closing; [assumption|discriminate|discriminate].
      * apply Inv_closing; [assumption|discriminate|discriminate].
  - unfold step, perform, receive. rewrite Hx. cbn [snd].
    now apply Inv_received.
  - unfold step, perform. rewrite timer_turn_spec. cbn [snd].
    destruct (timers w) as [|k rest] eqn:Htm; [exact HI|].
    now apply Inv_timer.
  - unfold step, perform, modify. cbn [snd]. now apply Inv_tick.
Qed.

Lemma Inv_run (acts : list Action) :
  forall w : World, Inv w -> Inv (run acts w).
Proof.
  induction acts as [|a acts IH]; intros w HI; [exact HI|].
  cbn. apply IH. now apply Inv_step.
Qed.

(** ** What the constructor does *)

Lemma register_listener_spec (o : Value) (w : World) :
  register_listener o w
  = match listener_error o with
    | Some r => (Throw (Error r), w)
    | None => (Normal tt, registering [o] w)
    end.
Proof.
  unfold register_listener, listener_error, bind.
  destruct (negb (truthy o) || negb (String.eqb (typeof o) "object"));
    [reflexivity|].
  destruct (negb (ConnectionEvent_includes (get o "type"))); [reflexivity|].
  destruct (negb (String.eqb (typeof (get o "callback")) "function"));
    reflexivity.
Qed.

Lemma registering_cons (o : Value) (items : list Value) (w : World) :
  registering items (registering [o] w) = registering (o :: items) w.
Proof.
  destruct w. unfold registering, registrations, registration_effects.
  cbn. now rewrite <- !app_assoc.
Qed.

Lemma registering_nil (w : World) : registering [] w = w.
Proof.
  destruct w. unfold registering. cbn. now rewrite !app_nil_r.
Qed.

Lemma forEach_register (items : list Value) :
  forall w : World,
    forEach items register_listener w
    = (match first_invalid items with
       | Some r => Throw (Error r)
       | None => Normal tt
       end,
       registering (valid_prefix items) w).
Proof.
  induction items as [|o rest IH]; intros w.
  - cbn. now rewrite registering_nil.
  - cbn [forEach first_invalid valid_prefix]. unfold bind at 1.
    rewrite register_listener_spec.
    destruct (listener_error o) as [r|].
    + now rewrite registering_nil.
    + rewrite IH. now rewrite registering_cons.
Qed.

Lemma valid_prefix_all (items : list Value) :
  first_invalid items = None -> valid_prefix items = items.
Proof.
  induction items as [|o rest IH]; cbn; [reflexivity|].
  destruct (listener_error o); [discriminate|].
  intros H. now rewrite IH.
Qed.


(** Running the constructor's own statements, leaving [open()] folded. *)
Ltac run_constructor :=
  cbv beta iota zeta delta
    [bind ret throw modify when super log new_XMLHttpRequest blank negb
     registering configured
     set_url set_state set_opened set_closed set_listeners set_method
     set_body set_headers set_responseType set_timeout set_xhr set_timers
     set_clock set_trace
     url state opened closed listeners method body headers responseType
     timeout xhr timers clock trace];
  cbn [app].

Lemma constructor_run (t : Z) (u options : Value) :
  options <> VNull ->
  new_XHRConnection t u options = construction t u options.
Proof.
  intros Hnn. unfold new_XHRConnection, constructor, construction.
  remember (match options with VUndefined => VObject [] | o => o end) as o'.
  assert (Hget : forall k d, get_default o' k d = get_default options k d)
    by (subst o'; destruct options; reflexivity).
  assert (Hopen : get o' "open" = get options "open")
    by (subst o'; destruct options; reflexivity).
  assert (Hn : not_nullish o' = true)
    by (subst o'; destruct options; try reflexivity; contradiction).
  cbv zeta. rewrite !Hget, Hopen, Hn. clear Heqo' Hget Hopen Hn o'.
  unfold option_method, option_responseType, option_headers, option_timeout,
    option_listeners.
  set (mv := get_default options "method" (VString "GET")).
  set (rv := get_default options "responseType" (VString "json")).
  set (hv := get_default options "headers" _).
  set (tv := get_default options "timeout" _).
  set (bv := get_default options "body" VNull).
  run_constructor.
  destruct (includes ALLOWED_METHODS mv); [|reflexivity].
  destruct (includes ALLOWED_RESPONSE_TYPES rv); [|reflexivity].
  destruct (String.eqb (typeof hv) "object"); [|reflexivity].
  destruct (Number_isSafeInteger tv); [|reflexivity].
  destruct (lt_zero tv); [reflexivity|]. cbn [orb].
  destruct (get_default options "listeners" (VArray [])) as
    [| | | | | |items|]; try reflexivity.
  rewrite !forEach_register.
  destruct (first_invalid items) as [r|] eqn:Hfi; [reflexivity|].
  rewrite (valid_prefix_all items Hfi).
  run_constructor.
  destruct (truthy (get options "open")); [|reflexivity].
  subst mv rv hv tv bv.
  unfold option_method, option_responseType, option_headers, option_timeout.
  match goal with
  | |- context [open VUndefined ?W] =>
      destruct (open VUndefined W) as [[r|e] w']
  end; reflexivity.
Qed.

Lemma registration_effects_count (items : list Value) :
  sends (registration_effects items) = 0%nat
  /\ forall k,
       scheduled k (registration_effects items) = 0%nat
       /\ emitted k (registration_effects items) = 0%nat.
Proof.
  induction items as [|o rest (IHs & IHk)]; [repeat split|].
  split; [exact IHs|]. intros k. apply IHk.
Qed.

Lemma Inv_configured (t : Z) (u options : Value) (items : list Value) :
  typeof (option_headers options) = "object" ->
  Inv (configured t u options items).
Proof.
  intros Hh. destruct (registration_effects_count items) as (Hs & Hk).
  constructor; unfold configured; cbn [xhr state opened closed timers trace
    headers].
  - exists fresh_xhr. repeat split; auto; intros A; discriminate A.
  - exact Hh.
  - intros _. repeat split.
    + rewrite sends_app, Hs. reflexivity.
    + intros k. rewrite scheduled_app. destruct (Hk k) as [A _].
      rewrite A. reflexivity.
  - intros A. now contradiction A.
  - split; [intros A; now contradiction A | discriminate].
  - constructor.
  - intros k. rewrite scheduled_app, emitted_app.
    destruct (Hk k) as [A B]. rewrite A, B. reflexivity.
  - rewrite scheduled_app. destruct (Hk ConnectionEvent.OPEN) as [A _].
    rewrite A. reflexivity.
  - rewrite sends_app, scheduled_app, Hs.
    destruct (Hk ConnectionEvent.OPEN) as [A _]. rewrite A. cbn. lia.
  - intros A. now contradiction A.
Qed.

Lemma constructor_null (t : Z) (u : Value) :
  fst (new_XHRConnection t u VNull)
  = Throw (TypeError "Cannot destructure null").
Proof. reflexivity. Qed.

Lemma constructed_Inv (w : World) : constructed w -> Inv w.
Proof.
  intros (t & u & options & H).
  destruct (not_nullish options) eqn:Hnn.
  2:{ destruct options; try discriminate Hnn.
      - rewrite constructor_run in H by discriminate.
        unfold construction in H. cbn in H. inversion H.
        now apply Inv_configured.
      - pose proof (constructor_null t u) as E. rewrite H in E.
        discriminate E. }
  rewrite constructor_run in H by (intros ->; discriminate).
  unfold construction in H.
  destruct (negb (includes ALLOWED_METHODS (option_method options)));
    [discriminate|].
  destruct (negb (includes ALLOWED_RESPONSE_TYPES
                    (option_responseType options))); [discriminate|].
  destruct (String.eqb (typeof (option_headers options)) "object") eqn:Hh;
    [|discriminate]. cbn [negb] in H. apply String.eqb_eq in Hh.
  destruct (negb (Number_isSafeInteger (option_timeout options))
            || lt_zero (option_timeout options)); [discriminate|].
  destruct (option_listeners options) as [| | | | | |items|];
    try discriminate.
  destruct (first_invalid items); [discriminate|].
  destruct (truthy (get options "open")).
  - pose proof (Inv_open VUndefined (configured t u options items)
                  (Inv_configured t u options items Hh)) as HI.
    destruct (open VUndefined (configured t u options items))
      as [[r|e] w']; [|discriminate].
    inversion H. subst. exact HI.
  - inversion H. now apply Inv_configured.
Qed.

Lemma reachable_Inv (w : World) : reachable w -> Inv w.
Proof.
  intros (w0 & acts & Hc & ->). apply Inv_run. now apply constructed_Inv.
Qed.

(** Outside CLOSED the close timestamp is not set. *)
Lemma not_CLOSED_unstamped (w : World) :
  Inv w -> state w <> CLOSED -> closed w = None.
Proof.
  intros HI Hs. destruct (closed w) eqn:E; [|reflexivity].
  exfalso. apply Hs. apply (inv_closed w HI). rewrite E. discriminate.
Qed.

(** ** Timers *)

Lemma step_timer (w : World) (k : ConnectionEvent.kind)
  (rest : list ConnectionEvent.kind) :
  timers w = k :: rest ->
  step TimerTurn w = logged [Emit k] (set_timers rest w).
Proof.
  intros H. unfold step, perform. rewrite timer_turn_spec, H. reflexivity.
Qed.

Lemma run_timer_turns (l : list ConnectionEvent.kind) :
  forall w : World,
    timers w = l ->
    run (repeat TimerTurn (List.length l)) w
    = set_timers [] (logged (map Emit l) w).
Proof.
  induction l as [|k rest IH]; intros w H.
  - cbn. rewrite logged_nil, <- H. destruct w; reflexivity.
  - cbn [List.length repeat run fold_left].
    change (fold_left (fun w a => step a w) ?l ?x) with (run l x).
    rewrite (step_timer w k rest H), IH by reflexivity.
    apply World_ext; cbn; try reflexivity. lists. reflexivity.
Qed.

Lemma emissions_Emit (l : list ConnectionEvent.kind) :
  emissions (map Emit l) = l.
Proof.
  unfold emissions. induction l as [|k rest IH]; [reflexivity|].
  cbn. now rewrite IH.
Qed.




(** ** The claims *)


Lemma forward_rank (s s' : State) : forward s s' -> (rank s <= rank s')%nat.
Proof.
  intros [->|[[-> ->]|[[-> ->]|[-> ->]]]]; cbn; lia.
Qed.

Lemma step_forward (a : Action) (w : World) :
  Inv w -> forward (state w) (state (step a w)).
Proof.
  intros HI. pose proof (inv_xhr w HI) as (x & Hx & Hl & Hli & Hlo & Hlw).
  destruct a as [h| |name|st r| |dt].
  - rewrite step_open. destruct (state w) eqn:Hst.
    + right; left. split; [reflexivity|].
      destruct (open_INIT_world h w x Hst Hx) as [E|[E|E]];
        rewrite E; reflexivity.
    + rewrite open_not_INIT by (rewrite Hst; discriminate).
      left. exact Hst.
    + rewrite open_not_INIT by (rewrite Hst; discriminate).
      left. exact Hst.
  - unfold step, perform. destruct (state w) eqn:Hst.
    + rewrite close_INIT by assumption. right; right; right. now split.
    + rewrite (close_OPEN w x) by assumption. left. exact Hst.
    + rewrite close_CLOSED by assumption. left. exact Hst.
  - unfold step, perform. destruct Hl as [Hl|Hl].
    + rewrite (dispatch_unwired name w x Hx Hl). now left.
    + rewrite (dispatch_wired name w x Hx Hl). cbn [snd].
      assert (Hni : state w <> INIT) by (apply (inv_opened w HI); auto).
      destruct (handler_of name) as [h|]; [|now left].
      destruct (closing_kind h (x_status x)); [|now left].
      cbn. destruct (state w); [contradiction| |now left].
      right; right; left. now split.
  - unfold step, perform, receive. rewrite Hx. now left.
  - unfold step, perform. rewrite timer_turn_spec.
    destruct (timers w); now left.
  - now left.
Qed.

Lemma run_app (a b : list Action) (w : World) :
  run (a ++ b) w = run b (run a w).
Proof. unfold run. apply fold_left_app. Qed.

Lemma run_rank (acts : list Action) :
  forall w : World,
    Inv w -> (rank (state w) <= rank (state (run acts w)))%nat.
Proof.
  induction acts as [|a acts IH]; intros w HI; [cbn; lia|].
  cbn [run fold_left].
  change (fold_left (fun w a => step a w) ?l ?x) with (run l x).
  pose proof (forward_rank _ _ (step_forward a w HI)).
  pose proof (IH (step a w) (Inv_step a w HI)). lia.
Qed.

(** What a successful construction returns: the configured connection, or
    that connection after [open()] when [options.open] is truthy. *)
Lemma constructed_cases (t : Z) (u options : Value) (w0 : World) :
  new_XHRConnection t u options = (Normal tt, w0) ->
  exists items,
    option_listeners options = VArray items
    /\ first_invalid items = None
    /\ typeof (option_headers options) = "object"
    /\ includes ALLOWED_METHODS (option_method options) = true
    /\ includes ALLOWED_RESPONSE_TYPES (option_responseType options) = true
    /\ (negb (Number_isSafeInteger (option_timeout options))
        || lt_zero (option_timeout options)) = false
    /\ ((truthy (get options "open") = false
         /\ w0 = configured t u options items)
        \/ (truthy (get options "open") = true
            /\ open VUndefined (configured t u options items)
               = (Normal This, w0))).
Proof.
  intros H.
  assert (Hnn : options <> VNull).
  { intros ->. pose proof (constructor_null t u) as E.
    rewrite H in E. discriminate E. }
  rewrite constructor_run in H by assumption. unfold construction in H.
  destruct (includes ALLOWED_METHODS (option_method options));
    [|discriminate].
  destruct (includes ALLOWED_RESPONSE_TYPES (option_responseType options));
    [|discriminate].
  destruct (String.eqb (typeof (option_headers options)) "object") eqn:Hh;
    [|discriminate]. cbn [negb] in H. apply String.eqb_eq in Hh.
  destruct (negb (Number_isSafeInteger (option_timeout options))
            || lt_zero (option_timeout options)); [discriminate|].
  destruct (option_listeners options) as [| | | | | |items|];
    try discriminate.
  destruct (first_invalid items) eqn:Hfi; [discriminate|].
  exists items. repeat split; try assumption.
  destruct (truthy (get options "open")).
  - right. split; [reflexivity|].
    pose proof (open_INIT VUndefined (configured t u options items)
                  fresh_xhr eq_refl eq_refl) as E.
    destruct (open VUndefined (configured t u options items))
      as [[r|e] w'] eqn:Ho; [|discriminate].
    inversion H; subst.
    destruct (negb (not_nullish (headers (configured t u options items))));
      [discriminate|].
    cbn [typeof String.eqb andb] in E. now inversion E.
  - left. split; [reflexivity|]. now inversion H.
Qed.

(** C2.  From every successful construction and through every sequence of
    calls of [open()] and [close()], transport signals, timer turns and
    clock ticks, the state only moves forward: the connection starts in
    INIT (or in OPEN when it was opened at construction), each action
    leaves the state as it is or moves it along INIT -> OPEN,
    OPEN -> CLOSED or INIT -> CLOSED, so it never goes back and never
    leaves CLOSED. *)
Theorem state_only_moves_forward (t : Z) (u options : Value) (w0 : World) :
  new_XHRConnection t u options = (Normal tt, w0) ->
  (state w0 = INIT \/ state w0 = OPEN)
  /\ (forall (acts : list Action) (a : Action),
        forward (state (run acts w0)) (state (step a (run acts w0))))
  /\ (forall acts more : list Action,
        (rank (state (run acts w0))
         <= rank (state (run (acts ++ more) w0)))%nat)
  /\ (forall acts more : list Action,
        state (run acts w0) = CLOSED ->
        state (run (acts ++ more) w0) = CLOSED).
Proof.
  intros H.
  assert (HI : Inv w0) by (apply constructed_Inv; now exists t, u, options).
  assert (Hrank : forall acts more : list Action,
             (rank (state (run acts w0))
              <= rank (state (run (acts ++ more) w0)))%nat).
  { intros acts more. rewrite run_app. apply run_rank. now apply Inv_run. }
  split; [|split; [|split]].
  - destruct (constructed_cases t u options w0 H)
      as (items & _ & _ & _ & _ & _ & _ & [[_ ->]|[_ Ho]]).
    + now left.
    + right.
      destruct (open_INIT_world VUndefined (configured t u options items)
                  fresh_xhr eq_refl eq_refl) as [E|[E|E]];
        rewrite Ho in E; cbn [snd] in E; rewrite E; reflexivity.
  - intros acts a. apply step_forward. now apply Inv_run.
  - exact Hrank.
  - intros acts more Hc. specialize (Hrank acts more). rewrite Hc in Hrank.
    destruct (state (run (acts ++ more) w0)); cbn in Hrank;
      [lia|lia|reflexivity].
Qed.

(** ** The option checks, as propositions *)

Lemma timeout_check (v : Value) :
  (negb (Number_isSafeInteger v) || lt_zero v) = false
  <-> nonneg_safe_integer v.
Proof.
  split.
  - intros H. apply orb_false_iff in H. destruct H as [Hs Hl].
    apply negb_false_iff in Hs.
    destruct v as [| | |[| |q]| | | |]; try discriminate Hs.
    cbn in Hs, Hl. apply andb_true_iff in Hs. destruct Hs as [Hm Ha].
    apply Z.eqb_eq in Hm. apply Z.leb_le in Ha. apply Z.ltb_ge in Hl.
    exists q, (Qnum q / Zpos (Qden q)). split; [reflexivity|].
    assert (Hd : Qnum q = Zpos (Qden q) * (Qnum q / Zpos (Qden q)))
      by (apply Z.div_exact; [discriminate|exact Hm]).
    split; [lia|].
    assert (0 <= Qnum q / Zpos (Qden q)) by (apply Z.div_pos; lia).
    lia.
  - intros (q & n & -> & Hq & Hn). cbn. rewrite Hq.
    rewrite Z.mod_mul, Z.div_mul by discriminate.
    apply orb_false_iff. split.
    + apply negb_false_iff. apply andb_true_iff. split.
      * reflexivity.
      * apply Z.leb_le. lia.
    + apply Z.ltb_ge. nia.
Qed.

Lemma object_check (o : Value) :
  (negb (truthy o) || negb (String.eqb (typeof o) "object")) = false
  <-> is_object o = true.
Proof.
  destruct o; cbn; rewrite ?orb_true_r; split; intros H;
    try discriminate H; reflexivity.
Qed.

Lemma listener_check (o : Value) :
  listener_error o = None <-> valid_listener o.
Proof.
  unfold listener_error, valid_listener. rewrite <- object_check.
  destruct (negb (truthy o) || negb (String.eqb (typeof o) "object")).
  { split; [discriminate|]. intros (A & _). discriminate A. }
  destruct (ConnectionEvent_includes (get o "type")); cbn [negb].
  2:{ split; [discriminate|]. intros (_ & A & _). discriminate A. }
  destruct (String.eqb (typeof (get o "callback")) "function") eqn:E;
    cbn [negb].
  - apply String.eqb_eq in E. now repeat split.
  - apply String.eqb_neq in E. split; [discriminate|].
    intros (_ & _ & A). contradiction.
Qed.

Lemma listeners_check (items : list Value) :
  first_invalid items = None <-> Forall valid_listener items.
Proof.
  induction items as [|o rest IH]; cbn.
  - split; [constructor|reflexivity].
  - destruct (listener_error o) as [r|] eqn:E.
    + split; [discriminate|]. intros H. inversion H as [|? ? Ho _]; subst.
      apply listener_check in Ho. congruence.
    + rewrite IH. split.
      * intros H. constructor; [now apply listener_check|exact H].
      * intros H. now inversion H.
Qed.

Lemma registration_no_handle (items : list Value) :
  ~ In NewXHR (registration_effects items).
Proof.
  induction items as [|o rest IH]; cbn; [tauto|].
  intros [A|A]; [discriminate A|contradiction].
Qed.

Lemma open_throws_no_Error (extraHeaders : Value) (w : World)
  (reason : Invalid) :
  Inv w -> fst (open extraHeaders w) <> Throw (Error reason).
Proof.
  intros HI. destruct (inv_xhr w HI) as (x & Hx & _).
  destruct (state w) eqn:Hst.
  - rewrite (open_INIT extraHeaders w x Hst Hx).
    destruct (negb (not_nullish (headers w))); [discriminate|].
    destruct (String.eqb (typeof extraHeaders) "object"
              && negb (not_nullish extraHeaders)); discriminate.
  - rewrite open_not_INIT by (rewrite Hst; discriminate). discriminate.
  - rewrite open_not_INIT by (rewrite Hst; discriminate). discriminate.
Qed.

Lemma open_keeps_handle (extraHeaders : Value) (w : World) :
  Inv w ->
  In NewXHR (trace w) ->
  In NewXHR (trace (snd (open extraHeaders w))).
Proof.
  intros HI Hin. destruct (inv_xhr w HI) as (x & Hx & _).
  destruct (state w) eqn:Hst.
  - destruct (open_INIT_world extraHeaders w x Hst Hx) as [E|[E|E]];
      rewrite E; cbn; apply in_or_app; now left.
  - now rewrite open_not_INIT by (rewrite Hst; discriminate).
  - now rewrite open_not_INIT by (rewrite Hst; discriminate).
Qed.

(** The constructor either rejects the configuration before a handle
    exists, or has passed every check and created the handle. *)
Lemma construction_cases (t : Z) (u options : Value) :
  let r := construction t u options in
  (failing_check options
   /\ (exists reason, fst r = Throw (Error reason))
   /\ xhr (snd r) = None
   /\ ~ In NewXHR (trace (snd r)))
  \/ (~ failing_check options
      /\ (forall reason, fst r <> Throw (Error reason))
      /\ xhr (snd r) <> None
      /\ In NewXHR (trace (snd r))).
Proof.
  clear JSON_parse. unfold construction. cbv zeta.
  destruct (includes ALLOWED_METHODS (option_method options)) eqn:Hm;
    cbn [negb].
  2:{ left. split; [now left|]. split; [eexists; reflexivity|]. split; [reflexivity|].
      cbn; tauto. }
  destruct (includes ALLOWED_RESPONSE_TYPES (option_responseType options))
    eqn:Hr; cbn [negb].
  2:{ left. split; [right; now left|]. split; [eexists; reflexivity|].
      split; [reflexivity|]. cbn; tauto. }
  destruct (String.eqb (typeof (option_headers options)) "object") eqn:Hh;
    cbn [negb].
  2:{ left. apply String.eqb_neq in Hh.
      split; [right; right; now left|]. split; [eexists; reflexivity|].
      split; [reflexivity|]. cbn; tauto. }
  apply String.eqb_eq in Hh.
  destruct (negb (Number_isSafeInteger (option_timeout options))
            || lt_zero (option_timeout options)) eqn:Ht.
  { left. split.
    - right; right; right; left. intros A. apply timeout_check in A.
      congruence.
    - split; [eexists; reflexivity|]. split; [reflexivity|]. cbn; tauto. }
  apply timeout_check in Ht.
  destruct (option_listeners options) as [| | | | | |items|] eqn:Hl;
    try (left; split;
         [do 4 right; intros (items' & A & _); rewrite Hl in A; discriminate A
         |split; [eexists; reflexivity|]; split; [reflexivity|]; cbn; tauto]).
  destruct (first_invalid items) as [reason|] eqn:Hfi.
  { left. split.
    - do 4 right. intros (items' & A & B). rewrite Hl in A.
      injection A as <-.
      apply listeners_check in B. congruence.
    - split; [eexists; reflexivity|]. split; [reflexivity|].
      cbn. apply registration_no_handle. }
  right.
  assert (Hv : ~ failing_check options).
  { intros [A|[A|[A|[A|A]]]]; try congruence; try contradiction.
    apply A. exists items. split; [exact Hl|].
    now apply listeners_check. }
  assert (HI : Inv (configured t u options items))
    by now apply Inv_configured.
  assert (Hin : In NewXHR (trace (configured t u options items)))
    by (cbn; apply in_or_app; right; now left).
  split; [exact Hv|].
  destruct (truthy (get options "open")).
  - pose proof (fun reason => open_throws_no_Error VUndefined _ reason HI)
      as Hne.
    pose proof (open_keeps_handle VUndefined _ HI Hin) as Hk.
    pose proof (inv_xhr _ (Inv_open VUndefined _ HI)) as (x & Hx & _).
    destruct (open VUndefined (configured t u options items))
      as [[r|e] w'] eqn:Ho; cbn [fst snd] in *.
    + split; [discriminate|]. split; [congruence|exact Hk].
    + split; [|split; [congruence|exact Hk]].
      intros reason A. injection A as ->. now apply (Hne reason).
  - split; [discriminate|]. split; [discriminate|exact Hin].
Qed.

Lemma typeof_is_object (v : Value) :
  typeof v <> "object" -> is_object v = false.
Proof.
  destruct v; try reflexivity; intros H; now contradiction H.
Qed.

Lemma is_object_typeof (v : Value) :
  is_object v = false -> typeof v <> "object" \/ v = VNull.
Proof.
  destruct v; intros H; try discriminate H;
    first [now right | left; discriminate].
Qed.

(** Every failing check is an invalid configuration in the words of the
    option list; the converse holds but for headers that are [null]. *)
Lemma failing_check_invalid (options : Value) :
  (failing_check options -> invalid_configuration options)
  /\ (invalid_configuration options ->
      failing_check options \/ option_headers options = VNull).
Proof.
  clear JSON_parse XHR_supports.
  unfold failing_check, invalid_configuration. split.
  - intros [A|[A|[A|[A|A]]]]; try tauto.
    right; right; left. now apply typeof_is_object.
  - intros [A|[A|[A|[A|A]]]]; try tauto.
    destruct (is_object_typeof _ A) as [B|B]; tauto.
Qed.

(** What the constructor checks.  For every options value other than
    [null], the constructor throws one of its own descriptive errors if and
    only if one of its five checks fails: the method is outside GET, POST,
    PUT, DELETE, or the response type is outside arraybuffer, blob,
    document, json, text, or [typeof headers] is not ["object"], or the
    timeout is not an integer between 0 and 2^53 - 1, or listeners is not
    an array of objects each with a recognized event kind as [type] and a
    function as [callback].  Every such error answers an invalid
    configuration in the words of the option list, and an invalid
    configuration is rejected unless its headers are [null].  When the
    constructor throws such an error no handle has been created; a handle
    exists only when none of the five checks fails.  In particular the
    method ["PATCH"] is rejected with nothing done but the base
    constructor. *)
Theorem constructor_validation (t : Z) (u options : Value) :
  options <> VNull ->
  ((exists reason,
      fst (new_XHRConnection t u options) = Throw (Error reason))
   <-> failing_check options)
  /\ ((exists reason,
         fst (new_XHRConnection t u options) = Throw (Error reason))
      -> invalid_configuration options)
  /\ (invalid_configuration options ->
      option_headers options <> VNull ->
      exists reason,
        fst (new_XHRConnection t u options) = Throw (Error reason))
  /\ (forall reason,
        fst (new_XHRConnection t u options) = Throw (Error reason) ->
        xhr (snd (new_XHRConnection t u options)) = None
        /\ ~ In NewXHR (trace (snd (new_XHRConnection t u options))))
  /\ (In NewXHR (trace (snd (new_XHRConnection t u options))) ->
      ~ failing_check options)
  /\ (xhr (snd (new_XHRConnection t u options)) <> None ->
      ~ failing_check options)
  /\ (option_method options = VString "PATCH" ->
      new_XHRConnection t u options
      = (Throw (Error (InvalidMethod (VString "PATCH"))),
         set_url u (blank t))).
Proof.
  clear JSON_parse.
  intros Hnn. rewrite (constructor_run t u options Hnn).
  pose proof (construction_cases t u options) as C. cbv zeta in C.
  destruct (failing_check_invalid options) as (F1 & F2).
  assert (Hiff : (exists reason,
                    fst (construction t u options) = Throw (Error reason))
                 <-> failing_check options).
  { split.
    + intros (reason & E).
      destruct C as [(A & _)|(_ & B & _)]; [exact A|].
      now contradiction (B reason).
    + intros A. destruct C as [(_ & B & _)|(B & _)]; [exact B|].
      contradiction. }
  split; [exact Hiff|].
  split; [intros E; apply F1, Hiff, E|].
  split.
  { intros A Hh. apply Hiff. destruct (F2 A) as [B|B];
      [exact B|contradiction]. }
  split; [|split; [|split]].
  - intros reason E.
    destruct C as [(_ & _ & A & B)|(_ & B & _)]; [now split|].
    now contradiction (B reason).
  - intros Hin. destruct C as [(_ & _ & _ & A)|(A & _)];
      [contradiction|exact A].
  - intros Hx. destruct C as [(_ & _ & A & _)|(A & _)];
      [contradiction|exact A].
  - intros Hp. unfold construction. rewrite Hp. reflexivity.
Qed.

(** ** A connection closed before it was opened *)

(** Reading a field of a world built by setters. *)
Ltac fields :=
  cbn [url state opened closed listeners method body headers responseType
       timeout xhr timers clock trace
       set_url set_state set_opened set_closed set_listeners set_method
       set_body set_headers set_responseType set_timeout set_xhr set_timers
       set_clock set_trace logged closing scheduling opening fst snd].

Lemma unopened_step (a : Action) (w : World) (x : Xhr) :
  state w = CLOSED ->
  xhr w = Some x ->
  x_listeners x = [] ->
  state (step a w) = CLOSED
  /\ (exists x', xhr (step a w) = Some x' /\ x_listeners x' = [])
  /\ closed (step a w) = closed w
  /\ sends (trace (step a w)) = sends (trace w)
  /\ forall k, scheduled k (trace (step a w)) = scheduled k (trace w).
Proof.
  intros Hs Hx Hl.
  destruct a as [h| |name|st r| |dt].
  - rewrite step_open, open_not_INIT by (rewrite Hs; discriminate).
    cbn [snd]. repeat split; eauto.
  - unfold step, perform. rewrite close_CLOSED by assumption.
    cbn [snd]. repeat split; eauto.
  - unfold step, perform. rewrite (dispatch_unwired name w x Hx Hl).
    cbn [snd]. repeat split; eauto.
  - unfold step, perform, receive. rewrite Hx. cbn [snd].
    repeat split; try assumption; try reflexivity.
    exists (xset_received st r x). split; [reflexivity|exact Hl].
  - unfold step, perform. rewrite timer_turn_spec. cbn [snd].
    destruct (timers w) as [|k rest]; [repeat split; eauto|].
    repeat split; try assumption; try reflexivity.
    + exists x. split; assumption.
    + fields. rewrite sends_app. cbn. lia.
    + intros k'. fields. rewrite scheduled_app. cbn. lia.
  - unfold step, perform, modify. cbn [snd].
    repeat split; try assumption; try reflexivity. eauto.
Qed.

Lemma unopened_run (acts : list Action) :
  forall (w : World) (x : Xhr),
    state w = CLOSED ->
    xhr w = Some x ->
    x_listeners x = [] ->
    state (run acts w) = CLOSED
    /\ closed (run acts w) = closed w
    /\ sends (trace (run acts w)) = sends (trace w)
    /\ forall k, scheduled k (trace (run acts w)) = scheduled k (trace w).
Proof.
  induction acts as [|a acts IH]; intros w x Hs Hx Hl.
  - repeat split; assumption.
  - cbn [run fold_left].
    change (fold_left (fun w a => step a w) ?l ?y) with (run l y).
    destruct (unopened_step a w x Hs Hx Hl)
      as (Hs' & (x' & Hx' & Hl') & Hc' & Hn' & Hk').
    destruct (IH (step a w) x' Hs' Hx' Hl') as (A & B & C & D).
    repeat split; try congruence; intros k; now rewrite D, Hk'.
Qed.

(** C4.  [close()] by state.  In INIT it moves the connection to CLOSED,
    stamps the close time and schedules one ABORT event, calling nothing on
    the transport; whatever happens afterwards, the connection stays CLOSED
    with that timestamp, nothing is ever sent, and exactly one ABORT event
    is scheduled, pending or emitted.  In OPEN it only calls [abort()] on
    the transport: state, timestamps and timers stay as they are.  In
    CLOSED it changes nothing. *)
Theorem close_by_state (w : World) :
  reachable w ->
  (state w = INIT ->
     close w = (Normal tt, closing ConnectionEvent.ABORT w)
     /\ state (closing ConnectionEvent.ABORT w) = CLOSED
     /\ closed (closing ConnectionEvent.ABORT w) = Some (clock w)
     /\ timers (closing ConnectionEvent.ABORT w) = [ConnectionEvent.ABORT]
     /\ forall acts : list Action,
          state (run acts (closing ConnectionEvent.ABORT w)) = CLOSED
          /\ closed (run acts (closing ConnectionEvent.ABORT w))
             = Some (clock w)
          /\ sends (trace (run acts (closing ConnectionEvent.ABORT w)))
             = 0%nat
          /\ scheduled ConnectionEvent.ABORT
               (trace (run acts (closing ConnectionEvent.ABORT w)))
             = 1%nat
          /\ (emitted ConnectionEvent.ABORT
                (trace (run acts (closing ConnectionEvent.ABORT w)))
              + pending ConnectionEvent.ABORT
                  (timers (run acts (closing ConnectionEvent.ABORT w))))%nat
             = 1%nat)
  /\ (state w = OPEN ->
        close w = (Normal tt, logged [XhrAbort] w)
        /\ state (logged [XhrAbort] w) = OPEN
        /\ opened (logged [XhrAbort] w) = opened w
        /\ closed (logged [XhrAbort] w) = closed w
        /\ timers (logged [XhrAbort] w) = timers w)
  /\ (state w = CLOSED -> close w = (Normal tt, w)).
Proof.
  intros Hr. apply reachable_Inv in Hr.
  destruct (inv_xhr w Hr) as (x & Hx & _ & Hli & _).
  split; [|split].
  - intros Hs. destruct (inv_init w Hr Hs) as (_ & Htm & Hsn & Hsc).
    assert (Hcl : closed (closing ConnectionEvent.ABORT w) = Some (clock w)).
    { fields. apply stamp_fresh. apply (not_CLOSED_unstamped w Hr).
      rewrite Hs. discriminate. }
    split; [now apply close_INIT|].
    split; [reflexivity|]. split; [exact Hcl|].
    split; [fields; now rewrite Htm|].
    intros acts.
    assert (HI : Inv (closing ConnectionEvent.ABORT w))
      by (apply Inv_closing; [assumption|discriminate|discriminate]).
    destruct (unopened_run acts (closing ConnectionEvent.ABORT w) x
                eq_refl Hx (Hli Hs)) as (A & B & C & D).
    assert (E : scheduled ConnectionEvent.ABORT
                  (trace (run acts (closing ConnectionEvent.ABORT w)))
                = 1%nat).
    { rewrite D. fields. rewrite scheduled_app, Hsc. reflexivity. }
    repeat split.
    + exact A.
    + rewrite B. exact Hcl.
    + rewrite C. fields. rewrite sends_app, Hsn. reflexivity.
    + exact E.
    + rewrite <- (inv_counts _ (Inv_run acts _ HI)). exact E.
  - intros Hs. split; [now apply (close_OPEN w x)|].
    repeat split. exact Hs.
  - apply close_CLOSED.
Qed.

(** ** Opening *)

Lemma run_open_again (hs : list Value) (w : World) :
  state w <> INIT -> run (map CallOpen hs) w = w.
Proof.
  intros Hs. induction hs as [|h rest IH]; [reflexivity|].
  cbn [map run fold_left].
  rewrite step_open, open_not_INIT by assumption. exact IH.
Qed.

Lemma typeof_object_not_nullish (v : Value) :
  typeof v = "object" -> v <> VNull -> not_nullish v = true.
Proof.
  destruct v; intros Ht Hn; try reflexivity; try discriminate Ht.
  now contradiction Hn.
Qed.

Lemma not_null_extra (v : Value) :
  v <> VNull ->
  String.eqb (typeof v) "object" && negb (not_nullish v) = false.
Proof.
  destruct v; intros Hn; try reflexivity. now contradiction Hn.
Qed.

(** [open()] in state INIT with headers that can be enumerated runs to its
    end. *)
Lemma open_INIT_sent (extraHeaders : Value) (w : World) (x : Xhr) :
  Inv w ->
  state w = INIT ->
  xhr w = Some x ->
  headers w <> VNull ->
  extraHeaders <> VNull ->
  open extraHeaders w
  = (Normal This,
     sent w x (header_effects (headers w) ++ extra_effects extraHeaders)).
Proof.
  intros HI Hs Hx Hh He. rewrite (open_INIT extraHeaders w x Hs Hx).
  rewrite (typeof_object_not_nullish _ (inv_headers w HI) Hh).
  cbn [negb]. now rewrite (not_null_extra _ He).
Qed.

Lemma sent_sends (w : World) (x : Xhr) (hs : list Effect) :
  Forall (fun e => is_header_call e = true) hs ->
  sends (trace (sent w x hs)) = S (sends (trace w)).
Proof.
  intros Hc. destruct (header_calls_count hs Hc) as (A & _).
  unfold sent, open_effects. cbv zeta. fields.
  rewrite !sends_app, A. cbn. lia.
Qed.

(** What [open()] keeps of idempotence.  [open()] does nothing unless the
    state is INIT.  On a connection in state INIT any number of calls, one
    at least, schedules exactly one OPEN event, leaves the state OPEN and
    sends at most once; it sends exactly once when neither the configured
    headers nor the headers given to the first call are [null]. *)
Theorem open_idempotent (w : World) :
  reachable w ->
  (state w <> INIT ->
     forall h : Value, open h w = (Normal Nothing, w))
  /\ (state w = INIT ->
      forall (h : Value) (more : list Value),
        state (run (map CallOpen (h :: more)) w) = OPEN
        /\ scheduled ConnectionEvent.OPEN
             (trace (run (map CallOpen (h :: more)) w)) = 1%nat
        /\ (sends (trace (run (map CallOpen (h :: more)) w)) <= 1)%nat
        /\ (headers w <> VNull -> h <> VNull ->
            sends (trace (run (map CallOpen (h :: more)) w)) = 1%nat)).
Proof.
  intros Hr. apply reachable_Inv in Hr.
  split; [intros Hs h; now apply open_not_INIT|].
  intros Hs h more.
  destruct (inv_xhr w Hr) as (x & Hx & _).
  destruct (inv_init w Hr Hs) as (Hon & _ & Hsn & _).
  assert (Hst : state (snd (open h w)) = OPEN).
  { destruct (open_INIT_world h w x Hs Hx) as [E|[E|E]];
      rewrite E; reflexivity. }
  assert (Hop : opened (snd (open h w)) = Some (clock w))
    by now apply (opened_after_open h w x).
  assert (E : run (map CallOpen (h :: more)) w = snd (open h w)).
  { cbn [map run fold_left]. rewrite step_open.
    apply run_open_again. rewrite Hst. discriminate. }
  rewrite E.
  pose proof (Inv_open h w Hr) as HI.
  pose proof (inv_open_once _ HI) as H1. rewrite Hop in H1.
  pose proof (inv_sends _ HI) as H2. rewrite H1 in H2.
  repeat split; try assumption.
  intros Hh He. rewrite (open_INIT_sent h w x Hr Hs Hx Hh He). cbn [snd].
  rewrite sent_sends, Hsn; [reflexivity|].
  apply Forall_app. split;
    [apply header_effects_calls | apply extra_effects_calls].
Qed.

(** ** The effects of one step *)

Lemma no_timer_split (l pre post : list Effect) (k : ConnectionEvent.kind) :
  no_timer l = true -> l <> (pre ++ SetTimeout k :: post)%list.
Proof.
  intros H ->. unfold no_timer in H. rewrite forallb_app in H.
  apply andb_true_iff in H. destruct H as [_ H]. discriminate H.
Qed.

Lemma split_at_timer (A B : list Effect) (k0 : ConnectionEvent.kind) :
  no_timer A = true ->
  no_timer B = true ->
  forall (pre post : list Effect) (k : ConnectionEvent.kind),
    (A ++ SetTimeout k0 :: B)%list = (pre ++ SetTimeout k :: post)%list ->
    pre = A /\ k = k0.
Proof.
  intros HA HB. induction A as [|a A IH]; intros pre post k E.
  - destruct pre as [|e pre].
    + cbn in E. injection E as -> _. now split.
    + cbn in E. injection E as _ E.
      now contradiction (no_timer_split B pre post k HB).
  - cbn in HA. apply andb_true_iff in HA. destruct HA as [Ha HA].
    destruct pre as [|e pre].
    + cbn in E. injection E as -> _. discriminate Ha.
    + cbn in E. injection E as <- E.
      destruct (IH HA pre post k E) as [-> ->]. now split.
Qed.

Lemma header_calls_no_timer (es : list Effect) :
  Forall (fun e => is_header_call e = true) es -> no_timer es = true.
Proof.
  unfold no_timer. induction 1 as [|e es He _ IH]; [reflexivity|].
  cbn. rewrite IH. destruct e; try discriminate He. reflexivity.
Qed.

(** The effects a step adds to the trace either schedule no timer, or
    schedule exactly one, after the writes of the transition it reports;
    and only a timer turn emits. *)
Lemma step_effects (a : Action) (w : World) :
  Inv w ->
  exists ext,
    trace (step a w) = (trace w ++ ext)%list
    /\ (a <> TimerTurn -> emissions ext = [])
    /\ (no_timer ext = true
        \/ exists A k B,
             ext = (A ++ SetTimeout k :: B)%list
             /\ no_timer A = true /\ no_timer B = true
             /\ written_before k (clock w) A).
Proof.
  intros HI. pose proof (inv_xhr w HI) as (x & Hx & Hl & Hli & Hlo & Hlw).
  assert (Hnone : exists ext,
             trace w = (trace w ++ ext)%list
             /\ (a <> TimerTurn -> emissions ext = [])
             /\ (no_timer ext = true
                 \/ exists A k B,
                      ext = (A ++ SetTimeout k :: B)%list
                      /\ no_timer A = true /\ no_timer B = true
                      /\ written_before k (clock w) A)).
  { exists []. rewrite app_nil_r. repeat split. now left. }
  assert (Hclosing : forall k,
             k <> ConnectionEvent.OPEN -> k <> ConnectionEvent.DATA ->
             exists ext,
               trace (closing k w) = (trace w ++ ext)%list
               /\ (a <> TimerTurn -> emissions ext = [])
               /\ (no_timer ext = true
                   \/ exists A k' B,
                        ext = (A ++ SetTimeout k' :: B)%list
                        /\ no_timer A = true /\ no_timer B = true
                        /\ written_before k' (clock w) A)).
  { intros k K1 K2.
    exists [SetState CLOSED; SetClosed (clock w); SetTimeout k].
    split; [reflexivity|]. split; [reflexivity|]. right.
    exists [SetState CLOSED; SetClosed (clock w)], k, [].
    repeat split; destruct k; try contradiction; cbn; auto. }
  destruct a as [h| |name|st r| |dt].
  - rewrite step_open. destruct (state w) eqn:Hst.
    2,3: rewrite open_not_INIT by (rewrite Hst; discriminate); exact Hnone.
    assert (Hopen : forall es,
               Forall (fun e => is_header_call e = true) es ->
               forall B,
                 no_timer B = true -> emissions B = [] ->
                 exists ext,
                   (trace w ++ open_effects w ++ es ++ B)%list
                   = (trace w ++ ext)%list
                   /\ (CallOpen h <> TimerTurn -> emissions ext = [])
                   /\ (no_timer ext = true
                       \/ exists A k B',
                            ext = (A ++ SetTimeout k :: B')%list
                            /\ no_timer A = true /\ no_timer B' = true
                            /\ written_before k (clock w) A)).
    { intros es Hes B HB HeB. exists (open_effects w ++ es ++ B)%list.
      split; [reflexivity|]. split.
      - intros _. rewrite !emissions_app, HeB.
        destruct (header_calls_count es Hes) as (_ & -> & _). reflexivity.
      - right.
        exists (wiring_effects
                ++ [XhrOpen (method w) (url w); XhrSetTimeout (timeout w);
                    SetState OPEN; SetOpened (clock w)])%list,
          ConnectionEvent.OPEN, (es ++ B)%list.
        split; [unfold open_effects; now rewrite <- !app_assoc|].
        split; [reflexivity|]. split.
        + unfold no_timer. rewrite forallb_app.
          apply andb_true_iff. split; [|exact HB].
          now apply header_calls_no_timer.
        + cbn. split; repeat (first [left; reflexivity | right]). }
    destruct (open_INIT_world h w x Hst Hx) as [E|[E|E]]; rewrite E.
    + destruct (Hopen [] (Forall_nil _) [] eq_refl eq_refl)
        as (ext & A & B). exists ext. split; [|exact B].
      rewrite <- A. unfold opening. fields. now rewrite !app_nil_r.
    + destruct (Hopen _ (header_effects_calls (headers w)) [] eq_refl
                  eq_refl) as (ext & A & B).
      exists ext. split; [|exact B].
      rewrite <- A. unfold opening. fields. now rewrite !app_nil_r.
    + assert (Hc : Forall (fun e => is_header_call e = true)
                     (header_effects (headers w) ++ extra_effects h))
        by (apply Forall_app; split;
            [apply header_effects_calls | apply extra_effects_calls]).
      destruct (Hopen _ Hc
                  [XhrSetResponseType (responseType w); XhrSend (body w)]
                  eq_refl eq_refl) as (ext & A & B).
      exists ext. split; [|exact B].
      rewrite <- A. unfold sent. cbv zeta. fields. reflexivity.
  - unfold step, perform. destruct (state w) eqn:Hst.
    + rewrite close_INIT by assumption. cbn [snd].
      apply Hclosing; discriminate.
    + rewrite (close_OPEN w x) by assumption. cbn [snd].
      exists [XhrAbort]. repeat split. now left.
    + rewrite close_CLOSED by assumption. exact Hnone.
  - unfold step, perform. destruct Hl as [Hl|Hl].
    + rewrite (dispatch_unwired name w x Hx Hl). exact Hnone.
    + rewrite (dispatch_wired name w x Hx Hl). cbn [snd].
      destruct (handler_of name) as [h|]; [|exact Hnone].
      destruct h; cbn [closing_kind];
        try (apply Hclosing; discriminate).
      * exists [SetTimeout ConnectionEvent.DATA].
        split; [reflexivity|]. split; [reflexivity|]. right.
        exists [], ConnectionEvent.DATA, []. now repeat split.
      * apply Hclosing; destruct (x_status x <? 400); discriminate.
  - unfold step, perform, receive. rewrite Hx. exact Hnone.
  - unfold step, perform. rewrite timer_turn_spec. cbn [snd].
    destruct (timers w) as [|k rest]; [exact Hnone|].
    exists [Emit k]. split; [reflexivity|].
    split; [intros A; now contradiction A|now left].
  - exact Hnone.
Qed.

(** What a closing listener does, effect by effect. *)
Lemma closing_signal (name : string) (h : Handler) (k : ConnectionEvent.kind)
  (w : World) (x : Xhr) :
  xhr w = Some x ->
  x_listeners x = wired ->
  closed w = None ->
  handler_of name = Some h ->
  closing_kind h (x_status x) = Some k ->
  trace (step (Signal name) w)
  = (trace w ++ [SetState CLOSED; SetClosed (clock w); SetTimeout k])%list
  /\ state (step (Signal name) w) = CLOSED
  /\ closed (step (Signal name) w) = Some (clock w)
  /\ opened (step (Signal name) w) = opened w
  /\ timers (step (Signal name) w) = (timers w ++ [k])%list.
Proof.
  intros Hx Hw Hc Hh Hk. unfold step, perform.
  rewrite (dispatch_wired name w x Hx Hw), Hh, Hk. cbn [snd].
  unfold closing. fields. rewrite Hc. now repeat split.
Qed.

(** C6.  Every transition mutates first and defers its event.  On a
    connection in state OPEN each of the load, abort, error and timeout
    callbacks writes the state CLOSED and the close timestamp and only then
    schedules, by a timer, the one event it reports (COMPLETE or ERROR by
    the status for load, ABORT, ERROR, ERROR); the progress callback only
    schedules a DATA event.  [close()] in state INIT writes CLOSED and the
    close timestamp and then schedules ABORT; [open()] in state INIT writes
    OPEN and the open timestamp and then schedules OPEN.  In every case the
    connection shows the transition when the step returns, the timer is
    pending, and nothing has been emitted.  In general no call of [open()]
    or [close()] and no transport signal emits an event, only a timer turn
    does; within the effects of any one step whatever schedules an event
    comes after the writes of the transition that event reports; and when a
    timer fires and its event reaches the listeners, state, opened and
    closed already show the transition. *)
Theorem emission_deferred_after_mutation (w : World) (a : Action) :
  reachable w ->
  (a <> TimerTurn -> emissions (trace (step a w)) = emissions (trace w))
  /\ (exists ext,
        trace (step a w) = (trace w ++ ext)%list
        /\ forall pre k post,
             ext = (pre ++ SetTimeout k :: post)%list ->
             written_before k (clock w) pre)
  /\ (forall k rest,
        timers w = k :: rest ->
        step TimerTurn w = logged [Emit k] (set_timers rest w)
        /\ settled w k)
  /\ (forall k,
        scheduled k (trace w)
        = (emitted k (trace w) + pending k (timers w))%nat)
  /\ (state w = OPEN ->
      forall st, status w = (Normal st, w) ->
      forall name k,
        In (name, k)
          [("load", if st <? 400 then ConnectionEvent.COMPLETE
                    else ConnectionEvent.ERROR);
           ("abort", ConnectionEvent.ABORT);
           ("error", ConnectionEvent.ERROR);
           ("timeout", ConnectionEvent.ERROR)] ->
        trace (step (Signal name) w)
        = (trace w
           ++ [SetState CLOSED; SetClosed (clock w); SetTimeout k])%list
        /\ state (step (Signal name) w) = CLOSED
        /\ closed (step (Signal name) w) = Some (clock w)
        /\ opened (step (Signal name) w) = opened w
        /\ timers (step (Signal name) w) = (timers w ++ [k])%list)
  /\ (state w = OPEN ->
      trace (step (Signal "progress") w)
      = (trace w ++ [SetTimeout ConnectionEvent.DATA])%list
      /\ state (step (Signal "progress") w) = OPEN
      /\ closed (step (Signal "progress") w) = closed w
      /\ opened (step (Signal "progress") w) = opened w
      /\ timers (step (Signal "progress") w)
         = (timers w ++ [ConnectionEvent.DATA])%list)
  /\ (state w = INIT ->
      trace (step CallClose w)
      = (trace w
         ++ [SetState CLOSED; SetClosed (clock w);
             SetTimeout ConnectionEvent.ABORT])%list
      /\ state (step CallClose w) = CLOSED
      /\ closed (step CallClose w) = Some (clock w)
      /\ opened (step CallClose w) = None
      /\ timers (step CallClose w) = [ConnectionEvent.ABORT])
  /\ (state w = INIT ->
      forall h,
        (exists pre post,
           trace (step (CallOpen h) w)
           = (trace w ++ pre
              ++ [SetState OPEN; SetOpened (clock w);
                  SetTimeout ConnectionEvent.OPEN]
              ++ post)%list
           /\ no_timer pre = true /\ no_timer post = true)
        /\ state (step (CallOpen h) w) = OPEN
        /\ opened (step (CallOpen h) w) = Some (clock w)
        /\ closed (step (CallOpen h) w) = None
        /\ timers (step (CallOpen h) w) = [ConnectionEvent.OPEN]).
Proof.
  intros Hr. apply reachable_Inv in Hr.
  destruct (step_effects a w Hr) as (ext & Ht & He & Ho).
  destruct (inv_xhr w Hr) as (x & Hx & _ & Hli & Hlo & _).
  split; [|split; [|split; [|split; [|split; [|split; [|split]]]]]].
  - intros Ha. rewrite Ht, emissions_app, (He Ha). apply app_nil_r.
  - exists ext. split; [exact Ht|].
    intros pre k post E.
    destruct Ho as [Hn|(A & k0 & B & -> & HA & HB & Hw)].
    + now contradiction (no_timer_split ext pre post k Hn).
    + destruct (split_at_timer A B k0 HA HB pre post k E) as [-> ->].
      exact Hw.
  - intros k rest Htm. split; [now apply step_timer|].
    pose proof (inv_timers w Hr) as F. rewrite Htm in F.
    now inversion F.
  - apply (inv_counts w Hr).
  - intros Hs st Hst name k Hin.
    assert (Hc : closed w = None)
      by (apply (not_CLOSED_unstamped w Hr); rewrite Hs; discriminate).
    unfold status, bind, this_xhr, ret in Hst. rewrite Hx in Hst.
    injection Hst as <-. pose proof (Hlo Hs) as Hw.
    destruct Hin as [E|[E|[E|[E|[]]]]]; injection E as <- <-.
    + now apply (closing_signal "load" on_load _ w x).
    + now apply (closing_signal "abort" on_abort _ w x).
    + now apply (closing_signal "error" on_error _ w x).
    + now apply (closing_signal "timeout" on_timeout _ w x).
  - intros Hs. unfold step, perform.
    rewrite (dispatch_wired "progress" w x Hx (Hlo Hs)). cbn [snd].
    cbn [handler_of String.eqb Ascii.eqb Bool.eqb closing_kind].
    unfold scheduling. fields. now repeat split.
  - intros Hs. destruct (inv_init w Hr Hs) as (Hon & Htm & _).
    assert (Hc : closed w = None)
      by (apply (not_CLOSED_unstamped w Hr); rewrite Hs; discriminate).
    unfold step, perform. rewrite close_INIT by assumption. cbn [snd].
    unfold closing. fields. rewrite Hc, Htm. now repeat split.
  - intros Hs h. destruct (inv_init w Hr Hs) as (Hon & Htm & _).
    assert (Hc : closed w = None)
      by (apply (not_CLOSED_unstamped w Hr); rewrite Hs; discriminate).
    rewrite step_open.
    assert (Hgen : forall es,
              no_timer es = true ->
              (exists pre post,
                 (trace w ++ open_effects w ++ es)%list
                 = (trace w ++ pre
                    ++ [SetState OPEN; SetOpened (clock w);
                        SetTimeout ConnectionEvent.OPEN]
                    ++ post)%list
                 /\ no_timer pre = true /\ no_timer post = true)).
    { intros es Hes.
      exists (wiring_effects
              ++ [XhrOpen (method w) (url w); XhrSetTimeout (timeout w)])%list,
        es.
      split; [unfold open_effects; now rewrite <- !app_assoc|].
      split; [reflexivity|exact Hes]. }
    destruct (open_INIT_world h w x Hs Hx) as [E|[E|E]]; rewrite E.
    + split; [apply (Hgen [] eq_refl)|].
      unfold opening. fields. rewrite Hc, Htm. now repeat split.
    + split; [apply Hgen, header_calls_no_timer, header_effects_calls|].
      unfold opening. fields. rewrite Hc, Htm. now repeat split.
    + split.
      * unfold sent. cbv zeta. fields. apply Hgen.
        unfold no_timer. rewrite forallb_app. apply andb_true_iff.
        split; [|reflexivity].
        apply header_calls_no_timer, Forall_app. split;
          [apply header_effects_calls | apply extra_effects_calls].
      * unfold sent. cbv zeta. fields. rewrite Hc, Htm.
        now repeat split.
Qed.

(** ** Header calls of a plain object *)

Lemma flat_map_ext_in {A B : Type} (f g : A -> list B) (l : list A) :
  (forall a, In a l -> f a = g a) -> flat_map f l = flat_map g l.
Proof.
  induction l as [|a l IH]; intros H; [reflexivity|].
  cbn. rewrite (H a) by now left.
  rewrite IH; [reflexivity|]. intros b Hb. apply H. now right.
Qed.

Lemma index_keys_none (keys : list string) :
  Forall (fun key => array_index key = None) keys ->
  index_keys keys = [] /\ name_keys keys = keys.
Proof.
  intros H. unfold index_keys, name_keys. split.
  - assert (G : forall acc,
              fold_left
                (fun acc key =>
                   match array_index key with
                   | Some n => insert_index n key acc
                   | None => acc
                   end) keys acc = acc).
    { induction H as [|key keys Hk _ IH]; intros acc; [reflexivity|].
      cbn [fold_left]. now rewrite Hk, IH. }
    now rewrite G.
  - induction H as [|key keys Hk _ IH]; [reflexivity|].
    cbn [filter]. now rewrite Hk, IH.
Qed.

(** For an object with distinct keys none of which is an array index, the
    header calls are its entries in insertion order, without those whose
    value is [undefined] or [null]. *)
Lemma header_effects_object (props : list (string * Value)) :
  NoDup (map fst props) ->
  Forall (fun key => array_index key = None) (map fst props) ->
  header_effects (VObject props)
  = map (fun p => XhrSetRequestHeader (fst p) (snd p))
      (filter (fun p => not_nullish (snd p)) props).
Proof.
  intros Hnd Hix. unfold header_effects. cbn [own_keys get].
  destruct (index_keys_none _ Hix) as (-> & ->). cbn [app]. clear Hix.
  induction props as [|[k v] rest IH]; [reflexivity|].
  cbn [map fst] in Hnd. inversion Hnd as [|? ? Hk Hrest]; subst.
  cbn [map fst flat_map lookup filter snd]. rewrite String.eqb_refl.
  assert (E : flat_map
                (fun key =>
                   if not_nullish (lookup key ((k, v) :: rest))
                   then [XhrSetRequestHeader key
                           (lookup key ((k, v) :: rest))]
                   else []) (map fst rest)
              = flat_map
                  (fun key =>
                     if not_nullish (lookup key rest)
                     then [XhrSetRequestHeader key (lookup key rest)]
                     else []) (map fst rest)).
  { apply flat_map_ext_in. intros key Hin. cbn [lookup].
    destruct (String.eqb k key) eqn:Ek; [|reflexivity].
    apply String.eqb_eq in Ek. subst key. contradiction. }
  cbn [lookup] in E. rewrite E, (IH Hrest).
  destruct (not_nullish v); reflexivity.
Qed.

(** A call of [open()] that runs to its end.  When [open(extraHeaders)]
    runs in state INIT on a connection whose configured headers are not
    [null], with an argument that is not [null], it returns the connection
    itself and has done, in this order: registered the five listeners,
    opened the request with the configured method and address, set the
    timeout, moved the state to OPEN, stamped the open time, scheduled the
    OPEN event, set the configured headers, then the headers of the
    argument when it has type ["object"], each time in the order of
    [Object.keys] and without the entries whose value is [undefined] or
    [null], set the response type, and sent the body. *)
Theorem open_in_INIT (w : World) (extraHeaders : Value) :
  reachable w ->
  state w = INIT ->
  headers w <> VNull ->
  extraHeaders <> VNull ->
  fst (open extraHeaders w) = Normal This
  /\ state (snd (open extraHeaders w)) = OPEN
  /\ opened (snd (open extraHeaders w)) = Some (clock w)
  /\ trace (snd (open extraHeaders w))
     = (trace w
        ++ wiring_effects
        ++ [XhrOpen (method w) (url w); XhrSetTimeout (timeout w);
            SetState OPEN; SetOpened (clock w);
            SetTimeout ConnectionEvent.OPEN]
        ++ header_effects (headers w)
        ++ (if String.eqb (typeof extraHeaders) "object"
            then header_effects extraHeaders else [])
        ++ [XhrSetResponseType (responseType w); XhrSend (body w)])%list
  /\ (forall props,
        NoDup (map fst props) ->
        Forall (fun key => array_index key = None) (map fst props) ->
        header_effects (VObject props)
        = map (fun p => XhrSetRequestHeader (fst p) (snd p))
            (filter (fun p => not_nullish (snd p)) props)).
Proof.
  intros Hr Hs Hh He. apply reachable_Inv in Hr.
  destruct (inv_xhr w Hr) as (x & Hx & _).
  destruct (inv_init w Hr Hs) as (Hon & _).
  pose proof (opened_after_open extraHeaders w x Hs Hx Hon) as Ho.
  rewrite (open_INIT_sent extraHeaders w x Hr Hs Hx Hh He) in *.
  cbn [fst snd] in *.
  split; [reflexivity|]. split; [reflexivity|]. split; [exact Ho|].
  split.
  - unfold sent, open_effects, extra_effects. cbv zeta. fields.
    now rewrite <- !app_assoc.
  - apply header_effects_object.
Qed.

(** ** The response accessor *)

Lemma strict_eq_string_iff (v : Value) (s : string) :
  strict_eq_string v s = true <-> v = VString s.
Proof.
  destruct v; cbn; try (split; intros H; discriminate H).
  rewrite String.eqb_eq. split; [now intros -> | now intros [= ->]].
Qed.

(** C8 (as amended).  The response accessor of a connection configured
    with response type ["json"] returns what [JSON.parse] makes of the
    transport's response (or throws its [SyntaxError]) when the transport's
    own response type is the empty string and its response is truthy, that
    is, a non-empty raw text; in every other case - a transport response
    type other than the empty string, an empty or absent response, or a
    connection not configured for ["json"] - it returns the transport's
    response as it is. *)
Theorem response_accessor (w : World) (x : Xhr) :
  xhr w = Some x ->
  (responseType w = VString "json" ->
   x_responseType x = VString "" ->
   truthy (x_response x) = true ->
   response w
   = (match JSON_parse (x_response x) with
      | Some v => Normal v
      | None => Throw SyntaxError
      end, w))
  /\ (responseType w <> VString "json"
      \/ x_responseType x <> VString ""
      \/ truthy (x_response x) = false ->
      response w = (Normal (x_response x), w)).
Proof.
  intros Hx. unfold response, bind, gets, this_xhr. rewrite Hx. split.
  - intros Hj Hn Ht. rewrite Hj, Hn, Ht. cbn.
    destruct (JSON_parse (x_response x)); reflexivity.
  - intros H.
    destruct (strict_eq_string (responseType w) "json") eqn:Ej;
      [|reflexivity].
    destruct (truthy (x_response x)) eqn:Et; [|reflexivity].
    destruct (strict_eq_string (x_responseType x) "") eqn:En;
      [|reflexivity].
    apply strict_eq_string_iff in Ej, En.
    destruct H as [H|[H|H]]; [contradiction|contradiction|discriminate H].
Qed.

(** ** Timestamps *)

Lemma step_opened (a : Action) (w : World) :
  Inv w ->
  opened (step a w) = opened w
  \/ (opened w = None /\ state w = INIT /\ state (step a w) = OPEN
      /\ opened (step a w) = Some (clock w)).
Proof.
  intros HI. pose proof (inv_xhr w HI) as (x & Hx & Hl & Hli & Hlo & Hlw).
  destruct a as [h| |name|st r| |dt].
  - rewrite step_open. destruct (state w) eqn:Hst.
    + right. destruct (inv_init w HI Hst) as (Hop & _).
      split; [exact Hop|]. split; [reflexivity|].
      split; [|now apply (opened_after_open h w x)].
      destruct (open_INIT_world h w x Hst Hx) as [E|[E|E]];
        rewrite E; reflexivity.
    + left. now rewrite open_not_INIT by (rewrite Hst; discriminate).
    + left. now rewrite open_not_INIT by (rewrite Hst; discriminate).
  - left. unfold step, perform. destruct (state w) eqn:Hst.
    + now rewrite close_INIT by assumption.
    + now rewrite (close_OPEN w x) by assumption.
    + now rewrite close_CLOSED by assumption.
  - left. unfold step, perform. destruct Hl as [Hl|Hl].
    + now rewrite (dispatch_unwired name w x Hx Hl).
    + rewrite (dispatch_wired name w x Hx Hl). cbn [snd].
      destruct (handler_of name) as [h|]; [|reflexivity].
      destruct (closing_kind h (x_status x)); reflexivity.
  - left. unfold step, perform, receive. now rewrite Hx.
  - left. unfold step, perform. rewrite timer_turn_spec.
    destruct (timers w); reflexivity.
  - now left.
Qed.

Lemma closing_closed (k : ConnectionEvent.kind) (w : World) :
  (forall c, closed w = Some c -> closed (closing k w) = Some c)
  /\ (closed w = None -> closed (closing k w) = Some (clock w)).
Proof.
  unfold closing. fields. split; [intros c ->|intros ->]; reflexivity.
Qed.

Lemma step_closed (a : Action) (w : World) :
  Inv w ->
  (forall c, closed w = Some c -> closed (step a w) = Some c)
  /\ (closed w = None ->
      closed (step a w) = None
      \/ (state w <> CLOSED /\ state (step a w) = CLOSED
          /\ closed (step a w) = Some (clock w)
          /\ (a = CallClose \/ exists name, a = Signal name))).
Proof.
  intros HI. pose proof (inv_xhr w HI) as (x & Hx & Hl & Hli & Hlo & Hlw).
  assert (Hsame : closed (step a w) = closed w ->
            (forall c, closed w = Some c -> closed (step a w) = Some c)
            /\ (closed w = None ->
                closed (step a w) = None
                \/ (state w <> CLOSED /\ state (step a w) = CLOSED
                    /\ closed (step a w) = Some (clock w)
                    /\ (a = CallClose \/ exists name, a = Signal name)))).
  { intros E. rewrite E. split; [tauto|]. intros Hn. now left. }
  assert (Hclosing : forall k,
            step a w = closing k w ->
            (a = CallClose \/ exists name, a = Signal name) ->
            (forall c, closed w = Some c -> closed (step a w) = Some c)
            /\ (closed w = None ->
                closed (step a w) = None
                \/ (state w <> CLOSED /\ state (step a w) = CLOSED
                    /\ closed (step a w) = Some (clock w)
                    /\ (a = CallClose \/ exists name, a = Signal name)))).
  { intros k E Ha. rewrite E.
    destruct (closing_closed k w) as (A & B). split; [exact A|].
    intros Hn. right. split.
    - intros Hs. apply (inv_closed w HI) in Hs. contradiction.
    - split; [reflexivity|]. split; [exact (B Hn)|exact Ha]. }
  destruct a as [h| |name|st r| |dt].
  - apply Hsame. rewrite step_open. destruct (state w) eqn:Hst.
    + destruct (open_INIT_world h w x Hst Hx) as [E|[E|E]];
        rewrite E; reflexivity.
    + now rewrite open_not_INIT by (rewrite Hst; discriminate).
    + now rewrite open_not_INIT by (rewrite Hst; discriminate).
  - destruct (state w) eqn:Hst.
    + apply (Hclosing ConnectionEvent.ABORT); [|now left].
      unfold step, perform. now rewrite close_INIT by assumption.
    + apply Hsame. unfold step, perform.
      now rewrite (close_OPEN w x) by assumption.
    + apply Hsame. unfold step, perform.
      now rewrite close_CLOSED by assumption.
  - destruct Hl as [Hl|Hl].
    + apply Hsame. unfold step, perform.
      now rewrite (dispatch_unwired name w x Hx Hl).
    + assert (E : step (Signal name) w
                  = match handler_of name with
                    | None => w
                    | Some h =>
                        match closing_kind h (x_status x) with
                        | Some k => closing k w
                        | None => scheduling ConnectionEvent.DATA w
                        end
                    end)
        by (unfold step, perform;
            now rewrite (dispatch_wired name w x Hx Hl)).
      destruct (handler_of name) as [h|];
        [|apply Hsame; now rewrite E].
      destruct (closing_kind h (x_status x)) as [k|];
        [|apply Hsame; now rewrite E].
      apply (Hclosing k E). right. now exists name.
  - apply Hsame. unfold step, perform, receive. now rewrite Hx.
  - apply Hsame. unfold step, perform. rewrite timer_turn_spec.
    destruct (timers w); reflexivity.
  - now apply Hsame.
Qed.

(** C9.  With the close timestamp of [AbstractConnection] as the spec
    describes it, the open and the close timestamp are each set exactly
    once, at the moment of the corresponding transition.  A timestamp that is set
    is changed by no action.  The open timestamp becomes set only by the
    [open()] that moves the state from INIT to OPEN, the close timestamp
    only by the action that moves the state to CLOSED, each with the time
    of that action; and every change of state stamps its timestamp.  When a
    further load, abort, error or timeout signal reaches an opened
    connection that is already CLOSED, the state and the close timestamp
    stay as they are, and the event of the signal is still scheduled. *)
Theorem timestamps_lifecycle (w : World) (a : Action) :
  reachable w ->
  (forall t, opened w = Some t -> opened (step a w) = Some t)
  /\ (opened w = None ->
      opened (step a w) = None
      \/ (state w = INIT /\ state (step a w) = OPEN
          /\ opened (step a w) = Some (clock w)))
  /\ (forall c, closed w = Some c -> closed (step a w) = Some c)
  /\ (closed w = None ->
      closed (step a w) = None
      \/ (state w <> CLOSED /\ state (step a w) = CLOSED
          /\ closed (step a w) = Some (clock w)))
  /\ (state (step a w) <> state w ->
      (state (step a w) = OPEN /\ opened w = None
       /\ opened (step a w) = Some (clock w))
      \/ (state (step a w) = CLOSED /\ closed w = None
          /\ closed (step a w) = Some (clock w)))
  /\ (state w = CLOSED -> opened w <> None ->
      forall name,
        In name ["load"; "abort"; "error"; "timeout"] ->
        state (step (Signal name) w) = CLOSED
        /\ closed (step (Signal name) w) = closed w
        /\ exists k,
             timers (step (Signal name) w) = (timers w ++ [k])%list
             /\ k <> ConnectionEvent.OPEN /\ k <> ConnectionEvent.DATA).
Proof.
  intros Hr. apply reachable_Inv in Hr.
  pose proof (Inv_step a w Hr) as Hr'.
  destruct (step_closed a w Hr) as (Ckeep & Cset).
  split; [|split; [|split; [|split; [|split]]]].
  - intros t Ht. destruct (step_opened a w Hr) as [E|(E & _)]; congruence.
  - intros Hn. destruct (step_opened a w Hr) as [E|(_ & A & B & C)].
    + left. congruence.
    + right. now repeat split.
  - exact Ckeep.
  - intros Hn. destruct (Cset Hn) as [E|(A & B & C & _)];
      [now left|right; now repeat split].
  - intros Hne. pose proof (step_forward a w Hr) as F.
    destruct (state (step a w)) eqn:Hs'.
    + exfalso.
      destruct F as [F|[[F G]|[[F G]|[F G]]]];
        try discriminate G; congruence.
    + left. split; [reflexivity|].
      destruct (inv_xhr _ Hr') as (x' & _ & _ & _ & Hlo' & Hlw').
      specialize (Hlw' (Hlo' Hs')).
      destruct (step_opened a w Hr) as [E|(A & _ & _ & C)];
        [|now split].
      exfalso. rewrite E in Hlw'.
      assert (Hni : state w <> INIT) by (apply (inv_opened w Hr); exact Hlw').
      destruct F as [F|[[F G]|[[F G]|[F G]]]];
        try discriminate G; congruence.
    + right. split; [reflexivity|].
      assert (Hn : closed w = None)
        by (apply (not_CLOSED_unstamped w Hr); intros E; apply Hne;
            now rewrite E).
      split; [exact Hn|].
      destruct (Cset Hn) as [E|(_ & _ & C & _)]; [|exact C].
      exfalso. apply (inv_closed _ Hr') in Hs'. contradiction.
  - intros Hs Ho name Hin.
    destruct (inv_wired w Hr Ho) as (x & Hx & Hw).
    destruct (closed w) as [c|] eqn:Hc.
    2:{ exfalso. apply (inv_closed w Hr) in Hs. contradiction. }
    unfold step, perform. rewrite (dispatch_wired name w x Hx Hw).
    cbn [snd].
    assert (Hk : exists h k,
               handler_of name = Some h
               /\ closing_kind h (x_status x) = Some k
               /\ k <> ConnectionEvent.OPEN /\ k <> ConnectionEvent.DATA).
    { destruct Hin as [<-|[<-|[<-|[<-|[]]]]].
      - exists on_load. eexists. split; [reflexivity|].
        split; [reflexivity|]. destruct (x_status x <? 400);
          split; discriminate.
      - exists on_abort. eexists. repeat split; discriminate.
      - exists on_error. eexists. repeat split; discriminate.
      - exists on_timeout. eexists. repeat split; discriminate. }
    destruct Hk as (h & k & -> & -> & K1 & K2).
    split; [reflexivity|].
    split; [exact (proj1 (closing_closed k w) c Hc)|].
    exists k. now repeat split.
Qed.

(** ** Null headers *)

Lemma open_null_headers (h : Value) (w : World) (x : Xhr) :
  state w = INIT ->
  xhr w = Some x ->
  headers w = VNull ->
  open h w = (Throw null_keys, opening w x []).
Proof.
  intros Hs Hx Hh. rewrite (open_INIT h w x Hs Hx), Hh. reflexivity.
Qed.

Lemma first_invalid_reason (items : list Value) (r : Invalid) (ty : string) :
  first_invalid items = Some r -> r <> InvalidHeaders ty.
Proof.
  induction items as [|o rest IH]; cbn; [discriminate|].
  destruct (listener_error o) as [r'|] eqn:E; [|exact IH].
  intros [= <-]. unfold listener_error in E.
  destruct (negb (truthy o) || negb (String.eqb (typeof o) "object"));
    [injection E as <-; discriminate|].
  destruct (negb (ConnectionEvent_includes (get o "type")));
    [injection E as <-; discriminate|].
  destruct (negb (String.eqb (typeof (get o "callback")) "function"));
    [injection E as <-; discriminate|discriminate E].
Qed.

(** C10.  A [headers] option of [null] passes the constructor's headers
    check, since [typeof null] is ["object"]: the constructor never throws
    its invalid-headers error for it.  When the other options are valid
    the connection is constructed with [null] as its headers, and every
    later [open()] moves it to OPEN and then throws the [TypeError] of
    enumerating [null], before any header is set or anything is sent; when
    the [open] option asks for it, that failing [open()] runs inside the
    constructor. *)
Theorem null_headers_pass_construction (t : Z) (u options : Value) :
  get options "headers" = VNull ->
  typeof (option_headers options) = "object"
  /\ (forall ty,
        fst (new_XHRConnection t u options)
        <> Throw (Error (InvalidHeaders ty)))
  /\ (includes ALLOWED_METHODS (option_method options) = true ->
      includes ALLOWED_RESPONSE_TYPES (option_responseType options) = true ->
      nonneg_safe_integer (option_timeout options) ->
      valid_listeners (option_listeners options) ->
      (truthy (get options "open") = false ->
       exists w0,
         new_XHRConnection t u options = (Normal tt, w0)
         /\ headers w0 = VNull
         /\ state w0 = INIT
         /\ forall h,
              fst (open h w0) = Throw null_keys
              /\ state (snd (open h w0)) = OPEN
              /\ sends (trace (snd (open h w0))) = 0%nat
              /\ scheduled ConnectionEvent.OPEN (trace (snd (open h w0)))
                 = 1%nat)
      /\ (truthy (get options "open") = true ->
          fst (new_XHRConnection t u options) = Throw null_keys)).
Proof.
  intros Hh.
  assert (Hnn : options <> VNull) by (intros ->; cbn in Hh; discriminate Hh).
  assert (Hoh : option_headers options = VNull)
    by (unfold option_headers, get_default; now rewrite Hh).
  rewrite (constructor_run t u options Hnn).
  split; [now rewrite Hoh|]. split.
  - intros ty. unfold construction. rewrite Hoh.
    cbn [typeof String.eqb Ascii.eqb Bool.eqb negb].
    destruct (negb (includes ALLOWED_METHODS (option_method options)));
      [discriminate|].
    destruct (negb (includes ALLOWED_RESPONSE_TYPES
                      (option_responseType options))); [discriminate|].
    destruct (negb (Number_isSafeInteger (option_timeout options))
              || lt_zero (option_timeout options)); [discriminate|].
    destruct (option_listeners options) as [| | | | | |items|];
      try discriminate.
    destruct (first_invalid items) as [r|] eqn:Hfi.
    { cbn [fst]. intros [= A]. now apply (first_invalid_reason items r ty). }
    destruct (truthy (get options "open")); [|discriminate].
    rewrite (open_null_headers VUndefined (configured t u options items)
               fresh_xhr eq_refl eq_refl Hoh).
    discriminate.
  - intros Hm Hr Ht (items & Hl & Hv).
    apply timeout_check in Ht. apply listeners_check in Hv.
    unfold construction.
    rewrite Hm, Hr, Ht, Hl, Hv, Hoh.
    cbn [typeof String.eqb Ascii.eqb Bool.eqb negb].
    split; intros Ho; rewrite Ho.
    + exists (configured t u options items).
      split; [reflexivity|]. split; [exact Hoh|]. split; [reflexivity|].
      intros h.
      rewrite (open_null_headers h (configured t u options items) fresh_xhr
                 eq_refl eq_refl Hoh).
      cbn [fst snd]. split; [reflexivity|]. split; [reflexivity|].
      destruct (registration_effects_count items) as (A & B).
      destruct (B ConnectionEvent.OPEN) as [B1 _].
      unfold opening, open_effects, configured. fields.
      rewrite !sends_app, !scheduled_app, A, B1. split; reflexivity.
    + rewrite (open_null_headers VUndefined (configured t u options items)
                 fresh_xhr eq_refl eq_refl Hoh). reflexivity.
Qed.

(** * Further properties *)

(** ** One step, case by case *)

(** Every step of a reachable connection is of one of six kinds: it leaves
    lifecycle, timers, trace, configuration and handle settings alone; it
    asks the transport to abort; it closes; it schedules a DATA event; it
    fires a timer; or it is the [open()] that leaves INIT. *)
Lemma step_cases (a : Action) (w : World) :
  Inv w ->
  (trace (step a w) = trace w /\ timers (step a w) = timers w
   /\ state (step a w) = state w /\ opened (step a w) = opened w
   /\ closed (step a w) = closed w
   /\ configuration (step a w) = configuration w
   /\ option_map handle_settings (xhr (step a w))
      = option_map handle_settings (xhr w)
   /\ (clock (step a w) = clock w
       \/ exists dt, a = Tick dt /\ clock (step a w) = clock w + dt))
  \/ (a = CallClose /\ state w = OPEN /\ step a w = logged [XhrAbort] w)
  \/ (exists k,
        k <> ConnectionEvent.OPEN /\ k <> ConnectionEvent.DATA
        /\ step a w = closing k w
        /\ ((a = CallClose /\ state w = INIT /\ k = ConnectionEvent.ABORT)
            \/ ((exists name, a = Signal name) /\ opened w <> None)))
  \/ ((exists name, a = Signal name) /\ opened w <> None
      /\ step a w = scheduling ConnectionEvent.DATA w)
  \/ (exists k rest,
        a = TimerTurn /\ timers w = k :: rest
        /\ step a w = logged [Emit k] (set_timers rest w))
  \/ (exists h x x' es,
        a = CallOpen h /\ state w = INIT /\ xhr w = Some x
        /\ step a w = set_xhr (Some x') (opening w x es)
        /\ x_listeners x' = wired /\ x_timeout x' = timeout w
        /\ ((Forall (fun e => is_header_call e = true) es
             /\ x_responseType x' = x_responseType x)
            \/ exists hs,
                 Forall (fun e => is_header_call e = true) hs
                 /\ es = (hs ++ [XhrSetResponseType (responseType w);
                                 XhrSend (body w)])%list
                 /\ x_responseType x'
                    = if XHR_supports (responseType w)
                      then responseType w else x_responseType x)).
Proof.
  intros HI. pose proof (inv_xhr w HI) as (x & Hx & Hl & Hli & Hlo & Hlw).
  assert (Hsame : step a w = w ->
            trace (step a w) = trace w /\ timers (step a w) = timers w
            /\ state (step a w) = state w /\ opened (step a w) = opened w
            /\ closed (step a w) = closed w
            /\ configuration (step a w) = configuration w
            /\ option_map handle_settings (xhr (step a w))
               = option_map handle_settings (xhr w)
            /\ (clock (step a w) = clock w
                \/ exists dt, a = Tick dt /\ clock (step a w) = clock w + dt)).
  { intros ->. repeat split. now left. }
  destruct a as [h| |name|st r| |dt].
  - destruct (state w) eqn:Hst.
    2,3: left; apply Hsame; rewrite step_open;
         now rewrite open_not_INIT by (rewrite Hst; discriminate).
    do 5 right. exists h, x. rewrite step_open.
    assert (Hw : x_listeners (wired_xhr w x) = wired)
      by (unfold wired_xhr; cbn; now rewrite (Hli eq_refl)).
    rewrite (open_INIT h w x Hst Hx).
    destruct (negb (not_nullish (headers w))).
    { exists (wired_xhr w x), []. cbn [snd]. rewrite opening_xhr.
      repeat split; try assumption. left. split; [constructor|reflexivity]. }
    destruct (String.eqb (typeof h) "object" && negb (not_nullish h)).
    { exists (wired_xhr w x), (header_effects (headers w)). cbn [snd].
      rewrite opening_xhr. repeat split; try assumption.
      left. split; [apply header_effects_calls|reflexivity]. }
    cbn [snd]. unfold sent. cbv zeta.
    exists (if XHR_supports (responseType w)
            then xset_responseType (responseType w) (wired_xhr w x)
            else wired_xhr w x),
      ((header_effects (headers w) ++ extra_effects h)
       ++ [XhrSetResponseType (responseType w); XhrSend (body w)])%list.
    split; [reflexivity|]. split; [reflexivity|].
    split; [assumption|]. split; [reflexivity|].
    split; [destruct (XHR_supports (responseType w)); exact Hw|].
    split; [destruct (XHR_supports (responseType w)); reflexivity|].
    right. exists (header_effects (headers w) ++ extra_effects h)%list.
    split; [apply Forall_app; split;
            [apply header_effects_calls | apply extra_effects_calls]|].
    split; [reflexivity|].
    destruct (XHR_supports (responseType w)); reflexivity.
  - unfold step, perform. destruct (state w) eqn:Hst.
    + right; right; left. exists ConnectionEvent.ABORT.
      rewrite close_INIT by assumption. cbn [snd].
      repeat split; try discriminate. now left.
    + right; left. rewrite (close_OPEN w x) by assumption. now repeat split.
    + left. apply Hsame. unfold step, perform.
      now rewrite close_CLOSED by assumption.
  - destruct Hl as [Hl|Hl].
    + left. apply Hsame. unfold step, perform.
      now rewrite (dispatch_unwired name w x Hx Hl).
    + pose proof (Hlw Hl) as Ho.
      destruct (handler_of name) as [h|] eqn:Hh.
      2:{ left. apply Hsame. unfold step, perform.
          now rewrite (dispatch_wired name w x Hx Hl), Hh. }
      destruct (closing_kind h (x_status x)) as [k|] eqn:Hk.
      * right; right; left. exists k.
        unfold step, perform.
        rewrite (dispatch_wired name w x Hx Hl), Hh, Hk. cbn [snd].
        assert (K : k <> ConnectionEvent.OPEN /\ k <> ConnectionEvent.DATA).
        { destruct h; cbn in Hk; try discriminate Hk;
            injection Hk as <-;
            try (split; discriminate).
          destruct (x_status x <? 400); split; discriminate. }
        destruct K as [K1 K2]. repeat split; try assumption.
        right. split; [now exists name|exact Ho].
      * right; right; right; left. split; [now exists name|].
        split; [exact Ho|]. unfold step, perform.
        now rewrite (dispatch_wired name w x Hx Hl), Hh, Hk.
  - left. unfold step, perform, receive. rewrite Hx. cbn [snd].
    repeat split. now left.
  - destruct (timers w) as [|k rest] eqn:Htm.
    + left. apply Hsame. unfold step, perform.
      now rewrite timer_turn_spec, Htm.
    + do 4 right. left. exists k, rest. split; [reflexivity|].
      split; [reflexivity|]. now apply step_timer.
  - left. unfold step, perform, modify. cbn [snd]. repeat split.
    right. now exists dt.
Qed.

(** ** Induction over reachable worlds *)

Lemma reachable_ind (P : World -> Prop) :
  (forall t u options items,
     typeof (option_headers options) = "object" ->
     P (configured t u options items)) ->
  (forall a w, Inv w -> P w -> P (step a w)) ->
  forall w, reachable w -> P w.
Proof.
  intros Hbase Hstep w (w0 & acts & (t & u & options & Hc) & ->).
  assert (H0 : Inv w0 /\ P w0).
  { destruct (constructed_cases t u options w0 Hc)
      as (items & _ & _ & Hh & _ & _ & _ & [[_ ->]|[_ Ho]]).
    - split; [now apply Inv_configured|now apply Hbase].
    - assert (E : w0 = step (CallOpen VUndefined)
                         (configured t u options items))
        by (rewrite step_open, Ho; reflexivity).
      rewrite E. split.
      + apply Inv_step. now apply Inv_configured.
      + apply Hstep; [now apply Inv_configured|now apply Hbase]. }
  clear Hc. destruct H0 as [HI HP]. revert w0 HI HP.
  induction acts as [|a acts IH]; intros w0 HI HP; [exact HP|].
  cbn [run fold_left]. apply IH; [now apply Inv_step|now apply Hstep].
Qed.

(** ** The order of events *)

Lemma schedule_app (a b : list Effect) :
  schedule (a ++ b) = (schedule a ++ schedule b)%list.
Proof. unfold schedule. apply flat_map_app. Qed.

Lemma header_calls_quiet (es : list Effect) :
  Forall (fun e => is_header_call e = true) es ->
  schedule es = [] /\ transport_calls es = es.
Proof.
  unfold schedule, transport_calls.
  induction 1 as [|e es He _ (IH1 & IH2)]; [now split|].
  destruct e; try discriminate He. cbn. now rewrite IH1, IH2.
Qed.

Lemma registration_effects_quiet (items : list Value) :
  schedule (registration_effects items) = []
  /\ emissions (registration_effects items) = []
  /\ transport_calls (registration_effects items) = [].
Proof.
  unfold schedule, emissions, transport_calls.
  induction items as [|o rest (A & B & C)]; [now repeat split|].
  cbn. now repeat split.
Qed.

Lemma in_order_configured (t : Z) (u options : Value) (items : list Value) :
  in_order (configured t u options items).
Proof.
  destruct (registration_effects_quiet items) as (A & B & _).
  unfold in_order, configured.
  cbn [trace timers opened state].
  rewrite schedule_app, emissions_app, A, B. cbn.
  split; [reflexivity|]. split; [intros N; now contradiction N|].
  intros _. left. now split.
Qed.

Lemma in_order_step (a : Action) (w : World) :
  Inv w -> in_order w -> in_order (step a w).
Proof.
  intros HI (Hq & Ho & Hn).
  destruct (step_cases a w HI)
    as [(Et & Em & Es & Eo & _)
       |[(_ & Hs & ->)
        |[(k & K1 & K2 & -> & Hk)
         |[(_ & Hop & ->)
          |[(k & rest & _ & Htm & ->)
           |(h & x & x' & es & _ & Hs & Hx & -> & _ & _ & Hes)]]]]].
  - unfold in_order. rewrite Et, Em, Es, Eo. now repeat split.
  - unfold in_order, logged. fields.
    rewrite schedule_app, emissions_app. cbn. rewrite !app_nil_r.
    now repeat split.
  - unfold in_order. fields.
    rewrite schedule_app, emissions_app. cbn. rewrite app_nil_r.
    split; [now rewrite app_assoc, Hq|]. split.
    + intros N. destruct (Ho N) as (rest & E & Hr).
      exists (rest ++ [k])%list. rewrite E. split; [reflexivity|].
      intros Hin. apply in_app_or in Hin. destruct Hin as [Hin|[Hin|[]]].
      * contradiction.
      * now apply K1.
    + intros N. right. split; [reflexivity|].
      destruct Hk as [(_ & Hs & ->)|(_ & Hop)]; [|contradiction].
      destruct (Hn N) as [(_ & E)|(Hc & _)]; [now rewrite E|congruence].
  - unfold in_order. fields.
    rewrite schedule_app, emissions_app. cbn. rewrite app_nil_r.
    split; [now rewrite app_assoc, Hq|]. split.
    + intros N. destruct (Ho N) as (rest & E & Hr).
      exists (rest ++ [ConnectionEvent.DATA])%list. rewrite E.
      split; [reflexivity|].
      intros Hin. apply in_app_or in Hin.
      destruct Hin as [Hin|[Hin|[]]]; [contradiction|discriminate Hin].
    + intros N. contradiction.
  - unfold in_order, logged. fields.
    rewrite schedule_app, emissions_app. cbn. rewrite app_nil_r.
    rewrite Htm in Hq. split; [|now split].
    rewrite <- Hq, <- app_assoc. reflexivity.
  - assert (Hop : opened w = None) by (apply (inv_init w HI Hs)).
    destruct (Hn Hop) as [(_ & E)|(Hc & _)]; [|congruence].
    assert (Hq' : schedule es = [] /\ emissions es = []).
    { destruct Hes as [(Hc & _)|(hs & Hc & -> & _)].
      - split; [apply (header_calls_quiet es Hc)
               |apply (header_calls_count es Hc)].
      - rewrite schedule_app, emissions_app.
        destruct (header_calls_quiet hs Hc) as (-> & _).
        destruct (header_calls_count hs Hc) as (_ & -> & _).
        now split. }
    destruct Hq' as (Q1 & Q2).
    rewrite E in Hq. apply app_eq_nil in Hq. destruct Hq as (Hem & Htm).
    unfold in_order, opening, open_effects. fields.
    rewrite !schedule_app, !emissions_app, E, Hem, Htm, Q1, Q2. cbn.
    split; [reflexivity|]. split.
    + intros _. exists []. split; [reflexivity|]. intros [].
    + intros N. discriminate N.
Qed.

(** X1.  Events reach the listeners in the order their emission was
    scheduled: the events emitted so far followed by the pending timers are
    exactly the scheduled events, in order.  On a connection that was
    opened, the OPEN event was scheduled first and only once, so it is
    emitted before every other event; a connection that was never opened
    has scheduled nothing while it is in INIT, and exactly one ABORT event
    once [close()] has closed it. *)
Theorem events_in_schedule_order (w : World) :
  reachable w ->
  (emissions (trace w) ++ timers w)%list = schedule (trace w)
  /\ (opened w <> None ->
      exists rest,
        schedule (trace w) = ConnectionEvent.OPEN :: rest
        /\ ~ In ConnectionEvent.OPEN rest)
  /\ (opened w = None ->
      (state w = INIT /\ schedule (trace w) = [])
      \/ (state w = CLOSED /\ schedule (trace w) = [ConnectionEvent.ABORT]))
  /\ (forall k rest,
        emissions (trace w) = k :: rest ->
        (opened w <> None /\ k = ConnectionEvent.OPEN
         /\ ~ In ConnectionEvent.OPEN rest)
        \/ (opened w = None /\ k = ConnectionEvent.ABORT /\ rest = [])).
Proof.
  intros Hr.
  assert (H : in_order w).
  { revert w Hr. apply reachable_ind.
    - intros. apply in_order_configured.
    - apply in_order_step. }
  destruct H as (Hq & Ho & Hn).
  split; [exact Hq|]. split; [exact Ho|]. split; [exact Hn|].
  intros k rest He. rewrite He in Hq. cbn in Hq.
  destruct (opened w) as [t|] eqn:Hop.
  - left. destruct Ho as (r & E & Hr'); [discriminate|].
    rewrite E in Hq. injection Hq as -> <-.
    split; [discriminate|]. split; [reflexivity|].
    intros Hin. apply Hr'. apply in_or_app. now left.
  - right. split; [reflexivity|].
    destruct (Hn eq_refl) as [(_ & E)|(_ & E)]; rewrite E in Hq.
    + discriminate Hq.
    + injection Hq as -> Hq. apply app_eq_nil in Hq. now split.
Qed.

(** ** The configuration stays *)

Lemma step_configuration (a : Action) (w : World) :
  Inv w -> configuration (step a w) = configuration w.
Proof.
  intros HI.
  destruct (step_cases a w HI)
    as [(_ & _ & _ & _ & _ & E & _)
       |[(_ & _ & ->)
        |[(k & _ & _ & -> & _)
         |[(_ & _ & ->)
          |[(k & rest & _ & _ & ->)
           |(h & x & x' & es & _ & _ & _ & -> & _)]]]]];
    [exact E|reflexivity..].
Qed.

Lemma run_configuration (acts : list Action) :
  forall w, Inv w -> configuration (run acts w) = configuration w.
Proof.
  induction acts as [|a acts IH]; intros w HI; [reflexivity|].
  cbn [run fold_left].
  change (fold_left (fun w a => step a w) ?l ?y) with (run l y).
  rewrite IH by now apply Inv_step. now apply step_configuration.
Qed.

(** X2.  The configuration is fixed at construction.  A constructed
    connection holds the address it was given, each of method, body,
    headers, response type and timeout as the option gave it or else its
    default (GET, null, [{ Accept: "application/json" }], json, 0), and the
    listeners of the options in their order; and no call of [open()] or
    [close()], no transport signal, no timer and no passing of time ever
    changes any of them. *)
Theorem configuration_fixed (t : Z) (u options : Value) (w0 : World)
  (acts : list Action) :
  new_XHRConnection t u options = (Normal tt, w0) ->
  configuration (run acts w0) = configuration w0
  /\ exists items,
       option_listeners options = VArray items
       /\ configuration w0
          = (u, option_method options, get_default options "body" VNull,
             option_headers options, option_responseType options,
             option_timeout options, registrations items).
Proof.
  intros Hc. split.
  - apply run_configuration. apply constructed_Inv. now exists t, u, options.
  - destruct (constructed_cases t u options w0 Hc)
      as (items & Hl & _ & Hh & _ & _ & _ & [[_ ->]|[_ Ho]]).
    + exists items. now split.
    + exists items. split; [exact Hl|].
      assert (E : w0 = step (CallOpen VUndefined)
                         (configured t u options items))
        by (rewrite step_open, Ho; reflexivity).
      rewrite E, step_configuration by now apply Inv_configured.
      reflexivity.
Qed.

(** ** The calls on the transport *)

Lemma transport_calls_app (a b : list Effect) :
  transport_calls (a ++ b)
  = (transport_calls a ++ transport_calls b)%list.
Proof. unfold transport_calls. apply filter_app. Qed.

Lemma repeat_snoc {A : Type} (x : A) (n : nat) :
  (repeat x n ++ [x])%list = repeat x (S n).
Proof.
  induction n as [|n IH]; [reflexivity|]. cbn. now rewrite IH.
Qed.

Lemma request_protocol_configured (t : Z) (u options : Value)
  (items : list Value) :
  request_protocol (configured t u options items).
Proof.
  destruct (registration_effects_quiet items) as (_ & _ & C).
  unfold request_protocol, configured. cbn [trace opened].
  split; [|intros N; now contradiction N].
  intros _. rewrite transport_calls_app, C. reflexivity.
Qed.

Lemma request_protocol_step (a : Action) (w : World) :
  Inv w -> request_protocol w -> request_protocol (step a w).
Proof.
  intros HI (Hn & Ho).
  pose proof (step_configuration a w HI) as Hcfg.
  unfold configuration in Hcfg.
  injection Hcfg as Eu Em Eb _ Er Et _.
  assert (Hkeep : opened (step a w) = opened w ->
            transport_calls (trace (step a w)) = transport_calls (trace w) ->
            request_protocol (step a w)).
  { intros Eo Ec. unfold request_protocol.
    rewrite Eo, Ec, Eu, Em, Eb, Er, Et. now split. }
  destruct (step_cases a w HI)
    as [(Etr & _ & _ & Eo & _)
       |[(_ & Hs & E)
        |[(k & _ & _ & E & _)
         |[(_ & _ & E)
          |[(k & rest & _ & _ & E)
           |(h & x & x' & es & _ & Hs & Hx & E & _ & _ & Hes)]]]]].
  - apply Hkeep; [exact Eo|now rewrite Etr].
  - assert (Hop : opened w <> None).
    { destruct (inv_xhr w HI) as (y & _ & _ & _ & Hlo & Hlw). auto. }
    destruct (Ho Hop) as (hs & tail & n & Ec & Hh & Ht).
    unfold request_protocol. rewrite Eu, Em, Eb, Er, Et.
    rewrite E. unfold logged. fields.
    split; [intros N; contradiction|]. intros _.
    exists hs, tail, (S n). split; [|now split].
    rewrite transport_calls_app, Ec. cbn [transport_calls filter
      is_transport_call]. rewrite <- repeat_snoc.
    now rewrite <- !app_assoc.
  - apply Hkeep; rewrite E; [reflexivity|].
    fields. rewrite transport_calls_app. cbn. apply app_nil_r.
  - apply Hkeep; rewrite E; [reflexivity|].
    fields. rewrite transport_calls_app. cbn. apply app_nil_r.
  - apply Hkeep; rewrite E; [reflexivity|].
    unfold logged. fields. rewrite transport_calls_app. cbn.
    apply app_nil_r.
  - assert (Hop : opened w = None) by (apply (inv_init w HI Hs)).
    unfold request_protocol. rewrite Eu, Em, Eb, Er, Et.
    rewrite E. unfold opening, open_effects. fields.
    split; [intros N; discriminate N|]. intros _.
    rewrite !transport_calls_app, (Hn Hop).
    destruct Hes as [(Hc & _)|(hs & Hc & -> & _)].
    + exists es, [], 0%nat. split; [|split; [exact Hc|now left]].
      destruct (header_calls_quiet es Hc) as (_ & ->).
      cbn. rewrite ?app_nil_r. reflexivity.
    + exists hs, [XhrSetResponseType (responseType w); XhrSend (body w)],
        0%nat.
      split; [|split; [exact Hc|now right]].
      rewrite transport_calls_app.
      destruct (header_calls_quiet hs Hc) as (_ & ->).
      cbn. rewrite ?app_nil_r. reflexivity.
Qed.

(** X3.  The calls a connection makes on its transport handle follow the
    order a request needs.  A connection that was never opened has called
    nothing on the handle.  An opened connection has registered its five
    listeners, called [open] with the configured method and address and set
    the timeout, then set headers, then - unless enumerating [null] headers
    stopped it - set the response type and sent once; whatever it called
    afterwards is [abort]. *)
Theorem transport_call_order (w : World) :
  reachable w ->
  (opened w = None -> transport_calls (trace w) = [])
  /\ (opened w <> None ->
      exists hs tail n,
        transport_calls (trace w)
        = (wiring_effects
           ++ [XhrOpen (method w) (url w); XhrSetTimeout (timeout w)]
           ++ hs ++ tail ++ repeat XhrAbort n)%list
        /\ Forall (fun e => is_header_call e = true) hs
        /\ (tail = []
            \/ tail = [XhrSetResponseType (responseType w);
                       XhrSend (body w)])).
Proof.
  intros Hr.
  assert (H : request_protocol w).
  { revert w Hr. apply reachable_ind.
    - intros. apply request_protocol_configured.
    - apply request_protocol_step. }
  exact H.
Qed.

(** ** The order of the timestamps *)

Lemma stamped_step (t0 : Z) (a : Action) (w : World) :
  Inv w ->
  match a with Tick dt => 0 <= dt | _ => True end ->
  stamped t0 w -> stamped t0 (step a w).
Proof.
  intros HI Ha (H0 & Ho & Hc & Hoc).
  destruct (step_cases a w HI)
    as [(_ & _ & _ & Eo & Ec & _ & _ & Ek)
       |[(_ & _ & ->)
        |[(k & _ & _ & -> & _)
         |[(_ & _ & ->)
          |[(k & rest & _ & _ & ->)
           |(h & x & x' & es & _ & Hs & _ & -> & _)]]]]].
  - assert (Hk : clock w <= clock (step a w)).
    { destruct Ek as [->|(dt & -> & ->)]; lia. }
    unfold stamped. rewrite Eo, Ec.
    split; [lia|].
    split; [intros o Hoo; specialize (Ho o Hoo); lia|].
    split; [intros c Hcc; specialize (Hc c Hcc); lia|exact Hoc].
  - unfold stamped, logged. fields.
    exact (conj H0 (conj Ho (conj Hc Hoc))).
  - unfold stamped. fields.
    split; [exact H0|]. split; [exact Ho|].
    destruct (closed w) as [c0|] eqn:Ecl; cbn [stamp].
    + split; [exact Hc|exact Hoc].
    + split; [intros c [= <-]; lia|].
      intros o c Hoo [= <-]. apply (Ho o Hoo).
  - unfold stamped. fields.
    exact (conj H0 (conj Ho (conj Hc Hoc))).
  - unfold stamped, logged. fields.
    exact (conj H0 (conj Ho (conj Hc Hoc))).
  - assert (Hcl : closed w = None).
    { destruct (closed w) eqn:E; [|reflexivity].
      assert (N : closed w <> None) by (rewrite E; discriminate).
      apply (inv_closed w HI) in N. congruence. }
    unfold stamped, opening. fields. rewrite Hcl.
    split; [exact H0|].
    split; [intros o [= <-]; lia|].
    split; [intros c N; discriminate N|].
    intros o c _ N. discriminate N.
Qed.

Lemma stamped_run (t0 : Z) (acts : list Action) :
  clock_forward acts ->
  forall w, Inv w -> stamped t0 w -> stamped t0 (run acts w).
Proof.
  induction 1 as [|a acts Ha _ IH]; intros w HI Hs; [exact Hs|].
  cbn [run fold_left]. apply IH; [now apply Inv_step|].
  now apply stamped_step.
Qed.

(** X4.  As long as the clock does not go back, the timestamps of a
    connection are in order: the open timestamp is not earlier than the
    construction, the close timestamp is not earlier than the open
    timestamp, and neither is later than the current time. *)
Theorem timestamps_in_order (t : Z) (u options : Value) (w0 : World)
  (acts : list Action) :
  new_XHRConnection t u options = (Normal tt, w0) ->
  clock_forward acts ->
  t <= clock (run acts w0)
  /\ (forall o, opened (run acts w0) = Some o ->
        t <= o <= clock (run acts w0))
  /\ (forall c, closed (run acts w0) = Some c ->
        t <= c <= clock (run acts w0))
  /\ (forall o c,
        opened (run acts w0) = Some o -> closed (run acts w0) = Some c ->
        o <= c).
Proof.
  intros Hc Hf.
  assert (HI : Inv w0) by (apply constructed_Inv; now exists t, u, options).
  apply (stamped_run t acts Hf w0 HI).
  destruct (constructed_cases t u options w0 Hc)
    as (items & _ & _ & Hh & _ & _ & _ & [[_ ->]|[_ Ho]]).
  - unfold stamped, configured. cbn [clock opened closed].
    repeat split; try discriminate; lia.
  - assert (E : w0 = step (CallOpen VUndefined)
                       (configured t u options items))
      by (rewrite step_open, Ho; reflexivity).
    rewrite E. apply stamped_step; [now apply Inv_configured|exact I|].
    unfold stamped, configured. cbn [clock opened closed].
    repeat split; try discriminate; lia.
Qed.

(** ** What the handle is set to *)

Lemma handle_follows_configured (t : Z) (u options : Value)
  (items : list Value) :
  handle_follows (configured t u options items).
Proof.
  destruct (registration_effects_count items) as (A & _).
  exists fresh_xhr. split; [reflexivity|]. split.
  - unfold negotiated, configured. cbn [trace].
    rewrite sends_app, A. reflexivity.
  - intros N. now contradiction N.
Qed.

Lemma handle_follows_step (a : Action) (w : World) :
  Inv w -> handle_follows w -> handle_follows (step a w).
Proof.
  intros HI (x & Hx & Hr & Ht).
  pose proof (step_configuration a w HI) as Hcfg.
  unfold configuration in Hcfg.
  injection Hcfg as _ _ _ _ Er Et _.
  assert (Hkeep : forall x',
            xhr (step a w) = Some x' ->
            x_responseType x' = x_responseType x ->
            x_timeout x' = x_timeout x ->
            opened (step a w) = opened w ->
            sends (trace (step a w)) = sends (trace w) ->
            handle_follows (step a w)).
  { intros x' Hx' E1 E2 Eo Es. exists x'. split; [exact Hx'|].
    unfold negotiated. rewrite Es, Er, Eo, Et, E1, E2.
    split; [exact Hr|exact Ht]. }
  destruct (step_cases a w HI)
    as [(Etr & _ & _ & Eo & _ & _ & Eh & _)
       |[(_ & _ & E)
        |[(k & _ & _ & E & _)
         |[(_ & _ & E)
          |[(k & rest & _ & _ & E)
           |(h & y & x' & es & _ & Hs & Hy & E & _ & Hto & Hes)]]]]].
  - rewrite Hx in Eh. cbn in Eh.
    destruct (xhr (step a w)) as [x'|] eqn:Hx'; [|discriminate Eh].
    cbn in Eh. unfold handle_settings in Eh. injection Eh as _ E2 E1.
    apply (Hkeep x'); try assumption; try reflexivity. now rewrite Etr.
  - apply (Hkeep x); rewrite ?E; try assumption; try reflexivity.
    unfold logged. fields. rewrite sends_app. cbn. lia.
  - apply (Hkeep x); rewrite ?E; try assumption; try reflexivity.
    fields. rewrite sends_app. cbn. lia.
  - apply (Hkeep x); rewrite ?E; try assumption; try reflexivity.
    fields. rewrite sends_app. cbn. lia.
  - apply (Hkeep x); rewrite ?E; try assumption; try reflexivity.
    unfold logged. fields. rewrite sends_app. cbn. lia.
  - assert (y = x) by congruence. subst y.
    destruct (inv_init w HI Hs) as (_ & _ & Hsn & _).
    assert (Hr0 : x_responseType x = VString "").
    { rewrite Hr. unfold negotiated. now rewrite Hsn. }
    exists x'. rewrite E. split; [reflexivity|].
    unfold negotiated, opening, open_effects. fields.
    split; [|intros _; exact Hto].
    rewrite !sends_app, Hsn.
    destruct Hes as [(Hc & ->)|(hs & Hc & -> & ->)].
    + destruct (header_calls_count es Hc) as (-> & _). cbn. exact Hr0.
    + rewrite sends_app.
      destruct (header_calls_count hs Hc) as (-> & _). cbn.
      destruct (XHR_supports (responseType w)); [reflexivity|exact Hr0].
Qed.

(** X5.  What the handle is set to.  The handle of a reachable connection
    has its initial response type [""] until [open()] has run through to
    [send]; from then on it has the configured response type if the
    platform accepts it, and [""] still if not; once the connection was
    opened its timeout is the configured one.  So the accessor of a
    connection configured for ["json"] parses the response itself exactly
    when the response is truthy and the handle has not taken ["json"]:
    before the send, or on a platform that ignores it. *)
Theorem handle_settings_follow_configuration (w : World) :
  reachable w ->
  exists x,
    xhr w = Some x
    /\ x_responseType x = negotiated w
    /\ (opened w <> None -> x_timeout x = timeout w)
    /\ (responseType w = VString "json" ->
        response w
        = if truthy (x_response x)
             && negb ((0 <? sends (trace w))%nat
                      && XHR_supports (VString "json"))
          then (match JSON_parse (x_response x) with
                | Some v => Normal v
                | None => Throw SyntaxError
                end, w)
          else (Normal (x_response x), w)).
Proof.
  intros Hr.
  assert (H : handle_follows w).
  { revert w Hr. apply reachable_ind.
    - intros. apply handle_follows_configured.
    - apply handle_follows_step. }
  destruct H as (x & Hx & Hn & Ht). exists x.
  split; [exact Hx|]. split; [exact Hn|]. split; [exact Ht|].
  intros Hj. unfold response, bind, gets, this_xhr.
  rewrite Hx, Hj, Hn. unfold negotiated. rewrite Hj. cbn [strict_eq_string
    String.eqb Ascii.eqb Bool.eqb andb].
  destruct (truthy (x_response x)); [|reflexivity].
  destruct ((0 <? sends (trace w))%nat && XHR_supports (VString "json"));
    cbn; [reflexivity|].
  destruct (JSON_parse (x_response x)); reflexivity.
Qed.

(** ** Which error the constructor throws *)


(** ** Listeners are registered in order, up to the first bad entry *)





(** ** The [open] option *)

(** X8.  Constructing with a truthy [open] option is constructing without
    it and then calling [open()] with no argument: the connection is the
    one that call leaves, and an exception of the call is the exception of
    the constructor. *)
Theorem open_option_is_open_call (t : Z) (u options options' : Value)
  (w0 : World) :
  (forall key, key <> "open" -> get options key = get options' key) ->
  truthy (get options "open") = true ->
  truthy (get options' "open") = false ->
  new_XHRConnection t u options' = (Normal tt, w0) ->
  new_XHRConnection t u options
  = match open VUndefined w0 with
    | (Normal _, w) => (Normal tt, w)
    | (Throw e, w) => (Throw e, w)
    end.
Proof.
  intros Hsame Ho Ho' Hc.
  destruct (constructed_cases _ _ _ _ Hc)
    as (items & Hl & Hfi & Hh & Hm & Hr & Ht & [(_ & ->) | (E & _)]);
    [|congruence].
  assert (Hnn : options <> VNull) by (intros ->; discriminate Ho).
  assert (Hd : forall key d, key <> "open" ->
                 get_default options key d = get_default options' key d).
  { intros key d Hk. unfold get_default. now rewrite (Hsame key Hk). }
  assert (Em : option_method options = option_method options')
    by (apply Hd; discriminate).
  assert (Er : option_responseType options = option_responseType options')
    by (apply Hd; discriminate).
  assert (Eh : option_headers options = option_headers options')
    by (apply Hd; discriminate).
  assert (Et : option_timeout options = option_timeout options')
    by (apply Hd; discriminate).
  assert (El : option_listeners options = option_listeners options')
    by (apply Hd; discriminate).
  assert (Eb : get_default options "body" VNull
               = get_default options' "body" VNull)
    by (apply Hd; discriminate).
  assert (Ec : configured t u options items = configured t u options' items).
  { unfold configured. now rewrite Em, Er, Eh, Et, Eb. }
  rewrite (constructor_run t u options Hnn). unfold construction. cbv zeta.
  rewrite Em, Er, Eh, Et, El, Hm, Hr, Hh, Ht, Hl, Hfi, Ho, Ec.
  cbn [typeof String.eqb Ascii.eqb Bool.eqb negb]. reflexivity.
Qed.

(** ** Signals the connection does not listen to *)

Lemma handler_of_other (name : string) :
  ~ In name ["progress"; "load"; "abort"; "error"; "timeout"] ->
  handler_of name = None.
Proof.
  intros Hn. unfold handler_of.
  destruct (String.eqb name "progress") eqn:E1;
    [apply String.eqb_eq in E1; subst; contradiction Hn; cbn; tauto|].
  destruct (String.eqb name "load") eqn:E2;
    [apply String.eqb_eq in E2; subst; contradiction Hn; cbn; tauto|].
  destruct (String.eqb name "abort") eqn:E3;
    [apply String.eqb_eq in E3; subst; contradiction Hn; cbn; tauto|].
  destruct (String.eqb name "error") eqn:E4;
    [apply String.eqb_eq in E4; subst; contradiction Hn; cbn; tauto|].
  destruct (String.eqb name "timeout") eqn:E5;
    [apply String.eqb_eq in E5; subst; contradiction Hn; cbn; tauto|].
  reflexivity.
Qed.

(** X9.  The listeners of the transport handle are registered by [open()],
    not by the constructor, and only for progress, load, abort, error and
    timeout.  So a signal of the transport changes nothing - no state, no
    timestamp, no timer, no effect - as long as the connection has not been
    opened (also when it was closed without having been opened), and a
    signal of any other name changes nothing at any time. *)
Theorem unheard_signals_change_nothing (w : World) (name : string) :
  reachable w ->
  opened w = None
  \/ ~ In name ["progress"; "load"; "abort"; "error"; "timeout"] ->
  dispatch name w = (Normal tt, w) /\ step (Signal name) w = w.
Proof.
  intros Hr Hcase. apply reachable_Inv in Hr.
  destruct (inv_xhr w Hr) as (x & Hx & Hl & _ & _ & Hwo).
  assert (E : dispatch name w = (Normal tt, w)).
  { destruct Hl as [Hl|Hl]; [now apply (dispatch_unwired name w x)|].
    destruct Hcase as [Hopen|Hname].
    - now contradiction (Hwo Hl).
    - rewrite (dispatch_wired name w x Hx Hl).
      now rewrite (handler_of_other name Hname). }
  split; [exact E|]. unfold step, perform. now rewrite E.
Qed.

(** ** What the accessors report *)

Lemma step_readings (a : Action) (w : World) (x : Xhr) :
  Inv w ->
  xhr w = Some x ->
  exists x',
    xhr (step a w) = Some x'
    /\ readings x'
       = match a with Receive st r => (st, r) | _ => readings x end.
Proof.
  intros HI Hx. pose proof (inv_xhr w HI) as (x0 & Hx0 & Hl & _).
  rewrite Hx in Hx0. injection Hx0 as <-.
  destruct a as [h| |name|st r| |dt].
  - rewrite step_open. destruct (state w) eqn:Hst.
    + destruct (open_INIT_world h w x Hst Hx) as [E|[E|E]]; rewrite E.
      * now exists (wired_xhr w x).
      * now exists (wired_xhr w x).
      * unfold sent. cbv zeta.
        destruct (XHR_supports (responseType w));
          eexists; (split; [reflexivity|reflexivity]).
    + rewrite open_not_INIT by (rewrite Hst; discriminate). now exists x.
    + rewrite open_not_INIT by (rewrite Hst; discriminate). now exists x.
  - unfold step, perform. destruct (state w) eqn:Hst.
    + rewrite close_INIT by assumption. now exists x.
    + rewrite (close_OPEN w x) by assumption. now exists x.
    + rewrite close_CLOSED by assumption. now exists x.
  - unfold step, perform. destruct Hl as [Hl|Hl].
    + rewrite (dispatch_unwired name w x Hx Hl). now exists x.
    + rewrite (dispatch_wired name w x Hx Hl). cbn [snd].
      destruct (handler_of name) as [h|]; [|now exists x].
      destruct (closing_kind h (x_status x)); now exists x.
  - unfold step, perform, receive. rewrite Hx. cbn [snd].
    eexists. split; reflexivity.
  - unfold step, perform. rewrite timer_turn_spec.
    destruct (timers w); now exists x.
  - now exists x.
Qed.

Lemma run_readings (acts : list Action) :
  forall (w : World) (x : Xhr),
    Inv w ->
    xhr w = Some x ->
    exists x',
      xhr (run acts w) = Some x'
      /\ readings x'
         = fold_left
             (fun acc a =>
                match a with Receive st r => (st, r) | _ => acc end)
             acts (readings x).
Proof.
  induction acts as [|a acts IH]; intros w x HI Hx; [now exists x|].
  cbn [run fold_left].
  change (fold_left (fun w a => step a w) ?l ?y) with (run l y).
  destruct (step_readings a w x HI Hx) as (x1 & Hx1 & R1).
  destruct (IH (step a w) x1 (Inv_step a w HI) Hx1) as (x' & Hx' & R').
  exists x'. split; [exact Hx'|]. rewrite R', R1.
  destruct a; reflexivity.
Qed.

Lemma constructed_readings (w0 : World) :
  constructed w0 ->
  exists x, xhr w0 = Some x /\ readings x = readings fresh_xhr.
Proof.
  intros (t & u & options & Hc).
  destruct (constructed_cases t u options w0 Hc)
    as (items & _ & _ & Hh & _ & _ & _ & [[_ ->]|[_ Ho]]).
  - now exists fresh_xhr.
  - assert (E : w0 = step (CallOpen VUndefined)
                       (configured t u options items))
      by (rewrite step_open, Ho; reflexivity).
    rewrite E.
    apply (step_readings (CallOpen VUndefined) (configured t u options items)
             fresh_xhr); [now apply Inv_configured|reflexivity].
Qed.

(** X10.  The accessors read the transport handle and nothing else.  After
    any sequence of actions on a constructed connection, [status] is the
    status the transport delivered last - 0 when it has delivered none -
    whatever the state of the connection; and [response] is the response
    delivered last, as it is, whenever the configured response type is not
    ["json"] or that response is falsy (the empty text before anything has
    arrived, [null], ...).  Neither accessor throws there or changes the
    connection. *)
Theorem accessors_report_last_received (t : Z) (u options : Value)
  (w0 : World) (acts : list Action) :
  new_XHRConnection t u options = (Normal tt, w0) ->
  status (run acts w0) = (Normal (fst (last_received acts)), run acts w0)
  /\ (option_responseType options <> VString "json"
      \/ truthy (snd (last_received acts)) = false ->
      response (run acts w0)
      = (Normal (snd (last_received acts)), run acts w0)).
Proof.
  intros Hc.
  assert (Hcon : constructed w0) by (now exists t, u, options).
  pose proof (constructed_Inv w0 Hcon) as HI.
  destruct (constructed_readings w0 Hcon) as (x0 & Hx0 & R0).
  destruct (run_readings acts w0 x0 HI Hx0) as (x & Hx & R).
  rewrite R0 in R. fold (last_received acts) in R.
  assert (Hrt : responseType (run acts w0) = option_responseType options).
  { pose proof (run_configuration acts w0 HI) as E.
    apply (f_equal (fun c => snd (fst (fst c)))) in E. cbn in E.
    rewrite E.
    destruct (constructed_cases t u options w0 Hc)
      as (items & _ & _ & Hh & _ & _ & _ & [[_ ->]|[_ Ho]]);
      [reflexivity|].
    assert (E0 : w0 = step (CallOpen VUndefined)
                        (configured t u options items))
      by (rewrite step_open, Ho; reflexivity).
    pose proof (step_configuration (CallOpen VUndefined)
                  (configured t u options items)
                  (Inv_configured t u options items Hh)) as E1.
    rewrite <- E0 in E1.
    apply (f_equal (fun c => snd (fst (fst c)))) in E1. exact E1. }
  assert (Rs : x_status x = fst (last_received acts))
    by (now rewrite <- R).
  assert (Rr : x_response x = snd (last_received acts))
    by (now rewrite <- R).
  split.
  - unfold status, bind, this_xhr, ret. rewrite Hx, Rs. reflexivity.
  - intros Hcase. unfold response, bind, gets, this_xhr, ret.
    rewrite Hx, Hrt, Rr.
    destruct (strict_eq_string (option_responseType options) "json") eqn:Ej;
      [|reflexivity].
    destruct (truthy (snd (last_received acts))) eqn:Et; [|reflexivity].
    apply strict_eq_string_iff in Ej.
    destruct Hcase as [Hcase|Hcase]; [contradiction|discriminate Hcase].
Qed.

(** ** A request from OPEN to its end *)

Lemma transport_calls_Emit (l : list ConnectionEvent.kind) :
  transport_calls (map Emit l) = [].
Proof. induction l as [|k l IH]; [reflexivity|exact IH]. Qed.

(** The pending timers and one more have run after a closing listener. *)
Lemma closing_drained (k : ConnectionEvent.kind) (w : World) :
  closed w = None ->
  let w' := run (repeat TimerTurn (S (List.length (timers w)))) (closing k w)
  in
  state w' = CLOSED /\ closed w' = Some (clock w) /\ opened w' = opened w
  /\ timers w' = [] /\ xhr w' = xhr w
  /\ emissions (trace w') = (emissions (trace w) ++ timers w ++ [k])%list
  /\ transport_calls (trace w') = transport_calls (trace w).
Proof.
  intros Hcl. cbv zeta.
  assert (Ht : timers (closing k w) = (timers w ++ [k])%list) by reflexivity.
  replace (S (List.length (timers w)))
    with (List.length (timers w ++ [k])%list)
    by (rewrite length_app; cbn; lia).
  rewrite (run_timer_turns _ _ Ht). fields.
  repeat split; try reflexivity.
  - now rewrite Hcl.
  - rewrite !emissions_app, emissions_Emit. cbn. now rewrite app_nil_r.
  - rewrite !transport_calls_app, transport_calls_Emit. cbn.
    now rewrite !app_nil_r.
Qed.

(** X11.  What becomes of an open request.  On a connection in state OPEN,
    when the transport delivers a status and a response and then signals
    load, and the timers pending before and the one added have run: the
    connection is CLOSED with the close timestamp of that moment, the events
    emitted are those pending before in their order, followed by COMPLETE
    for a status below 400 and by ERROR otherwise; [status] reports the
    status delivered, and nothing more was called on the transport.  When
    instead [close()] is called and the transport answers with abort, the
    last event is ABORT and the one call on the transport is [abort()]. *)
Theorem open_request_runs_to_its_end (w : World) (st : Z) (r : Value) :
  reachable w ->
  state w = OPEN ->
  let turns := repeat TimerTurn (S (List.length (timers w))) in
  let loaded := run ([Receive st r; Signal "load"] ++ turns) w in
  let cancelled := run ([CallClose; Signal "abort"] ++ turns) w in
  (state loaded = CLOSED
   /\ closed loaded = Some (clock w)
   /\ opened loaded = opened w
   /\ timers loaded = []
   /\ emissions (trace loaded)
      = (emissions (trace w) ++ timers w
         ++ [if st <? 400 then ConnectionEvent.COMPLETE
             else ConnectionEvent.ERROR])%list
   /\ status loaded = (Normal st, loaded)
   /\ transport_calls (trace loaded) = transport_calls (trace w))
  /\ (state cancelled = CLOSED
      /\ closed cancelled = Some (clock w)
      /\ opened cancelled = opened w
      /\ timers cancelled = []
      /\ emissions (trace cancelled)
         = (emissions (trace w) ++ timers w ++ [ConnectionEvent.ABORT])%list
      /\ transport_calls (trace cancelled)
         = (transport_calls (trace w) ++ [XhrAbort])%list).
Proof.
  intros Hr Hs. apply reachable_Inv in Hr.
  destruct (inv_xhr w Hr) as (x & Hx & _ & _ & Hlo & _).
  assert (Hcl : closed w = None)
    by (apply (not_CLOSED_unstamped w Hr); rewrite Hs; discriminate).
  specialize (Hlo Hs). cbv zeta. rewrite !run_app. split.
  - set (w1 := set_xhr (Some (xset_received st r x)) w).
    assert (E1 : run [Receive st r; Signal "load"] w
                 = closing (if st <? 400 then ConnectionEvent.COMPLETE
                            else ConnectionEvent.ERROR) w1).
    { cbn [run fold_left]. unfold step at 2. unfold perform, receive.
      rewrite Hx. cbn [snd]. fold w1. unfold step, perform.
      rewrite (dispatch_wired "load" w1 (xset_received st r x));
        [reflexivity|reflexivity|exact Hlo]. }
    rewrite E1.
    change (timers w) with (timers w1).
    destruct (closing_drained
                (if st <? 400 then ConnectionEvent.COMPLETE
                 else ConnectionEvent.ERROR) w1 Hcl)
      as (A & B & C & D & E & F & G).
    repeat split; try assumption.
    unfold status, bind, this_xhr, ret. rewrite E. reflexivity.
  - set (w1 := logged [XhrAbort] w).
    assert (E1 : run [CallClose; Signal "abort"] w
                 = closing ConnectionEvent.ABORT w1).
    { cbn [run fold_left]. unfold step at 2. unfold perform.
      rewrite (close_OPEN w x Hs Hx). cbn [snd]. fold w1.
      unfold step, perform.
      rewrite (dispatch_wired "abort" w1 x); [reflexivity|exact Hx|exact Hlo]. }
    rewrite E1.
    change (timers w) with (timers w1).
    destruct (closing_drained ConnectionEvent.ABORT w1 Hcl)
      as (A & B & C & D & E & F & G).
    repeat split; try assumption.
    + rewrite F. unfold w1. fields. rewrite emissions_app. cbn.
      now rewrite app_nil_r.
    + rewrite G. unfold w1. fields. now rewrite transport_calls_app.
Qed.

End Platform.

(** * The claims on concrete connections *)

(** [new XHRConnection("/data", options)] at time 1000, on a platform whose
    event kinds are the five names and whose handle accepts every response
    type. *)
Definition connect (options : Value) : World :=
  snd (new_XHRConnection Sample.includes_names Sample.supports_all 1000
         (VString "/data") options).

(** The same on a platform whose handle ignores the response type
    ["json"]. *)
Definition connect_no_json (options : Value) : World :=
  snd (new_XHRConnection Sample.includes_names Sample.supports_no_json 1000
         (VString "/data") options).

Lemma connect_reachable (options : Value) (acts : list Action) :
  fst (new_XHRConnection Sample.includes_names Sample.supports_all 1000
         (VString "/data") options) = Normal tt ->
  reachable Sample.includes_names Sample.supports_all
    (run Sample.supports_all acts (connect options)).
Proof.
  intros H. exists (connect options), acts. split; [|reflexivity].
  exists 1000, (VString "/data"), options. unfold connect.
  destruct (new_XHRConnection Sample.includes_names Sample.supports_all 1000
              (VString "/data") options) as [c w].
  cbn in H. now subst c.
Qed.

Lemma connect_no_json_reachable (options : Value) (acts : list Action) :
  fst (new_XHRConnection Sample.includes_names Sample.supports_no_json 1000
         (VString "/data") options) = Normal tt ->
  reachable Sample.includes_names Sample.supports_no_json
    (run Sample.supports_no_json acts (connect_no_json options)).
Proof.
  intros H. exists (connect_no_json options), acts. split; [|reflexivity].
  exists 1000, (VString "/data"), options. unfold connect_no_json.
  destruct (new_XHRConnection Sample.includes_names Sample.supports_no_json
              1000 (VString "/data") options) as [c w].
  cbn in H. now subst c.
Qed.


(** A connection constructed with [{ open: true }]. *)
Lemma state_only_moves_forward_witness :
  let options := VObject [("open", VBool true)] in
  new_XHRConnection Sample.includes_names Sample.supports_all 1000
    (VString "/data") options
  = (Normal tt, connect options)
  /\ (state (connect options) = INIT \/ state (connect options) = OPEN)
  /\ (forall (acts : list Action) (a : Action),
        forward
          (state (run Sample.supports_all acts (connect options)))
          (state (step Sample.supports_all a
                    (run Sample.supports_all acts (connect options)))))
  /\ (forall acts more : list Action,
        (rank (state (run Sample.supports_all acts (connect options)))
         <= rank (state (run Sample.supports_all (acts ++ more)
                           (connect options))))%nat)
  /\ (forall acts more : list Action,
        state (run Sample.supports_all acts (connect options)) = CLOSED ->
        state (run Sample.supports_all (acts ++ more) (connect options))
        = CLOSED).
Proof.
  cbv zeta.
  assert (C : new_XHRConnection Sample.includes_names Sample.supports_all
                1000 (VString "/data") (VObject [("open", VBool true)])
              = (Normal tt, connect (VObject [("open", VBool true)])))
    by (vm_compute; reflexivity).
  split; [exact C|].
  exact (state_only_moves_forward Sample.includes_names Sample.supports_all
           1000 (VString "/data") (VObject [("open", VBool true)])
           (connect (VObject [("open", VBool true)])) C).
Defined.

(** The options [{ method: "PATCH" }]. *)
Lemma constructor_validation_witness :
  let options := VObject [("method", VString "PATCH")] in
  options <> VNull
  /\ failing_check Sample.includes_names options
  /\ invalid_configuration Sample.includes_names options
  /\ new_XHRConnection Sample.includes_names Sample.supports_all 1000
       (VString "/data") options
     = (Throw (Error (InvalidMethod (VString "PATCH"))),
        set_url (VString "/data") (blank 1000))
  /\ xhr (connect options) = None.
Proof.
  cbv zeta.
  assert (N : VObject [("method", VString "PATCH")] <> VNull)
    by discriminate.
  pose proof (constructor_validation Sample.includes_names
                Sample.supports_all 1000 (VString "/data")
                (VObject [("method", VString "PATCH")]) N)
    as (Hiff & Hsound & _ & Hnone & _ & _ & Hpatch).
  assert (E : fst (new_XHRConnection Sample.includes_names
                     Sample.supports_all 1000 (VString "/data")
                     (VObject [("method", VString "PATCH")]))
              = Throw (Error (InvalidMethod (VString "PATCH"))))
    by (vm_compute; reflexivity).
  split; [exact N|]. split; [|split; [|split]].
  - apply Hiff. exists (InvalidMethod (VString "PATCH")). exact E.
  - apply Hsound. exists (InvalidMethod (VString "PATCH")). exact E.
  - apply Hpatch. vm_compute. reflexivity.
  - exact (proj1 (Hnone (InvalidMethod (VString "PATCH")) E)).
Defined.

(** C3.  The claim fails at [{ headers: null }].  These headers are not an
    object, so the configuration is invalid in the words of the option
    list; yet the constructor throws none of its errors, returns normally
    and has created the handle.  The headers check tests [typeof] alone,
    which is ["object"] for [null]; the check of a listener entry, written
    for the same purpose, tests the value as well and rejects [null]. *)
Theorem constructor_accepts_null_headers :
  let options := VObject [("headers", VNull)] in
  is_object (option_headers options) = false
  /\ invalid_configuration Sample.includes_names options
  /\ typeof (option_headers options) = "object"
  /\ new_XHRConnection Sample.includes_names Sample.supports_all 1000
       (VString "/data") options
     = (Normal tt, connect options)
  /\ xhr (connect options) = Some fresh_xhr
  /\ In NewXHR (trace (connect options))
  /\ new_XHRConnection Sample.includes_names Sample.supports_all 1000
       (VString "/data") (VObject [("listeners", VArray [VNull])])
     = (Throw (Error (InvalidListenerObject "object")),
        set_url (VString "/data") (blank 1000)).
Proof.
  cbv zeta.
  split; [reflexivity|].
  split; [right; right; left; reflexivity|].
  split; [reflexivity|].
  split; [vm_compute; reflexivity|].
  split; [vm_compute; reflexivity|].
  split; [vm_compute; tauto|].
  vm_compute. reflexivity.
Qed.

(** A default connection, closed before it was opened. *)
Lemma close_by_state_witness :
  let w := connect VUndefined in
  reachable Sample.includes_names Sample.supports_all w
  /\ state w = INIT
  /\ close w = (Normal tt, closing ConnectionEvent.ABORT w)
  /\ closed (closing ConnectionEvent.ABORT w) = Some 1000
  /\ sends (trace (run Sample.supports_all
                     [CallOpen VUndefined; TimerTurn; CallClose]
                     (closing ConnectionEvent.ABORT w))) = 0%nat
  /\ scheduled ConnectionEvent.ABORT
       (trace (run Sample.supports_all
                 [CallOpen VUndefined; TimerTurn; CallClose]
                 (closing ConnectionEvent.ABORT w))) = 1%nat.
Proof.
  cbv zeta.
  assert (R : reachable Sample.includes_names Sample.supports_all
                (run Sample.supports_all [] (connect VUndefined)))
    by (apply connect_reachable; vm_compute; reflexivity).
  assert (S : state (connect VUndefined) = INIT) by (vm_compute; reflexivity).
  pose proof (close_by_state Sample.includes_names Sample.supports_all
                (connect VUndefined) R) as (Hinit & _).
  destruct (Hinit S) as (A & _ & B & _ & C).
  destruct (C [CallOpen VUndefined; TimerTurn; CallClose])
    as (_ & _ & D & E & _).
  split; [exact R|]. split; [exact S|]. split; [exact A|].
  split; [exact B|]. split; [exact D|exact E].
Defined.

(** A default connection, opened three times. *)
Lemma open_idempotent_witness :
  let w := connect VUndefined in
  reachable Sample.includes_names Sample.supports_all w
  /\ state w = INIT
  /\ headers w <> VNull
  /\ state (run Sample.supports_all
              (map CallOpen [VUndefined; VUndefined; VUndefined]) w) = OPEN
  /\ scheduled ConnectionEvent.OPEN
       (trace (run Sample.supports_all
                 (map CallOpen [VUndefined; VUndefined; VUndefined]) w))
     = 1%nat
  /\ sends (trace (run Sample.supports_all
                     (map CallOpen [VUndefined; VUndefined; VUndefined]) w))
     = 1%nat.
Proof.
  cbv zeta.
  assert (R : reachable Sample.includes_names Sample.supports_all
                (run Sample.supports_all [] (connect VUndefined)))
    by (apply connect_reachable; vm_compute; reflexivity).
  assert (S : state (connect VUndefined) = INIT) by (vm_compute; reflexivity).
  assert (H : headers (connect VUndefined) <> VNull)
    by (vm_compute; discriminate).
  assert (U : VUndefined <> VNull) by discriminate.
  pose proof (open_idempotent Sample.includes_names Sample.supports_all
                (connect VUndefined) R) as (_ & Hinit).
  destruct (Hinit S VUndefined [VUndefined; VUndefined]) as (A & B & _ & C).
  split; [exact R|]. split; [exact S|]. split; [exact H|].
  split; [exact A|]. split; [exact B|exact (C H U)].
Defined.

(** C5.  The claim fails on a connection constructed with
    [{ headers: null }].  The construction succeeds; the first [open()]
    moves the state to OPEN, schedules the OPEN event and throws while it
    enumerates the headers, before anything is sent; the second [open()]
    finds the state OPEN and does nothing.  So the two calls schedule one
    OPEN event and send nothing. *)
Theorem open_twice_null_headers_sends_nothing :
  let w := connect (VObject [("headers", VNull)]) in
  new_XHRConnection Sample.includes_names Sample.supports_all 1000
    (VString "/data") (VObject [("headers", VNull)])
  = (Normal tt, w)
  /\ state w = INIT
  /\ fst (open Sample.supports_all VUndefined w) = Throw null_keys
  /\ state (snd (open Sample.supports_all VUndefined w)) = OPEN
  /\ open Sample.supports_all VUndefined
       (snd (open Sample.supports_all VUndefined w))
     = (Normal Nothing, snd (open Sample.supports_all VUndefined w))
  /\ scheduled ConnectionEvent.OPEN
       (trace (run Sample.supports_all
                 [CallOpen VUndefined; CallOpen VUndefined] w)) = 1%nat
  /\ sends (trace (run Sample.supports_all
                     [CallOpen VUndefined; CallOpen VUndefined] w)) = 0%nat
  /\ sends (trace (run Sample.supports_all
                     [CallOpen VUndefined; CallOpen VUndefined] w)) <> 1%nat.
Proof.
  cbv zeta.
  split; [vm_compute; reflexivity|]. split; [vm_compute; reflexivity|].
  split; [vm_compute; reflexivity|]. split; [vm_compute; reflexivity|].
  split; [vm_compute; reflexivity|]. split; [vm_compute; reflexivity|].
  split; [vm_compute; reflexivity|]. vm_compute. discriminate.
Qed.

(** An opened default connection that has received the status 200, and the
    load signal. *)
Lemma emission_deferred_after_mutation_witness :
  let w := run Sample.supports_all
             [CallOpen VUndefined; Receive 200 (VString "true")]
             (connect VUndefined) in
  let w' := step Sample.supports_all (Signal "load") w in
  reachable Sample.includes_names Sample.supports_all w
  /\ state w = OPEN
  /\ status w = (Normal 200, w)
  /\ clock w = 1000
  /\ timers w = [ConnectionEvent.OPEN]
  /\ trace w'
     = (trace w
        ++ [SetState CLOSED; SetClosed (clock w);
            SetTimeout ConnectionEvent.COMPLETE])%list
  /\ state w' = CLOSED
  /\ closed w' = Some (clock w)
  /\ timers w' = (timers w ++ [ConnectionEvent.COMPLETE])%list
  /\ emissions (trace w') = emissions (trace w)
  /\ emissions (trace w') = []
  /\ step Sample.supports_all TimerTurn w
     = logged [Emit ConnectionEvent.OPEN] (set_timers [] w)
  /\ settled w ConnectionEvent.OPEN.
Proof.
  cbv zeta.
  assert (R : reachable Sample.includes_names Sample.supports_all
                (run Sample.supports_all
                   [CallOpen VUndefined; Receive 200 (VString "true")]
                   (connect VUndefined)))
    by (apply connect_reachable; vm_compute; reflexivity).
  assert (S : state (run Sample.supports_all
                       [CallOpen VUndefined; Receive 200 (VString "true")]
                       (connect VUndefined)) = OPEN)
    by (vm_compute; reflexivity).
  assert (St : status (run Sample.supports_all
                         [CallOpen VUndefined; Receive 200 (VString "true")]
                         (connect VUndefined))
               = (Normal 200,
                  run Sample.supports_all
                    [CallOpen VUndefined; Receive 200 (VString "true")]
                    (connect VUndefined)))
    by (vm_compute; reflexivity).
  assert (N : Signal "load" <> TimerTurn) by discriminate.
  assert (T : timers (run Sample.supports_all
                        [CallOpen VUndefined; Receive 200 (VString "true")]
                        (connect VUndefined)) = [ConnectionEvent.OPEN])
    by (vm_compute; reflexivity).
  assert (L : In ("load", ConnectionEvent.COMPLETE)
                [("load", if 200 <? 400 then ConnectionEvent.COMPLETE
                          else ConnectionEvent.ERROR);
                 ("abort", ConnectionEvent.ABORT);
                 ("error", ConnectionEvent.ERROR);
                 ("timeout", ConnectionEvent.ERROR)])
    by (left; reflexivity).
  pose proof (emission_deferred_after_mutation Sample.includes_names
                Sample.supports_all _ (Signal "load") R)
    as (A & _ & C & _ & E & _).
  destruct (C ConnectionEvent.OPEN [] T) as (D1 & D2).
  destruct (E S 200 St "load" ConnectionEvent.COMPLETE L)
    as (E1 & E2 & E3 & _ & E5).
  split; [exact R|]. split; [exact S|]. split; [exact St|].
  split; [vm_compute; reflexivity|]. split; [exact T|].
  split; [exact E1|]. split; [exact E2|]. split; [exact E3|].
  split; [exact E5|]. split; [exact (A N)|].
  split; [vm_compute; reflexivity|]. split; [exact D1|exact D2].
Defined.

(** A default connection opened with [{ "X-Token": "t", "X-Skip": null }]. *)
Lemma open_in_INIT_witness :
  let w := connect VUndefined in
  let extra := VObject [("X-Token", VString "t"); ("X-Skip", VNull)] in
  reachable Sample.includes_names Sample.supports_all w
  /\ state w = INIT
  /\ headers w <> VNull
  /\ extra <> VNull
  /\ fst (open Sample.supports_all extra w) = Normal This
  /\ state (snd (open Sample.supports_all extra w)) = OPEN
  /\ opened (snd (open Sample.supports_all extra w)) = Some 1000
  /\ trace (snd (open Sample.supports_all extra w))
     = (trace w
        ++ wiring_effects
        ++ [XhrOpen (VString "GET") (VString "/data");
            XhrSetTimeout (VNumber (Finite (Qmake 0 1)));
            SetState OPEN; SetOpened 1000;
            SetTimeout ConnectionEvent.OPEN;
            XhrSetRequestHeader "Accept" (VString "application/json");
            XhrSetRequestHeader "X-Token" (VString "t");
            XhrSetResponseType (VString "json"); XhrSend VNull])%list.
Proof.
  cbv zeta.
  assert (R : reachable Sample.includes_names Sample.supports_all
                (run Sample.supports_all [] (connect VUndefined)))
    by (apply connect_reachable; vm_compute; reflexivity).
  assert (S : state (connect VUndefined) = INIT) by (vm_compute; reflexivity).
  assert (H : headers (connect VUndefined) <> VNull)
    by (vm_compute; discriminate).
  assert (X : VObject [("X-Token", VString "t"); ("X-Skip", VNull)] <> VNull)
    by discriminate.
  pose proof (open_in_INIT Sample.includes_names Sample.supports_all
                (connect VUndefined)
                (VObject [("X-Token", VString "t"); ("X-Skip", VNull)])
                R S H X) as (A & B & C & D & _).
  split; [exact R|]. split; [exact S|]. split; [exact H|].
  split; [exact X|]. split; [exact A|]. split; [exact B|].
  split; [exact C|]. rewrite D. vm_compute. reflexivity.
Defined.

(** C7.  The claim fails in two ways.  On a connection constructed with
    [{ headers: null }], [open()] moves to OPEN, schedules the OPEN event
    and throws while it enumerates the headers: it sends nothing and
    returns nothing.  On a default connection [open(null)] passes the
    [typeof] test of its argument and throws after the configured headers,
    again before the response type is set and anything is sent. *)
Theorem open_null_headers_throws :
  let w := connect (VObject [("headers", VNull)]) in
  state w = INIT
  /\ fst (open Sample.supports_all VUndefined w) = Throw null_keys
  /\ fst (open Sample.supports_all VUndefined w) <> Normal This
  /\ state (snd (open Sample.supports_all VUndefined w)) = OPEN
  /\ sends (trace (snd (open Sample.supports_all VUndefined w))) = 0%nat
  /\ state (connect VUndefined) = INIT
  /\ fst (open Sample.supports_all VNull (connect VUndefined))
     = Throw null_keys
  /\ fst (open Sample.supports_all VNull (connect VUndefined)) <> Normal This
  /\ sends (trace (snd (open Sample.supports_all VNull (connect VUndefined))))
     = 0%nat.
Proof.
  cbv zeta. repeat split; vm_compute; (reflexivity || discriminate).
Qed.

(** A connection for ["json"] on a handle that ignores that response type,
    after the text [true] has arrived. *)
Lemma response_accessor_witness :
  let w := run Sample.supports_no_json
             [CallOpen VUndefined; Receive 200 (VString "true");
              Signal "load"]
             (connect_no_json VUndefined) in
  let x := {| x_listeners := wired;
              x_timeout := VNumber (Finite (Qmake 0 1));
              x_responseType := VString "";
              x_response := VString "true";
              x_status := 200 |} in
  xhr w = Some x
  /\ responseType w = VString "json"
  /\ x_responseType x = VString ""
  /\ truthy (x_response x) = true
  /\ response Sample.parse_literals w = (Normal (VBool true), w).
Proof.
  cbv zeta.
  assert (X : xhr (run Sample.supports_no_json
                     [CallOpen VUndefined; Receive 200 (VString "true");
                      Signal "load"]
                     (connect_no_json VUndefined))
              = Some {| x_listeners := wired;
                        x_timeout := VNumber (Finite (Qmake 0 1));
                        x_responseType := VString "";
                        x_response := VString "true";
                        x_status := 200 |})
    by (vm_compute; reflexivity).
  assert (J : responseType (run Sample.supports_no_json
                              [CallOpen VUndefined;
                               Receive 200 (VString "true"); Signal "load"]
                              (connect_no_json VUndefined))
              = VString "json")
    by (vm_compute; reflexivity).
  pose proof (response_accessor Sample.parse_literals _ _ X) as (A & _).
  split; [exact X|]. split; [exact J|]. split; [reflexivity|].
  split; [reflexivity|]. exact (A J eq_refl eq_refl).
Defined.

(** C8 as stated fails when the raw text is empty: on a connection for
    ["json"] whose handle has fallen back to the response type [""], after
    a load with an empty body, the accessor returns the empty text as it
    is, although [JSON.parse] would not accept it. *)
Lemma response_empty_text_not_parsed :
  let w := run Sample.supports_no_json
             [CallOpen VUndefined; Receive 204 (VString ""); Signal "load"]
             (connect_no_json VUndefined) in
  responseType w = VString "json"
  /\ option_map x_responseType (xhr w) = Some (VString "")
  /\ option_map x_response (xhr w) = Some (VString "")
  /\ fst (response Sample.parse_literals w) = Normal (VString "")
  /\ Sample.parse_literals (VString "") = None
  /\ fst (response Sample.parse_literals w)
     <> match Sample.parse_literals (VString "") with
        | Some v => Normal v
        | None => Throw SyntaxError
        end.
Proof.
  cbv zeta. repeat split; vm_compute; (reflexivity || discriminate).
Qed.

(** A connection closed by an error signal at time 1005, and a timeout
    signal arriving at time 1008. *)
Lemma timestamps_lifecycle_witness :
  let w := run Sample.supports_all
             [CallOpen VUndefined; Tick 5; Signal "error"; Tick 3]
             (connect VUndefined) in
  let w' := step Sample.supports_all (Signal "timeout") w in
  reachable Sample.includes_names Sample.supports_all w
  /\ clock w = 1008
  /\ opened w = Some 1000
  /\ opened w' = Some 1000
  /\ closed w = Some 1005
  /\ closed w' = Some 1005
  /\ state w = CLOSED
  /\ state w' = CLOSED
  /\ closed w' = closed w
  /\ (exists k,
        timers w' = (timers w ++ [k])%list
        /\ k <> ConnectionEvent.OPEN /\ k <> ConnectionEvent.DATA)
  /\ timers w'
     = [ConnectionEvent.OPEN; ConnectionEvent.ERROR; ConnectionEvent.ERROR].
Proof.
  cbv zeta.
  assert (R : reachable Sample.includes_names Sample.supports_all
                (run Sample.supports_all
                   [CallOpen VUndefined; Tick 5; Signal "error"; Tick 3]
                   (connect VUndefined)))
    by (apply connect_reachable; vm_compute; reflexivity).
  assert (O : opened (run Sample.supports_all
                        [CallOpen VUndefined; Tick 5; Signal "error"; Tick 3]
                        (connect VUndefined)) = Some 1000)
    by (vm_compute; reflexivity).
  assert (K : closed (run Sample.supports_all
                        [CallOpen VUndefined; Tick 5; Signal "error"; Tick 3]
                        (connect VUndefined)) = Some 1005)
    by (vm_compute; reflexivity).
  assert (S : state (run Sample.supports_all
                       [CallOpen VUndefined; Tick 5; Signal "error"; Tick 3]
                       (connect VUndefined)) = CLOSED)
    by (vm_compute; reflexivity).
  assert (N : opened (run Sample.supports_all
                        [CallOpen VUndefined; Tick 5; Signal "error"; Tick 3]
                        (connect VUndefined)) <> None)
    by (rewrite O; discriminate).
  pose proof (timestamps_lifecycle Sample.includes_names Sample.supports_all
                _ (Signal "timeout") R) as (A & _ & A' & _ & _ & B).
  destruct (B S N "timeout") as (C & D & E);
    [right; right; right; left; reflexivity|].
  split; [exact R|]. split; [vm_compute; reflexivity|].
  split; [exact O|]. split; [exact (A 1000 O)|].
  split; [exact K|]. split; [exact (A' 1005 K)|].
  split; [exact S|]. split; [exact C|]. split; [exact D|].
  split; [exact E|]. vm_compute. reflexivity.
Defined.

(** The options [{ headers: null }]. *)
Lemma null_headers_pass_construction_witness :
  let options := VObject [("headers", VNull)] in
  get options "headers" = VNull
  /\ typeof (option_headers options) = "object"
  /\ (exists w0,
        new_XHRConnection Sample.includes_names Sample.supports_all 1000
          (VString "/data") options = (Normal tt, w0)
        /\ headers w0 = VNull
        /\ state w0 = INIT
        /\ forall h,
             fst (open Sample.supports_all h w0) = Throw null_keys
             /\ state (snd (open Sample.supports_all h w0)) = OPEN
             /\ sends (trace (snd (open Sample.supports_all h w0))) = 0%nat
             /\ scheduled ConnectionEvent.OPEN
                  (trace (snd (open Sample.supports_all h w0))) = 1%nat).
Proof.
  cbv zeta.
  assert (G : get (VObject [("headers", VNull)]) "headers" = VNull)
    by reflexivity.
  pose proof (null_headers_pass_construction Sample.includes_names
                Sample.supports_all 1000 (VString "/data")
                (VObject [("headers", VNull)]) G) as (A & _ & B).
  assert (T : nonneg_safe_integer
                (option_timeout (VObject [("headers", VNull)]))).
  { exists (Qmake 0 1), 0. repeat split; try reflexivity.
    unfold MAX_SAFE_INTEGER. lia. }
  assert (L : valid_listeners Sample.includes_names
                (option_listeners (VObject [("headers", VNull)])))
    by (exists []; split; [reflexivity|constructor]).
  destruct (B eq_refl eq_refl T L) as (C & _).
  split; [exact G|]. split; [exact A|]. exact (C eq_refl).
Defined.

(** ** The further properties on concrete connections *)

(** A default connection opened, with a progress signal, one timer turn and
    a load signal. *)
Lemma events_in_schedule_order_witness :
  let w := run Sample.supports_all
             [CallOpen VUndefined; Signal "progress"; TimerTurn;
              Signal "load"] (connect VUndefined) in
  reachable Sample.includes_names Sample.supports_all w
  /\ (emissions (trace w) ++ timers w)%list = schedule (trace w)
  /\ (exists rest,
        schedule (trace w) = ConnectionEvent.OPEN :: rest
        /\ ~ In ConnectionEvent.OPEN rest).
Proof.
  cbv zeta.
  assert (R : reachable Sample.includes_names Sample.supports_all
                (run Sample.supports_all
                   [CallOpen VUndefined; Signal "progress"; TimerTurn;
                    Signal "load"] (connect VUndefined)))
    by (apply connect_reachable; vm_compute; reflexivity).
  destruct (events_in_schedule_order Sample.includes_names
              Sample.supports_all _ R) as (A & B & _).
  split; [exact R|]. split; [exact A|].
  apply B. vm_compute. discriminate.
Defined.


(** A POST connection opened at construction, through a load signal and a
    call of [close()]. *)
Lemma configuration_fixed_witness :
  let options :=
    VObject [("method", VString "POST"); ("body", VString "x=1");
             ("open", VBool true)] in
  let acts := [Signal "load"; CallClose; TimerTurn] in
  new_XHRConnection Sample.includes_names Sample.supports_all 1000
    (VString "/data") options
  = (Normal tt, connect options)
  /\ configuration (run Sample.supports_all acts (connect options))
     = configuration (connect options)
  /\ exists items,
       option_listeners options = VArray items
       /\ configuration (connect options)
          = (VString "/data", option_method options,
             get_default options "body" VNull, option_headers options,
             option_responseType options, option_timeout options,
             registrations items).
Proof.
  cbv zeta.
  split; [vm_compute; reflexivity|].
  apply (configuration_fixed Sample.includes_names Sample.supports_all 1000
           (VString "/data")).
  vm_compute. reflexivity.
Defined.


(** A default connection opened with one extra header, then closed
    twice. *)
Lemma transport_call_order_witness :
  let w := run Sample.supports_all
             [CallOpen (VObject [("X-Trace", VString "1")]); CallClose;
              CallClose] (connect VUndefined) in
  reachable Sample.includes_names Sample.supports_all w
  /\ (opened w = None -> transport_calls (trace w) = [])
  /\ (opened w <> None ->
      exists hs tail n,
        transport_calls (trace w)
        = (wiring_effects
           ++ [XhrOpen (method w) (url w); XhrSetTimeout (timeout w)]
           ++ hs ++ tail ++ repeat XhrAbort n)%list
        /\ Forall (fun e => is_header_call e = true) hs
        /\ (tail = []
            \/ tail = [XhrSetResponseType (responseType w);
                       XhrSend (body w)])).
Proof.
  cbv zeta.
  assert (R : reachable Sample.includes_names Sample.supports_all
                (run Sample.supports_all
                   [CallOpen (VObject [("X-Trace", VString "1")]); CallClose;
                    CallClose] (connect VUndefined)))
    by (apply connect_reachable; vm_compute; reflexivity).
  split; [exact R|].
  exact (transport_call_order Sample.includes_names Sample.supports_all _ R).
Defined.


(** A connection opened at construction; the clock advances by 5, the
    transport signals load, the clock advances by 3. *)
Lemma timestamps_in_order_witness :
  let options := VObject [("open", VBool true)] in
  let acts := [Tick 5; Signal "load"; Tick 3] in
  new_XHRConnection Sample.includes_names Sample.supports_all 1000
    (VString "/data") options
  = (Normal tt, connect options)
  /\ clock_forward acts
  /\ 1000 <= clock (run Sample.supports_all acts (connect options))
  /\ (forall o,
        opened (run Sample.supports_all acts (connect options)) = Some o ->
        1000 <= o <= clock (run Sample.supports_all acts (connect options)))
  /\ (forall c,
        closed (run Sample.supports_all acts (connect options)) = Some c ->
        1000 <= c <= clock (run Sample.supports_all acts (connect options)))
  /\ (forall o c,
        opened (run Sample.supports_all acts (connect options)) = Some o ->
        closed (run Sample.supports_all acts (connect options)) = Some c ->
        o <= c).
Proof.
  cbv zeta.
  assert (C : new_XHRConnection Sample.includes_names Sample.supports_all
                1000 (VString "/data") (VObject [("open", VBool true)])
              = (Normal tt, connect (VObject [("open", VBool true)])))
    by (vm_compute; reflexivity).
  assert (F : clock_forward [Tick 5; Signal "load"; Tick 3]).
  { unfold clock_forward.
    repeat (apply Forall_cons; [cbn; first [lia | exact I]|]).
    apply Forall_nil. }
  split; [exact C|]. split; [exact F|].
  exact (timestamps_in_order Sample.includes_names Sample.supports_all
           1000 (VString "/data") (VObject [("open", VBool true)])
           (connect (VObject [("open", VBool true)]))
           [Tick 5; Signal "load"; Tick 3] C F).
Defined.


(** A default connection on a handle that ignores ["json"], opened, with
    the text [true] received. *)
Lemma handle_settings_follow_configuration_witness :
  let w := run Sample.supports_no_json
             [CallOpen VUndefined; Receive 200 (VString "true")]
             (connect_no_json VUndefined) in
  reachable Sample.includes_names Sample.supports_no_json w
  /\ exists x,
       xhr w = Some x
       /\ x_responseType x = negotiated Sample.supports_no_json w
       /\ (opened w <> None -> x_timeout x = timeout w)
       /\ (responseType w = VString "json" ->
           response Sample.parse_literals w
           = if truthy (x_response x)
                && negb ((0 <? sends (trace w))%nat
                         && Sample.supports_no_json (VString "json"))
             then (match Sample.parse_literals (x_response x) with
                   | Some v => Normal v
                   | None => Throw SyntaxError
                   end, w)
             else (Normal (x_response x), w)).
Proof.
  cbv zeta.
  assert (R : reachable Sample.includes_names Sample.supports_no_json
                (run Sample.supports_no_json
                   [CallOpen VUndefined; Receive 200 (VString "true")]
                   (connect_no_json VUndefined)))
    by (apply connect_no_json_reachable; vm_compute; reflexivity).
  split; [exact R|].
  exact (handle_settings_follow_configuration Sample.includes_names
           Sample.parse_literals Sample.supports_no_json _ R).
Defined.






(** A POST connection, with and without [open: true]. *)
Lemma open_option_is_open_call_witness :
  let options := VObject [("open", VBool true); ("method", VString "POST")] in
  let options' := VObject [("method", VString "POST")] in
  (forall key, key <> "open" -> get options key = get options' key)
  /\ truthy (get options "open") = true
  /\ truthy (get options' "open") = false
  /\ new_XHRConnection Sample.includes_names Sample.supports_all 1000
       (VString "/data") options'
     = (Normal tt, connect options')
  /\ new_XHRConnection Sample.includes_names Sample.supports_all 1000
       (VString "/data") options
     = match open Sample.supports_all VUndefined (connect options') with
       | (Normal _, w) => (Normal tt, w)
       | (Throw e, w) => (Throw e, w)
       end.
Proof.
  cbv zeta.
  assert (S : forall key, key <> "open" ->
                get (VObject [("open", VBool true);
                              ("method", VString "POST")]) key
                = get (VObject [("method", VString "POST")]) key).
  { intros key Hk. cbn [get lookup].
    destruct (String.eqb "open" key) eqn:E; [|reflexivity].
    apply String.eqb_eq in E. now contradiction Hk. }
  assert (C : new_XHRConnection Sample.includes_names Sample.supports_all
                1000 (VString "/data") (VObject [("method", VString "POST")])
              = (Normal tt, connect (VObject [("method", VString "POST")])))
    by (vm_compute; reflexivity).
  split; [exact S|]. split; [reflexivity|]. split; [reflexivity|].
  split; [exact C|].
  exact (open_option_is_open_call Sample.includes_names Sample.supports_all
           1000 (VString "/data")
           (VObject [("open", VBool true); ("method", VString "POST")])
           (VObject [("method", VString "POST")])
           (connect (VObject [("method", VString "POST")]))
           S eq_refl eq_refl C).
Defined.


(** A default connection closed before it was opened: a load signal. *)
Lemma unheard_signals_change_nothing_witness :
  let w := run Sample.supports_all [CallClose] (connect VUndefined) in
  reachable Sample.includes_names Sample.supports_all w
  /\ (opened w = None
      \/ ~ In "load" ["progress"; "load"; "abort"; "error"; "timeout"])
  /\ dispatch "load" w = (Normal tt, w)
  /\ step Sample.supports_all (Signal "load") w = w.
Proof.
  cbv zeta.
  assert (R : reachable Sample.includes_names Sample.supports_all
                (run Sample.supports_all [CallClose] (connect VUndefined)))
    by (apply connect_reachable; vm_compute; reflexivity).
  assert (O : opened (run Sample.supports_all [CallClose]
                        (connect VUndefined)) = None
              \/ ~ In "load" ["progress"; "load"; "abort"; "error"; "timeout"])
    by (left; vm_compute; reflexivity).
  split; [exact R|]. split; [exact O|].
  exact (unheard_signals_change_nothing Sample.includes_names
           Sample.supports_all _ "load" R O).
Defined.


(** A text connection opened at construction that receives a 404. *)
Lemma accessors_report_last_received_witness :
  let options :=
    VObject [("responseType", VString "text"); ("open", VBool true)] in
  let acts := [Receive 404 (VString "not found"); Signal "load"] in
  new_XHRConnection Sample.includes_names Sample.supports_all 1000
    (VString "/data") options
  = (Normal tt, connect options)
  /\ status (run Sample.supports_all acts (connect options))
     = (Normal (fst (last_received acts)),
        run Sample.supports_all acts (connect options))
  /\ (option_responseType options <> VString "json"
      \/ truthy (snd (last_received acts)) = false ->
      response Sample.parse_literals
        (run Sample.supports_all acts (connect options))
      = (Normal (snd (last_received acts)),
         run Sample.supports_all acts (connect options))).
Proof.
  cbv zeta.
  split; [vm_compute; reflexivity|].
  apply (accessors_report_last_received Sample.includes_names
           Sample.parse_literals Sample.supports_all 1000 (VString "/data")).
  vm_compute. reflexivity.
Defined.


(** A connection opened at construction: a load with status 200, or
    [close()] and the abort signal. *)
Lemma open_request_runs_to_its_end_witness :
  let w := connect (VObject [("open", VBool true)]) in
  let turns := repeat TimerTurn (S (List.length (timers w))) in
  let loaded :=
    run Sample.supports_all
      ([Receive 200 (VString "true"); Signal "load"] ++ turns) w in
  let cancelled :=
    run Sample.supports_all ([CallClose; Signal "abort"] ++ turns) w in
  reachable Sample.includes_names Sample.supports_all w
  /\ state w = OPEN
  /\ (state loaded = CLOSED
      /\ closed loaded = Some (clock w)
      /\ opened loaded = opened w
      /\ timers loaded = []
      /\ emissions (trace loaded)
         = (emissions (trace w) ++ timers w
            ++ [if 200 <? 400 then ConnectionEvent.COMPLETE
                else ConnectionEvent.ERROR])%list
      /\ status loaded = (Normal 200, loaded)
      /\ transport_calls (trace loaded) = transport_calls (trace w))
  /\ (state cancelled = CLOSED
      /\ closed cancelled = Some (clock w)
      /\ opened cancelled = opened w
      /\ timers cancelled = []
      /\ emissions (trace cancelled)
         = (emissions (trace w) ++ timers w ++ [ConnectionEvent.ABORT])%list
      /\ transport_calls (trace cancelled)
         = (transport_calls (trace w) ++ [XhrAbort])%list).
Proof.
  cbv zeta.
  assert (R : reachable Sample.includes_names Sample.supports_all
                (connect (VObject [("open", VBool true)])))
    by (exists (connect (VObject [("open", VBool true)])), [];
        split; [|vm_compute; reflexivity];
        exists 1000, (VString "/data"), (VObject [("open", VBool true)]);
        vm_compute; reflexivity).
  assert (S : state (connect (VObject [("open", VBool true)])) = OPEN)
    by (vm_compute; reflexivity).
  split; [exact R|]. split; [exact S|].
  exact (open_request_runs_to_its_end Sample.includes_names
           Sample.supports_all _ 200 (VString "true") R S).
Defined.
